(** * Banner signaling server: room/session state machine

    A shallow embedding of [src/server.js].  The three process-wide
    JavaScript [Map]s ([activeRooms], [userSockets], [userConnections]),
    the per-connection closure created by [io.on('connection')]
    ([clientIp], [userData]) and the transport's group membership of
    every socket are an explicit [State]; every handler is a function
    from the state to a new state and the list of actions (emitted events
    and [logActivity] lines) it performed, in program order.

    Modelling conventions
    - text is ASCII: [toUpperCase] maps a..z to A..Z, [trim] strips the
      ASCII white space characters, [length] counts characters.  Outside
      ASCII the built-ins of JavaScript differ from these definitions
      ([toUpperCase] may lengthen a text, [length] counts UTF-16 units):
      the facts about normal forms below are facts about ASCII text, and
      what the server stores is described as the normal form of a
      validated text, not by its length;
    - the payload of an event is either an object whose fields are
      strings or missing, or it is absent altogether.  A field is an
      [option string]: [None] is a missing ([undefined]) field, so [!x]
      is [negb (truthy x)].  An absent payload ([undefined], [null])
      makes the destructuring at the head of a handler throw: that is
      the event [NoPayload], answered by the handler's [catch] block.
      Fields holding other JSON values are not modelled;
    - [Date.now()], [new Date().toISOString()] and [generateId()] are
      inputs of the event that reads them (one clock reading per event);
    - [console.log] debugging output is not recorded, [logActivity] is;
    - the transport (socket.io) keeps, for every connected socket, the
      set of groups it is in ([socket.rooms]): a socket starts in the
      group named by its own id, [socket.join] and [socket.leave] add
      and remove a group, and a socket has left all its groups when its
      [disconnect] event fires.  [socket.emit] reaches the socket,
      [io.to(g).emit] every socket in group [g], and [socket.to(g).emit]
      every socket in [g] that is not in the group named by the sender's
      id: that excludes the sender for as long as it stays in that
      group, and with it whoever else has joined it.  Socket ids and
      room codes are both plain group names;
    - handlers run to completion one after the other, so a run of the
      server is a sequence of [event]s. *)

From Stdlib Require Import String Ascii List Bool Arith ZArith Lia.
Import ListNotations.
Open Scope string_scope.
Open Scope list_scope.
Open Scope nat_scope.

Set Implicit Arguments.

(* ------------------------------------------------------------------ *)
(** ** JavaScript [Map] with string keys, in insertion order *)

Module JMap.
Section Defs.
Variable V : Type.

Definition t := list (string * V).

Definition empty : t := [].

Fixpoint get (k : string) (m : t) : option V :=
  match m with
  | [] => None
  | (k', v) :: m' => if String.eqb k k' then Some v else get k m'
  end.

Definition has (k : string) (m : t) : bool :=
  match get k m with Some _ => true | None => false end.

(** [m.set(k, v)]: an existing key keeps its position, a new key is
    appended. *)
Fixpoint set (k : string) (v : V) (m : t) : t :=
  match m with
  | [] => [(k, v)]
  | (k', v') :: m' =>
      if String.eqb k k' then (k, v) :: m' else (k', v') :: set k v m'
  end.

Definition delete (k : string) (m : t) : t :=
  filter (fun kv => negb (String.eqb k (fst kv))) m.

Definition size (m : t) : nat := length m.

Definition keys (m : t) : list string := map fst m.

Definition values (m : t) : list V := map snd m.
End Defs.
End JMap.

Arguments JMap.empty {V}.

(* ------------------------------------------------------------------ *)
(** ** Strings: [toUpperCase], [trim], truthiness *)

Definition is_lower (a : ascii) : bool :=
  let n := nat_of_ascii a in (97 <=? n) && (n <=? 122).

Definition upper_ascii (a : ascii) : ascii :=
  if is_lower a then ascii_of_nat (nat_of_ascii a - 32) else a.

Fixpoint toUpperCase (s : string) : string :=
  match s with
  | EmptyString => EmptyString
  | String a s' => String (upper_ascii a) (toUpperCase s')
  end.

Definition is_space (a : ascii) : bool :=
  let n := nat_of_ascii a in
  ((9 <=? n) && (n <=? 13)) || (n =? 32).

Fixpoint trimStart (s : string) : string :=
  match s with
  | EmptyString => EmptyString
  | String a s' => if is_space a then trimStart s' else s
  end.

Fixpoint trimEnd (s : string) : string :=
  match s with
  | EmptyString => EmptyString
  | String a s' =>
      match trimEnd s' with
      | EmptyString => if is_space a then EmptyString else String a EmptyString
      | r => String a r
      end
  end.

Definition trim (s : string) : string := trimEnd (trimStart s).

(** [nickname.toUpperCase().trim()] *)
Definition clean (s : string) : string := trim (toUpperCase s).

(** Whether a lower-case letter occurs in [s]. *)
Fixpoint has_lower (s : string) : bool :=
  match s with
  | EmptyString => false
  | String a s' => is_lower a || has_lower s'
  end.

(** JavaScript truthiness of a value that is a string, [null] or
    [undefined]. *)
Definition truthy (o : option string) : bool :=
  match o with
  | Some s => negb (String.eqb s "")
  | None => false
  end.

Definition opt_eqb (a b : option string) : bool :=
  match a, b with
  | Some x, Some y => String.eqb x y
  | None, None => true
  | _, _ => false
  end.

(* ------------------------------------------------------------------ *)
(** ** Data model *)

(** A socket id, as handed out by the transport. *)
Definition sid := string.

(** The value stored in [room.users]. *)
Record Member := mkMember {
  m_socketId : sid;
  m_nickname : string;
  m_joinTime : Z
}.

(** The value stored in [activeRooms]. *)
Record Room := mkRoom {
  code : string;
  users : JMap.t Member;
  created : Z;
  lastActivity : Z
}.

(** The [userData] object of one connection. *)
Record UserData := mkUserData {
  socketId : sid;
  nickname : option string;
  roomCode : option string;
  joinTime : Z
}.

(** One accepted connection: what the closure of the connection callback
    captures ([clientIp], [userData]) together with [socket.rooms], the
    transport groups the socket is in. *)
Record Socket := mkSocket {
  clientIp : string;
  userData : UserData;
  rooms : list string
}.

(** [userSockets] stores, under the socket id, a reference to the
    [userData] object of the closure; the object of connection [s] is
    addressed by [s] and read through [sockets]. *)
Definition ref := sid.

Record State := mkState {
  activeRooms : JMap.t Room;
  userSockets : JMap.t ref;
  userConnections : JMap.t nat;
  sockets : JMap.t Socket
}.

Definition init : State := mkState JMap.empty JMap.empty JMap.empty JMap.empty.

Definition MAX_CONNECTIONS_PER_IP : nat := 10.

(** [30 * 60 * 1000] milliseconds *)
Definition ROOM_TTL : Z := 30 * 60 * 1000.

(* ------------------------------------------------------------------ *)
(** ** Outbound events *)

Record RosterEntry := mkRosterEntry {
  e_socketId : sid;
  e_nickname : string;
  e_isMe : option bool
}.

Inductive payload :=
| RoomJoined (roomCode nickname : string) (userCount : nat)
| JoinError (message : string)
| UsersUpdated (users : list RosterEntry) (userCount : nat)
| UserJoined (socketId : sid) (nickname : string)
| UserLeft (socketId : sid) (nickname : option string)
| WebrtcSignalOut (fromSocketId : sid) (fromNickname : option string)
                  (signal : string) (type : option string)
| ChatMessageOut (id : string) (sender : option string) (content : string)
                 (timestamp : Z)
| PrivateChatInviteOut (fromUser toUser roomCode : string)
| ErrorOut (message : string).

(** How an emission is addressed. *)
Inductive address :=
| ToSelf (s : sid)                    (* socket.emit *)
| ToOthers (s : sid) (group : string) (* socket.to(group).emit *)
| ToAll (group : string).             (* io.to(group).emit *)

(** An emission records its address and the connections the transport
    delivers it to at the moment it is emitted. *)
Inductive action :=
| Emit (a : address) (recipients : list sid) (p : payload)
| Log (message : string).

(** The sockets that are in transport group [g], in connection order. *)
Definition in_group (g : string) (st : State) : list sid :=
  JMap.keys
    (filter (fun kv => existsb (String.eqb g) (rooms (snd kv))) (sockets st)).

(** The recipients of [socket.to(g).emit] from socket [s]: the sockets
    in [g], except those in the group named [s]. *)
Definition others (s : sid) (g : string) (st : State) : list sid :=
  filter (fun x => negb (existsb (String.eqb x) (in_group s st)))
    (in_group g st).

Definition emit_self (s : sid) (p : payload) : action :=
  Emit (ToSelf s) [s] p.

Definition emit_others (s : sid) (g : string) (st : State) (p : payload)
  : action :=
  Emit (ToOthers s g) (others s g st) p.

Definition emit_all (g : string) (st : State) (p : payload) : action :=
  Emit (ToAll g) (in_group g st) p.

(* ------------------------------------------------------------------ *)
(** ** State updates *)

Definition set_activeRooms (r : JMap.t Room) (st : State) : State :=
  mkState r (userSockets st) (userConnections st) (sockets st).

Definition set_userSockets (u : JMap.t ref) (st : State) : State :=
  mkState (activeRooms st) u (userConnections st) (sockets st).

Definition set_userConnections (u : JMap.t nat) (st : State) : State :=
  mkState (activeRooms st) (userSockets st) u (sockets st).

Definition set_sockets (k : JMap.t Socket) (st : State) : State :=
  mkState (activeRooms st) (userSockets st) (userConnections st) k.

Definition with_userData (u : UserData) (c : Socket) : Socket :=
  mkSocket (clientIp c) u (rooms c).

Definition with_rooms (r : list string) (c : Socket) : Socket :=
  mkSocket (clientIp c) (userData c) r.

(** Rewrite the closure of a live socket in place. *)
Definition upd_socket (s : sid) (f : Socket -> Socket) (st : State) : State :=
  match JMap.get s (sockets st) with
  | Some c => set_sockets (JMap.set s (f c) (sockets st)) st
  | None => st
  end.

(** [socket.join(g)]: [socket.rooms] is a set. *)
Definition socket_join (g : string) (c : Socket) : Socket :=
  if existsb (String.eqb g) (rooms c) then c
  else with_rooms (rooms c ++ [g]) c.

(** [socket.leave(g)] *)
Definition socket_leave (g : string) (c : Socket) : Socket :=
  with_rooms (filter (fun x => negb (String.eqb g x)) (rooms c)) c.

(** Dereference a [userSockets] value. *)
Definition deref (st : State) (r : ref) : option UserData :=
  option_map userData (JMap.get r (sockets st)).

(** The Session Registry entry of connection [s], if any. *)
Definition session (st : State) (s : sid) : option UserData :=
  match JMap.get s (userSockets st) with
  | Some r => deref st r
  | None => None
  end.

(* ------------------------------------------------------------------ *)
(** ** The connection callback: admission *)

(** [io.on('connection', ...)] up to the registration of the handlers.
    A rejected socket is told why and disconnected before any handler is
    registered, so it never enters [sockets]. *)
Definition on_connection (s : sid) (ip : string) (now : Z) (st : State)
  : State * list action :=
  let connectionCount :=
    match JMap.get ip (userConnections st) with
    | Some n => n
    | None => 0
    end in
  if MAX_CONNECTIONS_PER_IP <=? connectionCount then
    (st, [Log "Connection rejected - rate limit";
          emit_self s (ErrorOut "Too many connections from this IP")])
  else
    let st1 :=
      set_userConnections
        (JMap.set ip (connectionCount + 1) (userConnections st)) st in
    let userData := mkUserData s None None now in
    let st2 :=
      set_sockets (JMap.set s (mkSocket ip userData [s]) (sockets st1)) st1 in
    (set_userSockets (JMap.set s s (userSockets st2)) st2,
     [Log "New connection"]).

(* ------------------------------------------------------------------ *)
(** ** join-room *)

Definition fresh_room (c : string) (now : Z) : Room :=
  mkRoom c JMap.empty now now.

(** The duplicate-nickname scan over [room.users.entries()]. *)
Definition nickname_taken (s : sid) (cleanNickname : string) (room : Room)
  : bool :=
  existsb
    (fun kv => String.eqb (m_nickname (snd kv)) cleanNickname
               && negb (String.eqb (fst kv) s))
    (users room).

(** [Array.from(room.users.values()).map(...)]; [me] is the joining
    socket when the entries carry [isMe]. *)
Definition roster (me : option sid) (room : Room) : list RosterEntry :=
  map (fun u => mkRosterEntry (m_socketId u) (m_nickname u)
                  (option_map (String.eqb (m_socketId u)) me))
      (JMap.values (users room)).

Definition set_identity (nick room : option string) (c : Socket) : Socket :=
  with_userData
    (mkUserData (socketId (userData c)) nick room (joinTime (userData c))) c.

(** [!roomCode || !nickname || roomCode.length > 50 ||
    nickname.length > 16], for fields that are present. *)
Definition invalid_request (rc nk : string) : bool :=
  String.eqb rc "" || String.eqb nk ""
  || (50 <? String.length rc) || (16 <? String.length nk).

Definition join_room (s : sid) (roomCode nickname : option string) (now : Z)
  (st : State) : State * list action :=
  let invalid :=
    (st, [emit_self s (JoinError "Invalid room code or nickname")]) in
  match roomCode, nickname with
  | Some rc, Some nk =>
      if invalid_request rc nk then invalid
      else
        let cleanNickname := clean nk in
        let cleanRoomCode := clean rc in
        (* userData.nickname = ...; userData.roomCode = ... *)
        let st1 :=
          upd_socket s
            (set_identity (Some cleanNickname) (Some cleanRoomCode)) st in
        (* get or create room *)
        let '(st2, log2) :=
          if JMap.has cleanRoomCode (activeRooms st1) then (st1, [])
          else
            (set_activeRooms
               (JMap.set cleanRoomCode (fresh_room cleanRoomCode now)
                  (activeRooms st1)) st1,
             [Log "Room created"]) in
        match JMap.get cleanRoomCode (activeRooms st2) with
        | None =>
            (* [room.users] on [undefined] throws into the catch block *)
            (st2, log2 ++ [Log "Error in join-room";
                           emit_self s (JoinError "Failed to join room")])
        | Some room =>
            if nickname_taken s cleanNickname room then
              (st2, log2 ++
                 [emit_self s
                    (JoinError "Nickname already taken in this room")])
            else
              let room' :=
                mkRoom (code room)
                  (JMap.set s (mkMember s cleanNickname now) (users room))
                  (created room) now in
              let st3 :=
                set_activeRooms
                  (JMap.set cleanRoomCode room' (activeRooms st2)) st2 in
              let st4 := upd_socket s (socket_join cleanRoomCode) st3 in
              let userCount := JMap.size (users room') in
              (st4, log2 ++
                 [emit_self s (RoomJoined cleanRoomCode cleanNickname userCount);
                  emit_all cleanRoomCode st4
                    (UsersUpdated (roster (Some s) room') userCount);
                  emit_others s cleanRoomCode st4
                    (UserJoined s cleanNickname);
                  Log "User joined room"])
        end
  | _, _ => invalid
  end.

(* ------------------------------------------------------------------ *)
(** ** webrtc-signal, chat-message, private-chat-invite *)

Definition webrtc_signal (s : sid) (c : Socket)
  (targetSocketId signal type : option string) (st : State)
  : State * list action :=
  match targetSocketId, signal with
  | Some t, Some sg =>
      if String.eqb t "" || String.eqb sg "" then (st, [])
      else
        (st, [emit_others s t st
                (WebrtcSignalOut s (nickname (userData c)) sg type);
              Log "WebRTC signal forwarded"])
  | _, _ => (st, [])
  end.

Definition touch (now : Z) (room : Room) : Room :=
  mkRoom (code room) (users room) (created room) now.

Definition chat_message (s : sid) (c : Socket)
  (data_message data_roomCode : option string) (now : Z) (id : string)
  (st : State) : State * list action :=
  let ud := userData c in
  if negb (truthy (roomCode ud)) || negb (opt_eqb (roomCode ud) data_roomCode)
  then (st, [])
  else
    match data_message, data_roomCode with
    | Some message, Some rc =>
        if String.eqb message "" || (500 <? String.length message)
        then (st, [])
        else
          match JMap.get rc (activeRooms st) with
          | None => (st, [])
          | Some room =>
              if negb (JMap.has s (users room)) then (st, [])
              else
                let messageData := ChatMessageOut id (nickname ud) message now in
                (set_activeRooms
                   (JMap.set rc (touch now room) (activeRooms st)) st,
                 [emit_others s rc st messageData; Log "Message relayed"])
          end
    | _, _ => (st, [])
    end.

(** The scan over [userSockets.entries()]: the first entry whose
    [userInfo.nickname === toUser]. *)
Definition nickname_is (toUser : string) (st : State) (kv : string * ref)
  : bool :=
  match deref st (snd kv) with
  | Some userInfo => opt_eqb (nickname userInfo) (Some toUser)
  | None => false
  end.

Definition find_target (toUser : string) (st : State) : option sid :=
  option_map fst (find (nickname_is toUser st) (userSockets st)).

Definition private_chat_invite (data_fromUser data_toUser data_roomCode
                                : option string) (st : State)
  : State * list action :=
  let invalid := (st, [Log "Invalid private chat invite data"]) in
  match data_fromUser, data_toUser, data_roomCode with
  | Some fromUser, Some toUser, Some rc =>
      if String.eqb fromUser "" || String.eqb toUser "" || String.eqb rc ""
      then invalid
      else
        let targetSocketId := find_target toUser st in
        match targetSocketId with
        | Some target =>
            if truthy targetSocketId then
              (st, [emit_all target st (PrivateChatInviteOut fromUser toUser rc);
                    Log "Private chat invitation sent"])
            else (st, [Log "Target user not found for private chat"])
        | None => (st, [Log "Target user not found for private chat"])
        end
  | _, _, _ => invalid
  end.

(* ------------------------------------------------------------------ *)
(** ** leave-room and disconnect *)

Definition clear_room (c : Socket) : Socket :=
  set_identity (nickname (userData c)) None c.

(** [handleUserLeave(socket)], shared by [leave-room] and [disconnect]. *)
Definition handleUserLeave (s : sid) (c : Socket) (now : Z) (st : State)
  : State * list action :=
  let ud := userData c in
  let '(st1, out) :=
    match roomCode ud with
    | Some rc =>
        if String.eqb rc "" then (st, [])
        else
          let '(st', out) :=
            match JMap.get rc (activeRooms st) with
            | Some room =>
                let room' :=
                  mkRoom (code room) (JMap.delete s (users room))
                    (created room) now in
                let sta :=
                  set_activeRooms (JMap.set rc room' (activeRooms st)) st in
                let userCount := JMap.size (users room') in
                let out1 :=
                  [emit_others s rc sta (UserLeft s (nickname ud));
                   emit_all rc sta (UsersUpdated (roster None room') userCount)]
                in
                if userCount =? 0 then
                  (set_activeRooms (JMap.delete rc (activeRooms sta)) sta,
                   out1 ++ [Log "Empty room removed"; Log "User left room"])
                else (sta, out1 ++ [Log "User left room"])
            | None => (st, [])
            end in
          (* socket.leave(userData.roomCode) *)
          (upd_socket s (socket_leave rc) st', out)
    | None => (st, [])
    end in
  (* userSockets.delete(socket.id); userData.roomCode = null *)
  let st2 := set_userSockets (JMap.delete s (userSockets st1)) st1 in
  (upd_socket s clear_room st2, out).

(** The clean-up of the connection count in the [disconnect] handler:
    [userConnections.get(clientIp) || 1], then delete or decrement. *)
Definition released (clientIp : string) (userConnections : JMap.t nat)
  : JMap.t nat :=
  let connectionCount :=
    match JMap.get clientIp userConnections with
    | Some n => if n =? 0 then 1 else n
    | None => 1
    end in
  if connectionCount <=? 1 then JMap.delete clientIp userConnections
  else JMap.set clientIp (connectionCount - 1) userConnections.

(** The [disconnect] handler.  The transport has taken the socket out of
    all its groups when the event fires, and drops the socket (and with
    it the closure) afterwards. *)
Definition on_disconnect (s : sid) (c : Socket) (now : Z) (st : State)
  : State * list action :=
  let c0 := with_rooms [] c in
  let st0 := set_sockets (JMap.set s c0 (sockets st)) st in
  let '(st1, out) := handleUserLeave s c0 now st0 in
  let st2 :=
    set_userConnections (released (clientIp c) (userConnections st1)) st1 in
  (set_sockets (JMap.delete s (sockets st2)) st2,
   out ++ [Log "User disconnected"]).

(* ------------------------------------------------------------------ *)
(** ** The reaper *)

Definition inactive (now : Z) (kv : string * Room) : bool :=
  (ROOM_TTL <? now - lastActivity (snd kv))%Z.

Definition cleanupInactiveRooms (now : Z) (st : State) : State * list action :=
  (set_activeRooms (filter (fun kv => negb (inactive now kv)) (activeRooms st))
     st,
   map (fun _ => Log "Cleaning up inactive room")
     (filter (inactive now) (activeRooms st))).

(* ------------------------------------------------------------------ *)
(** ** Events and the server step *)

(** The handlers that destructure a payload. *)
Inductive handler :=
| OnJoinRoom | OnWebrtcSignal | OnChatMessage | OnPrivateChatInvite.

(** The [catch] block of a handler whose body throws at its first
    statement, [const { ... } = data], before it has read or written
    anything. *)
Definition on_error (s : sid) (h : handler) (st : State)
  : State * list action :=
  match h with
  | OnJoinRoom =>
      (st, [Log "Error in join-room";
            emit_self s (JoinError "Failed to join room")])
  | OnWebrtcSignal => (st, [Log "Error in webrtc-signal"])
  | OnChatMessage => (st, [Log "Error in chat-message"])
  | OnPrivateChatInvite => (st, [Log "Error in private-chat-invite"])
  end.

Inductive event :=
| Connection (s : sid) (ip : string) (now : Z)
| JoinRoom (s : sid) (roomCode nickname : option string) (now : Z)
| WebrtcSignal (s : sid) (targetSocketId signal type : option string)
| ChatMessage (s : sid) (message roomCode : option string) (now : Z)
              (id : string)
| PrivateChatInvite (s : sid) (fromUser toUser roomCode : option string)
| LeaveRoom (s : sid) (now : Z)
| Disconnect (s : sid) (now : Z)
| CleanupTick (now : Z)
| NoPayload (s : sid) (h : handler).

(** Run the handler [h] of socket [s]; a socket without registered
    handlers (never accepted, or gone) reacts to nothing. *)
Definition on_socket (s : sid) (st : State)
  (h : Socket -> State * list action) : State * list action :=
  match JMap.get s (sockets st) with
  | Some c => h c
  | None => (st, [])
  end.

Definition step (st : State) (e : event) : State * list action :=
  match e with
  | Connection s ip now => on_connection s ip now st
  | JoinRoom s rc nk now => on_socket s st (fun _ => join_room s rc nk now st)
  | WebrtcSignal s t sg ty =>
      on_socket s st (fun c => webrtc_signal s c t sg ty st)
  | ChatMessage s m rc now id =>
      on_socket s st (fun c => chat_message s c m rc now id st)
  | PrivateChatInvite s f t rc =>
      on_socket s st (fun _ => private_chat_invite f t rc st)
  | LeaveRoom s now => on_socket s st (fun c => handleUserLeave s c now st)
  | Disconnect s now => on_socket s st (fun c => on_disconnect s c now st)
  | CleanupTick now => cleanupInactiveRooms now st
  | NoPayload s h => on_socket s st (fun _ => on_error s h st)
  end.

Definition next (st : State) (e : event) : State := fst (step st e).

Definition output (st : State) (e : event) : list action := snd (step st e).

Definition run (st : State) (tr : list event) : State := fold_left next tr st.

(** Socket ids are unique: the transport never hands out the id of a
    socket that is still connected. *)
Definition admissible (st : State) (e : event) : bool :=
  match e with
  | Connection s _ _ => negb (JMap.has s (sockets st))
  | _ => true
  end.

Inductive reachable : State -> Prop :=
| reachable_init : reachable init
| reachable_step st e :
    reachable st -> admissible st e = true -> reachable (next st e).

Fixpoint admissible_trace (st : State) (tr : list event) : bool :=
  match tr with
  | [] => true
  | e :: tr' => admissible st e && admissible_trace (next st e) tr'
  end.

(** The id and the originating address of every live socket. *)
Definition ips (st : State) : list (sid * string) :=
  map (fun kv => (fst kv, clientIp (snd kv))) (sockets st).

Definition open_in (ip : string) (l : list (sid * string)) : nat :=
  length (filter (fun p => String.eqb (snd p) ip) l).

(** The number of open connections that came from [ip]. *)
Definition open_from (ip : string) (st : State) : nat := open_in ip (ips st).

(** [userConnections.get(ip) || 0] *)
Definition counter (ip : string) (st : State) : nat :=
  match JMap.get ip (userConnections st) with
  | Some n => n
  | None => 0
  end.

(** Whether the connection callback turns the socket away: it is sent
    the [error] event (and disconnected). *)
Definition rejected (st : State) (s : sid) (ip : string) (now : Z) : bool :=
  existsb (fun a => match a with Emit _ _ (ErrorOut _) => true | _ => false end)
    (output st (Connection s ip now)).

(** The rate-limit table agrees with the open connections. *)
Definition counters_ok (st : State) : Prop :=
  NoDup (map fst (ips st)) /\ forall ip, counter ip st = open_from ip st.

(** Within a room no two connections hold the same nickname. *)
Definition unique_nicknames (m : JMap.t Member) : Prop :=
  forall s1 m1 s2 m2,
    In (s1, m1) m -> In (s2, m2) m ->
    m_nickname m1 = m_nickname m2 -> s1 = s2.

Definition all_unique (m : JMap.t Room) : Prop :=
  forall c r, In (c, r) m -> unique_nicknames (users r).

Definition rooms_unique (st : State) : Prop := all_unique (activeRooms st).

(** The membership of a room as (connection, nickname) pairs. *)
Definition member_pairs (r : Room) : list (sid * string) :=
  map (fun kv => (fst kv, m_nickname (snd kv))) (users r).

(** The emissions among the actions of a handler. *)
Definition emissions (out : list action) : list action :=
  filter (fun a => match a with Emit _ _ _ => true | Log _ => false end) out.

(** What an emission is, for the ordering of the presence events: the
    acknowledgment to the joining socket, the roster sent to the whole
    group, the delta sent to everybody else, a failure notice. *)
Inductive kind := KAck | KRoster | KDelta | KFailure | KOther.

Definition kind_of (a : action) : list kind :=
  match a with
  | Emit (ToSelf _) _ (RoomJoined _ _ _) => [KAck]
  | Emit (ToAll _) _ (UsersUpdated _ _) => [KRoster]
  | Emit (ToOthers _ _) _ (UserJoined _ _) => [KDelta]
  | Emit (ToOthers _ _) _ (UserLeft _ _) => [KDelta]
  | Emit _ _ (JoinError _) => [KFailure]
  | Emit _ _ _ => [KOther]
  | Log _ => []
  end.

Definition emitted_kinds (out : list action) : list kind :=
  flat_map kind_of out.

(** The order of the presence events the way the specification words it:
    a join emits ack, delta, roster; a leave emits delta, roster. *)
Definition order_as_specified (st : State) (e : event) : Prop :=
  activeRooms (next st e) <> activeRooms st ->
  match e with
  | JoinRoom _ _ _ _ => emitted_kinds (output st e) = [KAck; KDelta; KRoster]
  | LeaveRoom _ _ | Disconnect _ _ =>
      emitted_kinds (output st e) = [KDelta; KRoster]
  | _ => True
  end.

(** The order the handlers emit them in. *)
Definition order_as_emitted (st : State) (e : event) : Prop :=
  activeRooms (next st e) <> activeRooms st ->
  match e with
  | JoinRoom _ _ _ _ => emitted_kinds (output st e) = [KAck; KRoster; KDelta]
  | LeaveRoom _ _ | Disconnect _ _ =>
      emitted_kinds (output st e) = [KDelta; KRoster]
  | _ => True
  end.

(* ------------------------------------------------------------------ *)
(** ** Scenarios *)

(** Two connections from one address; the first joins LOBBY as ALICE. *)
Definition alice_in_lobby : State :=
  run init [Connection "a1" "10.0.0.1" 1%Z;
            Connection "b2" "10.0.0.1" 2%Z;
            JoinRoom "a1" (Some "LOBBY") (Some "ALICE") 3%Z].

(** ... and the second joins it as BOB. *)
Definition alice_and_bob : State :=
  next alice_in_lobby (JoinRoom "b2" (Some " lobby ") (Some "bob") 4%Z).

(** Ten connections from one address. *)
Definition ten_connections : list event :=
  map (fun n => Connection (String (ascii_of_nat (97 + n)) "") "10.0.0.1"
                  (Z.of_nat n))
      (seq 0 10).

Definition full_house : State := run init ten_connections.

(** BOB has joined LOBBY; ALICE then joins OTHER without leaving. *)
Definition alice_moved : State :=
  next alice_and_bob (JoinRoom "a1" (Some "other") (Some "alice") 5%Z).

(** One connection that has not joined anything. *)
Definition newcomer : State := run init [Connection "a1" "10.0.0.1" 1%Z].

(* ------------------------------------------------------------------ *)
(** ** The properties the specification asks for *)

(** Membership and sessions coincide: a room lists exactly the
    connections whose session points at it. *)
Definition membership_consistent (st : State) : Prop :=
  forall c room,
    JMap.get c (activeRooms st) = Some room ->
    forall s,
      JMap.has s (users room) = true <->
      exists ud, session st s = Some ud /\ roomCode ud = Some c.

(** A join that is refused for its nickname mutates nothing. *)
Definition collision_mutates_nothing (st : State) (e : event) : Prop :=
  (exists a to,
      In (Emit a to (JoinError "Nickname already taken in this room"))
         (output st e)) ->
  next st e = st.

(** [leave-room] on a connection that is in no room is a no-op. *)
Definition idle_leave_is_noop (st : State) (s : sid) (now : Z) : Prop :=
  forall c,
    JMap.get s (sockets st) = Some c -> roomCode (userData c) = None ->
    next st (LeaveRoom s now) = st.

(** A relayed chat message reaches neither its sender nor a connection
    whose room field is not the target room. *)
Definition chat_stays_in_room (st : State) (e : event) : Prop :=
  match e with
  | ChatMessage s _ (Some rc) _ _ =>
      forall a to p r c,
        In (Emit a to p) (output st e) -> In r to ->
        JMap.get r (sockets st) = Some c ->
        r <> s /\ roomCode (userData c) = Some rc
  | _ => True
  end.

(* ------------------------------------------------------------------ *)
(** ** Invariants of the transport groups and of the registry *)

(** A string that is the normal form of some room code or nickname. *)
Definition is_clean (g : string) : Prop := exists x, g = clean x.

(** A socket is in the group named by its own id and otherwise only in
    groups named by normalised room codes; the room code stored for it is
    normalised.  (A socket whose id is itself a normalised room code may
    have left its own group through [socket.leave].) *)
Definition socket_ok (s : sid) (c : Socket) : Prop :=
  (forall g, In g (rooms c) -> g = s \/ is_clean g)
  /\ (In s (rooms c) \/ is_clean s)
  /\ (forall rc, roomCode (userData c) = Some rc -> is_clean rc).

(** Every live socket, with its closure, satisfies [P]. *)
Definition sockets_sat (P : sid -> Socket -> Prop) (st : State) : Prop :=
  forall s c, In (s, c) (sockets st) -> P s c.

Definition groups_ok (st : State) : Prop := sockets_sat socket_ok st.

(** Every entry of [userSockets] refers to the [userData] of the live
    socket it is stored under. *)
Definition registry_ok (st : State) : Prop :=
  forall k r, In (k, r) (userSockets st) ->
              r = k /\ JMap.has k (sockets st) = true.

(* ------------------------------------------------------------------ *)
(** ** The debug and health endpoints *)

(** [GET /]: the two counts of the status report that are read from the
    state ([service], [version] and [status] are constants, [uptime] is
    the process clock). *)
Record Health := mkHealth {
  h_activeRooms : nat;
  h_connectedUsers : nat
}.

Definition health (st : State) : Health :=
  mkHealth (JMap.size (activeRooms st)) (JMap.size (userSockets st)).

(** One entry of [GET /api/rooms]. *)
Record RoomInfo := mkRoomInfo {
  i_code : string;
  i_userCount : nat;
  i_created : Z;
  i_lastActivity : Z
}.

(** [GET /api/rooms]: [rooms] and [totalRooms]. *)
Definition api_rooms (st : State) : list RoomInfo * nat :=
  (map (fun kv => mkRoomInfo (fst kv) (JMap.size (users (snd kv)))
                    (created (snd kv)) (lastActivity (snd kv)))
     (activeRooms st),
   JMap.size (activeRooms st)).

(* ------------------------------------------------------------------ *)
(** ** What the handlers write into the directory *)

(** The room object after [room.users.set(socket.id, ...)] and the bump
    of [lastActivity] in the join handler. *)
Definition joined_room (s : sid) (nick : string) (now : Z) (room : Room)
  : Room :=
  mkRoom (code room) (JMap.set s (mkMember s nick now) (users room))
    (created room) now.

(** The room object after [room.users.delete(socket.id)] and the bump of
    [lastActivity] in [handleUserLeave]. *)
Definition left_room (s : sid) (now : Z) (room : Room) : Room :=
  mkRoom (code room) (JMap.delete s (users room)) (created room) now.

(** The room a join operates on: the one stored under the code, or the
    one it creates. *)
Definition room_or_fresh (c : string) (now : Z) (st : State) : Room :=
  match JMap.get c (activeRooms st) with
  | Some room => room
  | None => fresh_room c now
  end.

(** A directory entry is well formed: the room carries the code it is
    stored under, it has at least one member, every member is stored
    under its own socket id, and no id occurs twice. *)
Definition room_wf (c : string) (r : Room) : Prop :=
  code r = c
  /\ users r <> []
  /\ NoDup (JMap.keys (users r))
  /\ forall k m, In (k, m) (users r) -> m_socketId m = k.

Definition dir_wf (m : JMap.t Room) : Prop :=
  NoDup (JMap.keys m) /\ forall c r, In (c, r) m -> room_wf c r.

Definition directory_wf (st : State) : Prop := dir_wf (activeRooms st).

(** The connection an event belongs to. *)
Definition event_socket (e : event) : option sid :=
  match e with
  | Connection s _ _ | JoinRoom s _ _ _ | WebrtcSignal s _ _ _
  | ChatMessage s _ _ _ _ | PrivateChatInvite s _ _ _
  | LeaveRoom s _ | Disconnect s _ | NoPayload s _ => Some s
  | CleanupTick _ => None
  end.

(** The directory after [handleUserLeave] has taken [s] out of [room],
    stored under [rc]. *)
Definition directory_without (s : sid) (rc : string) (now : Z) (room : Room)
  (dir : JMap.t Room) : JMap.t Room :=
  if JMap.size (users (left_room s now room)) =? 0
  then JMap.delete rc dir
  else JMap.set rc (left_room s now room) dir.

(** Scenario: a late sweep of the reaper over LOBBY with its two
    members. *)
Definition lobby_evicted : State :=
  next alice_and_bob (CleanupTick 2000000%Z).

(** A text in normal form that comes from at most [n] characters. *)
Definition normalised (n : nat) (t : string) : Prop :=
  exists x, t = clean x /\ String.length x <= n.

(** The identity a closure stores: its own socket id, a normalised room
    code, a normalised nickname. *)
Definition identity_ok (s : sid) (c : Socket) : Prop :=
  socketId (userData c) = s
  /\ (forall rc, roomCode (userData c) = Some rc -> normalised 50 rc)
  /\ (forall nk, nickname (userData c) = Some nk -> normalised 16 nk).

(** A directory entry is keyed by a normalised code and lists normalised
    nicknames. *)
Definition room_normalised (c : string) (r : Room) : Prop :=
  normalised 50 c
  /\ forall k m, In (k, m) (users r) -> normalised 16 (m_nickname m).

Definition dir_sat (Q : string -> Room -> Prop) (st : State) : Prop :=
  forall c r, In (c, r) (activeRooms st) -> Q c r.

(* ------------------------------------------------------------------ *)
(** ** A socket id that is also a room code *)



(* ------------------------------------------------------------------ *)
(** * Facts about [JMap] *)

Unset Implicit Arguments.

Module JMapFacts.
Section Facts.
Variable V : Type.
Implicit Types (m : JMap.t V) (k : string) (v : V).

Lemma get_set_same k v m : JMap.get k (JMap.set k v m) = Some v.
Proof.
  induction m as [|[k' v'] m IH]; simpl.
  - now rewrite String.eqb_refl.
  - destruct (String.eqb k k') eqn:E; simpl.
    + now rewrite String.eqb_refl.
    + now rewrite E.
Qed.

Lemma get_set_other k k' v m :
  k <> k' -> JMap.get k (JMap.set k' v m) = JMap.get k m.
Proof.
  intros Hne. apply String.eqb_neq in Hne.
  induction m as [|[k2 v2] m IH]; simpl.
  - now rewrite Hne.
  - destruct (String.eqb k' k2) eqn:E; simpl.
    + apply String.eqb_eq in E; subst k2. now rewrite Hne.
    + now rewrite IH.
Qed.

Lemma get_delete_same k m : JMap.get k (JMap.delete k m) = None.
Proof.
  induction m as [|[k' v'] m IH]; simpl; trivial.
  destruct (String.eqb k k') eqn:E; simpl; trivial.
  now rewrite E.
Qed.

Lemma get_delete_other k k' m :
  k <> k' -> JMap.get k (JMap.delete k' m) = JMap.get k m.
Proof.
  intros Hne. induction m as [|[k2 v2] m IH]; simpl; trivial.
  destruct (String.eqb k' k2) eqn:E; simpl.
  - apply String.eqb_eq in E; subst k2.
    apply String.eqb_neq in Hne. now rewrite Hne.
  - now rewrite IH.
Qed.

Lemma get_In k v m : JMap.get k m = Some v -> In (k, v) m.
Proof.
  induction m as [|[k' v'] m IH]; simpl; [discriminate|].
  destruct (String.eqb k k') eqn:E.
  - apply String.eqb_eq in E; subst k'. intros [= ->]. now left.
  - intros H. right. now apply IH.
Qed.

Lemma get_None_not_In k m :
  JMap.get k m = None -> forall v, ~ In (k, v) m.
Proof.
  induction m as [|[k' v'] m IH]; simpl; [tauto|].
  destruct (String.eqb k k') eqn:E; [discriminate|].
  intros H v [[= -> _]|Hin].
  - now rewrite String.eqb_refl in E.
  - exact (IH H v Hin).
Qed.


Lemma has_true k m :
  JMap.has k m = true <-> exists v, JMap.get k m = Some v.
Proof.
  unfold JMap.has. destruct (JMap.get k m); split; eauto.
  - discriminate.
  - intros [? [=]].
Qed.

Lemma has_false k m : JMap.has k m = false <-> JMap.get k m = None.
Proof.
  unfold JMap.has. destruct (JMap.get k m); split; congruence.
Qed.

Lemma In_set_inv k v m x :
  In x (JMap.set k v m) -> x = (k, v) \/ In x m.
Proof.
  induction m as [|[k' v'] m IH]; simpl.
  - intros [<-|[]]. now left.
  - destruct (String.eqb k k'); simpl.
    + intros [<-|H]; auto.
    + intros [<-|H]; auto. destruct (IH H); auto.
Qed.

Lemma In_delete_inv k m x : In x (JMap.delete k m) -> In x m.
Proof. unfold JMap.delete. intros H. now apply filter_In in H. Qed.

Lemma set_present k v v0 m :
  JMap.get k m = Some v0 -> JMap.keys (JMap.set k v m) = JMap.keys m.
Proof.
  induction m as [|[k' v'] m IH]; simpl; [discriminate|].
  destruct (String.eqb k k') eqn:E; simpl.
  - apply String.eqb_eq in E. now subst.
  - intros H. now rewrite IH.
Qed.

Lemma set_absent k v m :
  JMap.get k m = None -> JMap.set k v m = m ++ [(k, v)].
Proof.
  induction m as [|[k' v'] m IH]; simpl; trivial.
  destruct (String.eqb k k'); [discriminate|].
  intros H. now rewrite IH.
Qed.

Lemma get_None_keys k m : JMap.get k m = None -> ~ In k (JMap.keys m).
Proof.
  intros H Hin. apply in_map_iff in Hin. destruct Hin as [[k' v] [Hk Hin]].
  simpl in Hk; subst k'. eapply get_None_not_In; eauto.
Qed.

Lemma NoDup_keys_set k v m :
  NoDup (JMap.keys m) -> NoDup (JMap.keys (JMap.set k v m)).
Proof.
  intros Hnd. destruct (JMap.get k m) eqn:E.
  - erewrite set_present; eauto.
  - rewrite set_absent by assumption. unfold JMap.keys. rewrite map_app. simpl.
    apply NoDup_app; [exact Hnd| repeat constructor; auto |].
    intros x Hx [<-|[]]. eapply get_None_keys; eauto.
Qed.

Lemma keys_delete_incl k m x :
  In x (JMap.keys (JMap.delete k m)) -> In x (JMap.keys m) /\ x <> k.
Proof.
  unfold JMap.keys, JMap.delete. intros H.
  apply in_map_iff in H. destruct H as [[k' v] [Hk Hin]].
  simpl in Hk; subst k'. apply filter_In in Hin. destruct Hin as [Hin Hb].
  simpl in Hb. split.
  - apply in_map_iff. now exists (x, v).
  - intros ->. now rewrite String.eqb_refl in Hb.
Qed.

Lemma NoDup_keys_delete k m :
  NoDup (JMap.keys m) -> NoDup (JMap.keys (JMap.delete k m)).
Proof.
  unfold JMap.keys, JMap.delete.
  induction m as [|[k' v'] m IH]; simpl; intros Hnd; [constructor|].
  inversion Hnd as [|? ? Hni Hnd']; subst.
  destruct (String.eqb k k'); simpl; [now apply IH|].
  constructor; [|now apply IH].
  intros Hin. apply Hni. eapply keys_delete_incl; eauto.
Qed.

(** Overwriting an entry is invisible to a view [g] of the entries
    that does not tell the old value from the new one. *)
Lemma map_set_present (A : Type) (g : string * V -> A) k v v0 m :
  JMap.get k m = Some v0 -> g (k, v) = g (k, v0) ->
  map g (JMap.set k v m) = map g m.
Proof.
  intros Hget Hg.
  induction m as [|[k' v'] m IH]; simpl in *; [discriminate|].
  destruct (String.eqb k k') eqn:E; simpl.
  - apply String.eqb_eq in E; subst k'. injection Hget as ->.
    now rewrite Hg.
  - now rewrite IH.
Qed.

Lemma size_set_present k v v0 m :
  JMap.get k m = Some v0 -> JMap.size (JMap.set k v m) = JMap.size m.
Proof.
  intros H. unfold JMap.size.
  rewrite <- (length_map fst (JMap.set k v m)), <- (length_map fst m).
  fold (JMap.keys (JMap.set k v m)). fold (JMap.keys m).
  now rewrite (@set_present k v v0 m H).
Qed.

Lemma has_keys k m : JMap.has k m = existsb (String.eqb k) (JMap.keys m).
Proof.
  unfold JMap.has. induction m as [|[k' v'] m IH]; simpl; trivial.
  destruct (String.eqb k k'); simpl; trivial.
Qed.

Lemma has_set k k' v m :
  JMap.has k (JMap.set k' v m) = String.eqb k k' || JMap.has k m.
Proof.
  unfold JMap.has. destruct (String.eqb k k') eqn:E; simpl.
  - apply String.eqb_eq in E; subst k'. now rewrite get_set_same.
  - apply String.eqb_neq in E. now rewrite get_set_other.
Qed.

Lemma has_delete_other k k' m :
  k <> k' -> JMap.has k (JMap.delete k' m) = JMap.has k m.
Proof. intros H. unfold JMap.has. now rewrite get_delete_other. Qed.

Lemma In_delete k m k' v :
  In (k', v) (JMap.delete k m) -> k' <> k /\ In (k', v) m.
Proof.
  unfold JMap.delete. intros H. apply filter_In in H. destruct H as [Hin Hb].
  simpl in Hb. split; trivial. intros ->. now rewrite String.eqb_refl in Hb.
Qed.

Lemma delete_absent k m : JMap.get k m = None -> JMap.delete k m = m.
Proof.
  induction m as [|[k' v'] m IH]; simpl; trivial.
  destruct (String.eqb k k'); [discriminate|].
  simpl. intros H. now rewrite IH.
Qed.
End Facts.
End JMapFacts.

(* ------------------------------------------------------------------ *)
(** * Frame lemmas for the state updates *)

Lemma activeRooms_upd_socket s f st :
  activeRooms (upd_socket s f st) = activeRooms st.
Proof. unfold upd_socket. now destruct (JMap.get s (sockets st)). Qed.

Lemma userSockets_upd_socket s f st :
  userSockets (upd_socket s f st) = userSockets st.
Proof. unfold upd_socket. now destruct (JMap.get s (sockets st)). Qed.

Lemma userConnections_upd_socket s f st :
  userConnections (upd_socket s f st) = userConnections st.
Proof. unfold upd_socket. now destruct (JMap.get s (sockets st)). Qed.

Lemma get_upd_socket_same s f st :
  JMap.get s (sockets (upd_socket s f st))
  = option_map f (JMap.get s (sockets st)).
Proof.
  unfold upd_socket. destruct (JMap.get s (sockets st)) eqn:E; simpl.
  - apply JMapFacts.get_set_same.
  - now rewrite E.
Qed.

Lemma get_upd_socket_other s s' f st :
  s' <> s ->
  JMap.get s' (sockets (upd_socket s f st)) = JMap.get s' (sockets st).
Proof.
  intros Hne. unfold upd_socket.
  destruct (JMap.get s (sockets st)); simpl; trivial.
  now apply JMapFacts.get_set_other.
Qed.

Create Rewrite HintDb frame.

#[local] Hint Rewrite activeRooms_upd_socket userSockets_upd_socket
  userConnections_upd_socket : frame.

(* ------------------------------------------------------------------ *)
(** * Admission: a rejected connection *)

(** C10.  A connection attempt turned away by the admission guard leaves
    the whole server state as it was: the per-address counter is not
    incremented, no session is stored, and since no handler was
    registered for the socket its later disconnect is not handled, so the
    counter is not decremented either. *)
Theorem rejection_changes_nothing st s ip now :
  MAX_CONNECTIONS_PER_IP <= counter ip st ->
  admissible st (Connection s ip now) = true ->
  let st' := next st (Connection s ip now) in
  st' = st
  /\ output st (Connection s ip now)
     = [Log "Connection rejected - rate limit";
        emit_self s (ErrorOut "Too many connections from this IP")]
  /\ counter ip st' = counter ip st
  /\ session st' s = session st s
  /\ JMap.get s (sockets st') = None
  /\ forall now', step st' (Disconnect s now') = (st', []).
Proof.
  intros Hmax Hadm. simpl in Hadm.
  apply negb_true_iff, JMapFacts.has_false in Hadm.
  assert (Hstep : step st (Connection s ip now)
                  = (st, [Log "Connection rejected - rate limit";
                          emit_self s
                            (ErrorOut "Too many connections from this IP")])).
  { simpl. unfold on_connection. fold (counter ip st).
    apply Nat.leb_le in Hmax. now rewrite Hmax. }
  unfold next, output. rewrite Hstep. simpl.
  repeat split; trivial.
  intros now'. unfold on_socket. now rewrite Hadm.
Qed.

(* ------------------------------------------------------------------ *)
(** * chat-message: the room code is compared as sent *)

(** C9.  The [roomCode] of a chat-message is compared verbatim with the
    room code stored for the sender.  Whenever the two differ, and so in
    particular when the supplied code is the stored code in another
    letter case or with white space around it, nothing is emitted and
    the state does not change. *)
Theorem chat_room_code_verbatim st s c stored message rc now id :
  JMap.get s (sockets st) = Some c ->
  roomCode (userData c) = Some stored ->
  rc <> Some stored ->
  step st (ChatMessage s message rc now id) = (st, []).
Proof.
  intros Hc Hstored Hne. simpl. unfold on_socket. rewrite Hc.
  unfold chat_message. rewrite Hstored.
  destruct (opt_eqb (Some stored) rc) eqn:E.
  - exfalso. apply Hne. destruct rc as [r|]; simpl in E; [|discriminate].
    apply String.eqb_eq in E. now subst.
  - simpl. now rewrite orb_true_r.
Qed.

(** C10 at a concrete state: an eleventh connection from an address that
    holds ten. *)
Lemma rejection_changes_nothing_witness :
  let e := Connection "s11" "10.0.0.1" 11%Z in
  next full_house e = full_house
  /\ forall now', step (next full_house e) (Disconnect "s11" now')
                  = (next full_house e, []).
Proof.
  destruct (rejection_changes_nothing full_house "s11" "10.0.0.1" 11%Z)
    as (H1 & _ & _ & _ & _ & H2).
  - vm_compute. apply le_n.
  - reflexivity.
  - split; assumption.
Defined.

(** C9 at a concrete state: BOB, who joined as [" lobby "] and is stored
    under LOBBY, sends a message for [lobby]. *)
Lemma chat_room_code_verbatim_witness :
  clean "lobby" = "LOBBY"
  /\ step alice_and_bob
       (ChatMessage "b2" (Some "hello") (Some "lobby") 5%Z "m1")
     = (alice_and_bob, []).
Proof.
  split; [reflexivity|].
  eapply (chat_room_code_verbatim alice_and_bob "b2" _ "LOBBY").
  - reflexivity.
  - reflexivity.
  - discriminate.
Defined.

(* ------------------------------------------------------------------ *)
(** * Order of the presence events *)

Lemma nickname_taken_fresh s n c now :
  nickname_taken s n (fresh_room c now) = false.
Proof. reflexivity. Qed.

(** A join changes the room directory only when it goes through, and
    then its emissions are the acknowledgment, the roster and the delta,
    in this order. *)
Lemma join_room_kinds s rc nk now st :
  activeRooms (fst (join_room s rc nk now st)) <> activeRooms st ->
  emitted_kinds (snd (join_room s rc nk now st)) = [KAck; KRoster; KDelta].
Proof.
  unfold join_room.
  destruct rc as [rc|]; [|simpl; congruence].
  destruct nk as [nk|]; [|simpl; congruence].
  destruct (invalid_request rc nk); [simpl; congruence|].
  set (st1 := upd_socket s _ st).
  assert (H1 : activeRooms st1 = activeRooms st)
    by (unfold st1; now autorewrite with frame).
  destruct (JMap.has (clean rc) (activeRooms st1)) eqn:Hhas.
  - destruct (JMap.get (clean rc) (activeRooms st1)) as [room|];
      [|simpl; congruence].
    destruct (nickname_taken s (clean nk) room); [simpl; congruence|].
    intros _. reflexivity.
  - cbn [activeRooms set_activeRooms].
    rewrite JMapFacts.get_set_same, nickname_taken_fresh.
    intros _. reflexivity.
Qed.

(** Closes a goal whose premise says that a handler changed a component
    it did not touch. *)
Ltac frame_simpl := repeat (progress (simpl; autorewrite with frame)).

Ltac unchanged :=
  frame_simpl; let H := fresh in intros H; exfalso; apply H; reflexivity.

Lemma handleUserLeave_kinds s c now st :
  activeRooms (fst (handleUserLeave s c now st)) <> activeRooms st ->
  emitted_kinds (snd (handleUserLeave s c now st)) = [KDelta; KRoster].
Proof.
  unfold handleUserLeave.
  destruct (roomCode (userData c)) as [rc|];
    [|unchanged].
  destruct (String.eqb rc "");
    [unchanged|].
  destruct (JMap.get rc (activeRooms st)) as [room|];
    [|unchanged].
  cbv zeta.
  destruct (JMap.size _ =? 0); intros _; reflexivity.
Qed.

(** C6, as amended.  Whenever a join or a leave changes the room
    directory, all its events are emitted by the handler itself, in a
    fixed order: a join emits the acknowledgment to the joining socket,
    then the roster to the whole group, then the delta to everybody else;
    a leave (explicit or by disconnect) emits the delta to everybody
    else, then the roster to the whole group, and no acknowledgment. *)
Theorem presence_events_order st e : order_as_emitted st e.
Proof.
  unfold order_as_emitted, next, output.
  destruct e; trivial; simpl; unfold on_socket;
    destruct (JMap.get s (sockets st)) as [c|] eqn:Hc;
    try (simpl; congruence).
  - apply join_room_kinds.
  - apply handleUserLeave_kinds.
  - unfold on_disconnect.
    set (st0 := set_sockets _ st).
    pose proof (@handleUserLeave_kinds s (with_rooms [] c) now st0) as H.
    destruct (handleUserLeave s (with_rooms [] c) now st0) as [st1 out].
    simpl in H. cbn [fst snd]. intros Hch.
    unfold emitted_kinds in *. rewrite flat_map_app. simpl.
    rewrite app_nil_r. apply H.
    intros Heq. apply Hch. exact Heq.
Qed.

(** C6, the counterexample: BOB joining ALICE in LOBBY changes the
    membership, and the roster goes out before the delta. *)
Lemma presence_events_order_counterexample :
  ~ order_as_specified alice_in_lobby
      (JoinRoom "b2" (Some " lobby ") (Some "bob") 4%Z).
Proof.
  unfold order_as_specified. intros H.
  assert (Hch : activeRooms
                  (next alice_in_lobby
                     (JoinRoom "b2" (Some " lobby ") (Some "bob") 4%Z))
                <> activeRooms alice_in_lobby)
    by (vm_compute; discriminate).
  specialize (H Hch). vm_compute in H. discriminate H.
Qed.

(** C6 at a concrete state. *)
Lemma presence_events_order_witness :
  emitted_kinds
    (output alice_in_lobby (JoinRoom "b2" (Some " lobby ") (Some "bob") 4%Z))
  = [KAck; KRoster; KDelta]
  /\ emitted_kinds (output alice_and_bob (LeaveRoom "b2" 5%Z))
     = [KDelta; KRoster].
Proof.
  split.
  - apply (presence_events_order alice_in_lobby
             (JoinRoom "b2" (Some " lobby ") (Some "bob") 4%Z)).
    vm_compute. discriminate.
  - apply (presence_events_order alice_and_bob (LeaveRoom "b2" 5%Z)).
    vm_compute. discriminate.
Defined.

(* ------------------------------------------------------------------ *)
(** * What the handlers leave alone *)

Lemma ips_upd_socket s f st :
  (forall c, clientIp (f c) = clientIp c) ->
  ips (upd_socket s f st) = ips st.
Proof.
  intros Hf. unfold upd_socket.
  destruct (JMap.get s (sockets st)) as [c|] eqn:E; trivial.
  unfold ips. simpl. apply JMapFacts.map_set_present with (v0 := c); trivial.
  simpl. now rewrite Hf.
Qed.

Lemma clientIp_set_identity n r c : clientIp (set_identity n r c) = clientIp c.
Proof. reflexivity. Qed.

Lemma clientIp_clear_room c : clientIp (clear_room c) = clientIp c.
Proof. reflexivity. Qed.

Lemma clientIp_socket_join g c : clientIp (socket_join g c) = clientIp c.
Proof. unfold socket_join. now destruct (existsb _ _). Qed.

Lemma clientIp_socket_leave g c : clientIp (socket_leave g c) = clientIp c.
Proof. reflexivity. Qed.

Lemma ips_set_activeRooms r st : ips (set_activeRooms r st) = ips st.
Proof. reflexivity. Qed.

Lemma ips_set_userSockets u st : ips (set_userSockets u st) = ips st.
Proof. reflexivity. Qed.

Lemma ips_set_userConnections u st : ips (set_userConnections u st) = ips st.
Proof. reflexivity. Qed.

#[local] Hint Rewrite ips_set_activeRooms ips_set_userSockets
  ips_set_userConnections : frame.

#[local] Hint Rewrite ips_upd_socket
  using (intros; first [ apply clientIp_set_identity
                       | apply clientIp_clear_room
                       | apply clientIp_socket_join
                       | apply clientIp_socket_leave ]) : frame.

(** Case analysis on every test a handler makes. *)
Ltac break_tests :=
  repeat match goal with
         | |- context [match ?x with _ => _ end] =>
             lazymatch x with
             | context [match _ with _ => _ end] => fail
             | _ => destruct x eqn:?
             end
         end.

Ltac frame_solve := break_tests; frame_simpl; auto.

Lemma join_room_frame s rc nk now st :
  let st' := fst (join_room s rc nk now st) in
  ips st' = ips st /\ userConnections st' = userConnections st
  /\ userSockets st' = userSockets st.
Proof. unfold join_room. frame_solve. Qed.

Lemma handleUserLeave_frame s c now st :
  let st' := fst (handleUserLeave s c now st) in
  ips st' = ips st /\ userConnections st' = userConnections st.
Proof. unfold handleUserLeave. frame_solve. Qed.

Lemma handleUserLeave_userSockets s c now st :
  userSockets (fst (handleUserLeave s c now st))
  = JMap.delete s (userSockets st).
Proof. unfold handleUserLeave. frame_solve. Qed.

Lemma chat_message_frame s c m rc now id st :
  let st' := fst (chat_message s c m rc now id st) in
  sockets st' = sockets st /\ userConnections st' = userConnections st
  /\ userSockets st' = userSockets st.
Proof. unfold chat_message. frame_solve. Qed.

Lemma webrtc_signal_frame s c t sg ty st :
  fst (webrtc_signal s c t sg ty st) = st.
Proof. unfold webrtc_signal. frame_solve. Qed.

Lemma private_chat_invite_frame f t rc st :
  fst (private_chat_invite f t rc st) = st.
Proof. unfold private_chat_invite. frame_solve. Qed.

Lemma on_error_frame s h st : fst (on_error s h st) = st.
Proof. now destruct h. Qed.

(** Every event but a connection or a disconnect leaves the sockets'
    addresses and the rate-limit table alone. *)
Lemma step_frame st e :
  match e with
  | Connection _ _ _ | Disconnect _ _ => True
  | _ => ips (next st e) = ips st
         /\ userConnections (next st e) = userConnections st
  end.
Proof.
  unfold next.
  destruct e as [s ip now|s rc nk now|s t sg ty|s m rc now id|s f t rc
                |s now|s now|now|s h];
    trivial; simpl; unfold on_socket;
    try (destruct (JMap.get s (sockets st)) as [c|]; [|now split]).
  - destruct (join_room_frame s rc nk now st) as (H1 & H2 & _). now split.
  - now rewrite webrtc_signal_frame.
  - unfold ips. destruct (chat_message_frame s c m rc now id st)
      as (-> & -> & _). now split.
  - now rewrite private_chat_invite_frame.
  - apply handleUserLeave_frame.
  - now split.
  - rewrite on_error_frame. now split.
Qed.

(* ------------------------------------------------------------------ *)
(** * Admission: the counter is the number of open connections *)

Lemma open_in_app ip l l' : open_in ip (l ++ l') = open_in ip l + open_in ip l'.
Proof. unfold open_in. now rewrite filter_app, length_app. Qed.

Lemma open_in_remove l s ip ip' :
  NoDup (map fst l) -> In (s, ip) l ->
  open_in ip' (filter (fun p => negb (String.eqb s (fst p))) l)
  + (if String.eqb ip ip' then 1 else 0)
  = open_in ip' l.
Proof.
  unfold open_in.
  induction l as [|[k a] l IH]; simpl; intros Hnd Hin; [contradiction|].
  inversion Hnd as [|? ? Hni Hnd']; subst.
  destruct Hin as [[= -> ->]|Hin].
  - rewrite String.eqb_refl. simpl.
    assert (Hf : filter (fun p => negb (String.eqb s (fst p))) l = l).
    { apply forallb_filter_id. apply forallb_forall. intros [k a] Hk. simpl.
      apply negb_true_iff, String.eqb_neq. intros ->.
      apply Hni. apply in_map_iff. now exists (k, a). }
    rewrite Hf. destruct (String.eqb ip ip'); simpl; lia.
  - destruct (String.eqb s k) eqn:E; simpl.
    + apply String.eqb_eq in E; subst k. exfalso. apply Hni.
      apply in_map_iff. now exists (s, ip).
    + specialize (IH Hnd' Hin).
      destruct (String.eqb a ip'); simpl; lia.
Qed.

Lemma ips_delete s st :
  ips (set_sockets (JMap.delete s (sockets st)) st)
  = filter (fun p => negb (String.eqb s (fst p))) (ips st).
Proof.
  unfold ips, JMap.delete. simpl.
  induction (sockets st) as [|[k c] l IH]; simpl; trivial.
  destruct (String.eqb s k); simpl; now rewrite IH.
Qed.

Lemma NoDup_fst_filter (l : list (sid * string)) f :
  NoDup (map fst l) -> NoDup (map fst (filter f l)).
Proof.
  induction l as [|p l IH]; simpl; intros Hnd; [constructor|].
  inversion Hnd as [|? ? Hni Hnd']; subst.
  destruct (f p); simpl; [|now apply IH].
  constructor; [|now apply IH].
  intros Hin. apply Hni. apply in_map_iff in Hin.
  destruct Hin as [q [Hq Hin]]. apply filter_In in Hin.
  apply in_map_iff. exists q. tauto.
Qed.

Lemma counter_set_same ip n st :
  counter ip (set_userConnections (JMap.set ip n (userConnections st)) st) = n.
Proof. unfold counter. simpl. now rewrite JMapFacts.get_set_same. Qed.

Lemma counter_set_other ip ip' n st :
  ip' <> ip ->
  counter ip' (set_userConnections (JMap.set ip n (userConnections st)) st)
  = counter ip' st.
Proof.
  intros H. unfold counter. simpl. now rewrite JMapFacts.get_set_other.
Qed.

Lemma counter_delete_same ip st :
  counter ip (set_userConnections (JMap.delete ip (userConnections st)) st) = 0.
Proof. unfold counter. simpl. now rewrite JMapFacts.get_delete_same. Qed.

Lemma counter_delete_other ip ip' st :
  ip' <> ip ->
  counter ip' (set_userConnections (JMap.delete ip (userConnections st)) st)
  = counter ip' st.
Proof.
  intros H. unfold counter. simpl. now rewrite JMapFacts.get_delete_other.
Qed.

(** What an accepted connection does to the state. *)
Lemma on_connection_accepted s ip now st :
  counter ip st < MAX_CONNECTIONS_PER_IP ->
  on_connection s ip now st
  = (set_userSockets (JMap.set s s (userSockets st))
       (set_sockets
          (JMap.set s (mkSocket ip (mkUserData s None None now) [s])
             (sockets st))
          (set_userConnections
             (JMap.set ip (counter ip st + 1) (userConnections st)) st)),
     [Log "New connection"]).
Proof.
  intros Hlt. unfold on_connection. fold (counter ip st).
  apply Nat.leb_gt in Hlt. now rewrite Hlt.
Qed.

Lemma on_connection_rejected s ip now st :
  MAX_CONNECTIONS_PER_IP <= counter ip st ->
  on_connection s ip now st
  = (st, [Log "Connection rejected - rate limit";
          emit_self s (ErrorOut "Too many connections from this IP")]).
Proof.
  intros Hle. unfold on_connection. fold (counter ip st).
  apply Nat.leb_le in Hle. now rewrite Hle.
Qed.

Lemma connection_counters_ok s ip now st :
  counters_ok st -> admissible st (Connection s ip now) = true ->
  counters_ok (next st (Connection s ip now)).
Proof.
  intros [Hnd Hc] Hadm. simpl in Hadm.
  apply negb_true_iff, JMapFacts.has_false in Hadm.
  unfold next. simpl.
  destruct (Nat.le_gt_cases MAX_CONNECTIONS_PER_IP (counter ip st)) as [H|H].
  - rewrite on_connection_rejected by assumption. now split.
  - rewrite on_connection_accepted by assumption. simpl.
    assert (Hips : ips (set_userSockets (JMap.set s s (userSockets st))
                          (set_sockets
                             (JMap.set s
                                (mkSocket ip (mkUserData s None None now) [s])
                                (sockets st))
                             (set_userConnections
                                (JMap.set ip (counter ip st + 1)
                                   (userConnections st)) st)))
                   = ips st ++ [(s, ip)]).
    { unfold ips. simpl. rewrite JMapFacts.set_absent by assumption.
      now rewrite map_app. }
    split.
    + rewrite Hips, map_app. simpl.
      apply NoDup_app; [exact Hnd|repeat constructor; auto|].
      intros x Hx [<-|[]]. eapply JMapFacts.get_None_keys; [exact Hadm|].
      unfold ips in Hx. rewrite map_map in Hx. exact Hx.
    + intros ip'. unfold open_from. rewrite Hips, open_in_app.
      fold (open_from ip' st). rewrite <- Hc.
      unfold open_in. simpl.
      destruct (String.eqb ip ip') eqn:E.
      * apply String.eqb_eq in E; subst ip'. simpl.
        unfold counter at 1. simpl. rewrite JMapFacts.get_set_same. lia.
      * apply String.eqb_neq in E. simpl.
        unfold counter at 1. simpl.
        rewrite JMapFacts.get_set_other by congruence.
        fold (counter ip' st). lia.
Qed.

Lemma on_disconnect_userSockets s c now st :
  userSockets (fst (on_disconnect s c now st))
  = JMap.delete s (userSockets st).
Proof.
  unfold on_disconnect. set (st0 := set_sockets _ st).
  pose proof (handleUserLeave_userSockets s (with_rooms [] c) now st0) as H.
  now destruct (handleUserLeave s (with_rooms [] c) now st0).
Qed.

Lemma on_disconnect_effect s c now st :
  JMap.get s (sockets st) = Some c ->
  let st' := fst (on_disconnect s c now st) in
  ips st' = filter (fun p => negb (String.eqb s (fst p))) (ips st)
  /\ userConnections st' = released (clientIp c) (userConnections st).
Proof.
  intros Hc. unfold on_disconnect.
  set (st0 := set_sockets _ st).
  assert (H0 : ips st0 = ips st).
  { unfold st0, ips. simpl. now apply JMapFacts.map_set_present with (v0 := c). }
  pose proof (handleUserLeave_frame s (with_rooms [] c) now st0) as [H1 H2].
  destruct (handleUserLeave s (with_rooms [] c) now st0) as [st1 out].
  simpl in H1, H2. cbv zeta. cbn [fst].
  rewrite ips_delete, ips_set_userConnections, H1, H0. simpl.
  rewrite H2. now split.
Qed.

Lemma disconnect_counters_ok s now st :
  counters_ok st -> counters_ok (next st (Disconnect s now)).
Proof.
  intros [Hnd Hc]. unfold next. simpl. unfold on_socket.
  destruct (JMap.get s (sockets st)) as [c|] eqn:Hget; [|now split].
  destruct (@on_disconnect_effect s c now st Hget) as [Hips Huc].
  set (st' := fst (on_disconnect s c now st)) in *.
  assert (Hin : In (s, clientIp c) (ips st)).
  { unfold ips. apply in_map_iff. exists (s, c). split; trivial.
    now apply JMapFacts.get_In. }
  split.
  - rewrite Hips. now apply NoDup_fst_filter.
  - intros ip. unfold open_from. rewrite Hips.
    pose proof (@open_in_remove (ips st) s (clientIp c) ip Hnd Hin) as Hrem.
    fold (open_from ip st) in Hrem. rewrite <- Hc in Hrem.
    assert (Hpos : 1 <= counter (clientIp c) st).
    { rewrite Hc. unfold open_from.
      pose proof (@open_in_remove (ips st) s (clientIp c) (clientIp c) Hnd Hin) as H.
      rewrite String.eqb_refl in H. lia. }
    unfold counter at 1. rewrite Huc. unfold released.
    unfold counter in Hpos, Hrem.
    destruct (String.eqb (clientIp c) ip) eqn:E.
    + apply String.eqb_eq in E; subst ip.
      destruct (JMap.get (clientIp c) (userConnections st)) as [n|];
        [|lia].
      destruct (Nat.eqb_spec n 0); [lia|].
      destruct (Nat.leb_spec n 1).
      * rewrite JMapFacts.get_delete_same. lia.
      * rewrite JMapFacts.get_set_same. lia.
    + apply String.eqb_neq in E.
      destruct (_ <=? 1).
      * rewrite JMapFacts.get_delete_other by congruence. lia.
      * rewrite JMapFacts.get_set_other by congruence. lia.
Qed.

Lemma step_counters_ok st e :
  counters_ok st -> admissible st e = true -> counters_ok (next st e).
Proof.
  intros Hok Hadm.
  assert (Hframe : ips (next st e) = ips st
                   /\ userConnections (next st e) = userConnections st ->
                   counters_ok (next st e)).
  { intros [Hi Hu]. destruct Hok as [Hnd Hc]. split; [now rewrite Hi|].
    intros ip. unfold open_from, counter. rewrite Hi, Hu. apply Hc. }
  pose proof (step_frame st e) as Hf.
  destruct e; auto.
  - now apply connection_counters_ok.
  - now apply disconnect_counters_ok.
Qed.

Lemma reachable_counters_ok st : reachable st -> counters_ok st.
Proof.
  induction 1 as [|st e _ IH Hadm].
  - split; [constructor|reflexivity].
  - now apply step_counters_ok.
Qed.

Lemma reachable_run st tr :
  reachable st -> admissible_trace st tr = true -> reachable (run st tr).
Proof.
  revert st. induction tr as [|e tr IH]; simpl; intros st Hr Hadm; trivial.
  apply andb_true_iff in Hadm. destruct Hadm as [He Htr].
  apply IH; trivial. now apply reachable_step.
Qed.

(** The scenarios are states of the server. *)
Lemma reachable_full_house : reachable full_house.
Proof. apply reachable_run; [constructor|reflexivity]. Qed.

Lemma reachable_alice_and_bob : reachable alice_and_bob.
Proof.
  apply (reachable_run init
           [Connection "a1" "10.0.0.1" 1%Z;
            Connection "b2" "10.0.0.1" 2%Z;
            JoinRoom "a1" (Some "LOBBY") (Some "ALICE") 3%Z;
            JoinRoom "b2" (Some " lobby ") (Some "bob") 4%Z]);
    [constructor|reflexivity].
Qed.

Lemma reachable_alice_moved : reachable alice_moved.
Proof. apply reachable_step; [apply reachable_alice_and_bob|reflexivity]. Qed.

Lemma rejected_iff st s ip now :
  rejected st s ip now = true <-> MAX_CONNECTIONS_PER_IP <= counter ip st.
Proof.
  unfold rejected, output. simpl.
  destruct (Nat.le_gt_cases MAX_CONNECTIONS_PER_IP (counter ip st)) as [H|H].
  - rewrite on_connection_rejected by assumption. simpl. tauto.
  - rewrite on_connection_accepted by assumption. simpl.
    split; [discriminate|lia].
Qed.

(** C5.  In every reachable state the counter kept for an address is the
    number of connections open from it, and a connection attempt is
    rejected exactly when that number is at least 10.  So with 10
    connections open the next attempt from the address is rejected, and
    once any one of them disconnects (the counter drops to 9, an entry
    that would drop to zero is removed) a new attempt from the address is
    accepted and registered. *)
Theorem admission_limit st ip :
  reachable st ->
  counter ip st = open_from ip st
  /\ (forall s now,
        rejected st s ip now = true <-> MAX_CONNECTIONS_PER_IP <= open_from ip st)
  /\ (forall s c now,
        JMap.get s (sockets st) = Some c -> clientIp c = ip ->
        let st' := next st (Disconnect s now) in
        open_from ip st' + 1 = open_from ip st
        /\ counter ip st' + 1 = counter ip st
        /\ (open_from ip st = 1 -> JMap.get ip (userConnections st') = None)
        /\ (open_from ip st = MAX_CONNECTIONS_PER_IP ->
            forall s' now',
              rejected st' s' ip now' = false
              /\ JMap.has s' (sockets (next st' (Connection s' ip now')))
                 = true)).
Proof.
  intros Hr. pose proof (@reachable_counters_ok st Hr) as [Hnd Hc].
  split; [apply Hc|]. split.
  - intros s now. rewrite <- Hc. apply rejected_iff.
  - intros s c now Hget Hip st'.
    assert (Hr' : reachable st') by (now apply reachable_step).
    pose proof (@reachable_counters_ok st' Hr') as [_ Hc'].
    assert (Hopen : open_from ip st' + 1 = open_from ip st).
    { unfold st', next. simpl. unfold on_socket. rewrite Hget.
      destruct (@on_disconnect_effect s c now st Hget) as [Hips _].
      unfold open_from. rewrite Hips.
      assert (Hin : In (s, ip) (ips st)).
      { unfold ips. apply in_map_iff. exists (s, c). simpl. rewrite Hip.
        split; trivial. now apply JMapFacts.get_In. }
      pose proof (@open_in_remove (ips st) s ip ip Hnd Hin) as H.
      now rewrite String.eqb_refl in H. }
    split; [exact Hopen|]. split; [now rewrite Hc, Hc'|]. split.
    + intros H1. assert (H0 : counter ip st' = 0) by (rewrite Hc'; lia).
      unfold st', next in *. simpl in *. unfold on_socket in *.
      rewrite Hget in *.
      destruct (@on_disconnect_effect s c now st Hget) as [_ Huc].
      rewrite Huc. unfold released. rewrite Hip.
      assert (Hn : counter ip st = 1) by (rewrite Hc; exact H1).
      unfold counter in Hn.
      destruct (JMap.get ip (userConnections st)) as [n|]; [subst n|].
      * simpl. apply JMapFacts.get_delete_same.
      * simpl. apply JMapFacts.get_delete_same.
    + intros Hfull s' now'.
      assert (Hlt : counter ip st' < MAX_CONNECTIONS_PER_IP)
        by (rewrite Hc'; lia).
      split.
      * destruct (rejected st' s' ip now') eqn:E; trivial.
        apply rejected_iff in E. lia.
      * unfold next at 1. simpl. rewrite on_connection_accepted by assumption.
        simpl. apply JMapFacts.has_true. eexists.
        apply JMapFacts.get_set_same.
Qed.

(** C5 at a concrete state: ten connections from one address. *)
Lemma admission_limit_witness :
  rejected full_house "s11" "10.0.0.1" 11%Z = true
  /\ rejected (next full_house (Disconnect "d" 12%Z)) "s11" "10.0.0.1" 13%Z
     = false.
Proof.
  destruct (admission_limit full_house "10.0.0.1" reachable_full_house)
    as (_ & Hrej & Hdis).
  split.
  - apply Hrej. vm_compute. apply le_n.
  - refine (proj1 (proj2 (proj2 (proj2
              (Hdis "d" _ 12%Z eq_refl eq_refl))) eq_refl "s11" 13%Z)).
Defined.

(* ------------------------------------------------------------------ *)
(** * Nicknames are unique within a room *)

Lemma nickname_taken_false s n room :
  nickname_taken s n room = false <->
  forall k u, In (k, u) (users room) -> m_nickname u = n -> k = s.
Proof.
  unfold nickname_taken. split.
  - intros H k u Hin Hn.
    destruct (String.eqb k s) eqn:E; [now apply String.eqb_eq|].
    exfalso. apply not_true_iff_false in H. apply H.
    apply existsb_exists. exists (k, u). split; trivial. simpl.
    rewrite E. subst n. now rewrite String.eqb_refl.
  - intros H. apply not_true_is_false. intros Hex.
    apply existsb_exists in Hex. destruct Hex as [[k u] [Hin Hb]].
    simpl in Hb. apply andb_true_iff in Hb. destruct Hb as [Hn Hk].
    apply String.eqb_eq in Hn. apply negb_true_iff, String.eqb_neq in Hk.
    apply Hk. now apply (H k u).
Qed.

Lemma unique_nicknames_set s n now u :
  unique_nicknames u ->
  (forall k m, In (k, m) u -> m_nickname m = n -> k = s) ->
  unique_nicknames (JMap.set s (mkMember s n now) u).
Proof.
  intros Hu Hfree s1 m1 s2 m2 H1 H2 Heq.
  apply JMapFacts.In_set_inv in H1, H2.
  destruct H1 as [[= -> ->]|H1], H2 as [[= -> ->]|H2]; simpl in *.
  - reflexivity.
  - symmetry. now apply (Hfree s2 m2).
  - now apply (Hfree s1 m1).
  - now apply (Hu s1 m1 s2 m2).
Qed.

Lemma unique_nicknames_delete s u :
  unique_nicknames u -> unique_nicknames (JMap.delete s u).
Proof.
  intros Hu s1 m1 s2 m2 H1 H2.
  apply JMapFacts.In_delete_inv in H1, H2. now apply Hu.
Qed.

Lemma all_unique_set c r m :
  all_unique m -> unique_nicknames (users r) ->
  all_unique (JMap.set c r m).
Proof.
  intros Hm Hr c' r' Hin. apply JMapFacts.In_set_inv in Hin.
  destruct Hin as [[= -> ->]|Hin]; [exact Hr|]. now apply (Hm c').
Qed.

Lemma all_unique_filter f m : all_unique m -> all_unique (filter f m).
Proof.
  intros Hm c r Hin. apply filter_In in Hin. now apply (Hm c).
Qed.

Lemma all_unique_get c r m :
  all_unique m -> JMap.get c m = Some r -> unique_nicknames (users r).
Proof. intros Hm Hget. apply (Hm c). now apply JMapFacts.get_In. Qed.

Lemma join_room_unique s rc nk now st :
  all_unique (activeRooms st) ->
  all_unique (activeRooms (fst (join_room s rc nk now st))).
Proof.
  intros Hu. unfold join_room.
  destruct rc as [rc|]; [|exact Hu]. destruct nk as [nk|]; [|exact Hu].
  destruct (invalid_request rc nk); [exact Hu|].
  set (st1 := upd_socket s _ st).
  assert (H1 : all_unique (activeRooms st1))
    by (unfold st1; now autorewrite with frame).
  clearbody st1. clear Hu.
  assert (H2 : all_unique
                 (activeRooms
                    (fst (if JMap.has (clean rc) (activeRooms st1)
                          then (st1, @nil action)
                          else (set_activeRooms
                                  (JMap.set (clean rc)
                                     (fresh_room (clean rc) now)
                                     (activeRooms st1)) st1,
                                [Log "Room created"]))))).
  { destruct (JMap.has _ _); simpl; trivial.
    apply all_unique_set; trivial. intros ? ? ? ? []. }
  destruct (if JMap.has (clean rc) (activeRooms st1) then _ else _)
    as [st2 log2].
  simpl in H2.
  destruct (JMap.get (clean rc) (activeRooms st2)) as [room|] eqn:Hget;
    [|exact H2].
  destruct (nickname_taken s (clean nk) room) eqn:Htaken; [exact H2|].
  cbn [fst]. autorewrite with frame. simpl.
  apply all_unique_set; trivial. simpl.
  apply unique_nicknames_set.
  - now apply (all_unique_get (clean rc) room (activeRooms st2)).
  - now apply nickname_taken_false.
Qed.

Lemma handleUserLeave_unique s c now st :
  all_unique (activeRooms st) ->
  all_unique (activeRooms (fst (handleUserLeave s c now st))).
Proof.
  intros Hu. unfold handleUserLeave.
  destruct (roomCode (userData c)) as [rc|];
    [|frame_simpl; exact Hu].
  destruct (String.eqb rc ""); [frame_simpl; exact Hu|].
  destruct (JMap.get rc (activeRooms st)) as [room|] eqn:Hget;
    [|frame_simpl; exact Hu].
  assert (Hset : all_unique
                   (JMap.set rc
                      (mkRoom (code room) (JMap.delete s (users room))
                         (created room) now) (activeRooms st))).
  { apply all_unique_set; trivial. simpl. apply unique_nicknames_delete.
    now apply (all_unique_get rc room (activeRooms st)). }
  cbv zeta. destruct (JMap.size _ =? 0); frame_simpl; trivial.
  now apply all_unique_filter.
Qed.

Lemma chat_message_unique s c m rc now id st :
  all_unique (activeRooms st) ->
  all_unique (activeRooms (fst (chat_message s c m rc now id st))).
Proof.
  intros Hu. unfold chat_message.
  destruct (_ || _); [exact Hu|].
  destruct m as [m|]; [|exact Hu]. destruct rc as [rc|]; [|exact Hu].
  destruct (_ || _); [exact Hu|].
  destruct (JMap.get rc (activeRooms st)) as [room|] eqn:Hget; [|exact Hu].
  destruct (negb _); [exact Hu|]. simpl.
  apply all_unique_set; trivial. simpl.
  now apply (all_unique_get rc room (activeRooms st)).
Qed.

Lemma step_rooms_unique st e : rooms_unique st -> rooms_unique (next st e).
Proof.
  unfold rooms_unique. fold (all_unique (activeRooms st)).
  fold (all_unique (activeRooms (next st e))). intros Hu. unfold next.
  destruct e as [s ip now|s rc nk now|s t sg ty|s m rc now id|s f t rc
                |s now|s now|now|s h];
    simpl; unfold on_socket;
    try (destruct (JMap.get s (sockets st)) as [c|]; [|exact Hu]).
  - unfold on_connection. now destruct (_ <=? _).
  - now apply join_room_unique.
  - now rewrite webrtc_signal_frame.
  - now apply chat_message_unique.
  - now rewrite private_chat_invite_frame.
  - now apply handleUserLeave_unique.
  - unfold on_disconnect.
    set (st0 := set_sockets _ st).
    pose proof (handleUserLeave_unique s (with_rooms [] c) now st0 Hu) as H.
    now destruct (handleUserLeave s (with_rooms [] c) now st0).
  - now apply all_unique_filter.
  - now rewrite on_error_frame.
Qed.

Lemma reachable_rooms_unique st : reachable st -> rooms_unique st.
Proof.
  induction 1 as [|st e _ IH _].
  - intros c r [].
  - now apply step_rooms_unique.
Qed.

(* ------------------------------------------------------------------ *)
(** * Joining again *)

(** C7.  A connection that is a member of a room and asks to join the
    same room (the same code after normalisation) under the same nickname
    (the same after normalisation) is never answered with the nickname
    collision: the scan skips the connection's own entry.  The room keeps
    its list of (connection, nickname) pairs, and a request that passes
    validation is acknowledged with [room-joined] and the unchanged
    member count. *)
Theorem rejoin_idempotent st s c room m rc nk now :
  reachable st ->
  JMap.get s (sockets st) = Some c ->
  JMap.get (clean rc) (activeRooms st) = Some room ->
  JMap.get s (users room) = Some m ->
  m_nickname m = clean nk ->
  let e := JoinRoom s (Some rc) (Some nk) now in
  (forall a to,
      ~ In (Emit a to (JoinError "Nickname already taken in this room"))
           (output st e))
  /\ (exists room',
         JMap.get (clean rc) (activeRooms (next st e)) = Some room'
         /\ member_pairs room' = member_pairs room)
  /\ (invalid_request rc nk = false ->
      In (emit_self s
            (RoomJoined (clean rc) (clean nk) (JMap.size (users room))))
         (output st e)).
Proof.
  intros Hr Hc Hroom Hm Hn e.
  assert (Hfree : nickname_taken s (clean nk) room = false).
  { apply nickname_taken_false. intros k u Hin Hu.
    pose proof (reachable_rooms_unique st Hr) as Huniq.
    apply (all_unique_get (clean rc) room _ Huniq Hroom k u s m); trivial.
    - now apply JMapFacts.get_In.
    - congruence. }
  unfold output, next, e. simpl. unfold on_socket. rewrite Hc.
  unfold join_room. destruct (invalid_request rc nk).
  - simpl. repeat split.
    + intros a to [H|[]]. discriminate H.
    + now exists room.
    + discriminate.
  - set (st1 := upd_socket s _ st).
    assert (H1 : activeRooms st1 = activeRooms st)
      by (unfold st1; now autorewrite with frame).
    assert (Hhas : JMap.has (clean rc) (activeRooms st1) = true).
    { rewrite H1. apply JMapFacts.has_true. now exists room. }
    rewrite Hhas. cbv beta iota zeta. rewrite H1, Hroom, Hfree.
    cbn [fst snd app].
    repeat split.
    + intros a to [H|[H|[H|[H|[]]]]]; discriminate H.
    + eexists. split.
      * autorewrite with frame. simpl. apply JMapFacts.get_set_same.
      * unfold member_pairs. simpl.
        apply JMapFacts.map_set_present with (v0 := m); trivial.
        simpl. now rewrite Hn.
    + intros _. left. simpl.
      now rewrite (JMapFacts.size_set_present _ s _ m (users room) Hm).
Qed.

(** C7 at a concrete state: BOB asks to join LOBBY as BOB once more. *)
Lemma rejoin_idempotent_witness :
  exists room',
    JMap.get "LOBBY"
      (activeRooms
         (next alice_and_bob (JoinRoom "b2" (Some "Lobby") (Some " Bob") 9%Z)))
    = Some room'
    /\ member_pairs room' = [("a1", "ALICE"); ("b2", "BOB")].
Proof.
  exact (proj1 (proj2
           (rejoin_idempotent alice_and_bob "b2" _ _ _ "Lobby" " Bob" 9%Z
              reachable_alice_and_bob eq_refl eq_refl eq_refl eq_refl))).
Defined.

(* ------------------------------------------------------------------ *)
(** * Where the handlers fall short of the specification *)

(** C1, on the code: ALICE joins LOBBY and then OTHER.  The join handler
    overwrites her room field and adds her to OTHER, but never removes her
    entry from LOBBY: in a reachable state LOBBY lists a connection whose
    session points at OTHER, so membership and sessions do not coincide. *)
Theorem stale_member_after_second_join :
  reachable alice_moved
  /\ (exists room ud,
         JMap.get "LOBBY" (activeRooms alice_moved) = Some room
         /\ JMap.has "a1" (users room) = true
         /\ session alice_moved "a1" = Some ud
         /\ roomCode ud = Some "OTHER")
  /\ ~ membership_consistent alice_moved.
Proof.
  split; [apply reachable_alice_moved|]. split.
  - do 2 eexists. repeat split; reflexivity.
  - intros H.
    destruct (H "LOBBY" _ eq_refl "a1") as [Hmem _].
    destruct (Hmem eq_refl) as [ud [Hs Hroom]].
    vm_compute in Hs. injection Hs as <-. discriminate Hroom.
Qed.

(** C2, on the code: the second connection asks to join LOBBY under
    ALICE's nickname.  It is answered with the nickname collision, and
    the room directory is untouched, but its own nickname and room field
    have already been overwritten: the handler assigns [userData] before
    it scans the room. *)
Theorem collision_overwrites_session :
  let e := JoinRoom "b2" (Some "lobby") (Some "alice") 4%Z in
  output alice_in_lobby e
  = [emit_self "b2" (JoinError "Nickname already taken in this room")]
  /\ activeRooms (next alice_in_lobby e) = activeRooms alice_in_lobby
  /\ session alice_in_lobby "b2" = Some (mkUserData "b2" None None 2%Z)
  /\ session (next alice_in_lobby e) "b2"
     = Some (mkUserData "b2" (Some "ALICE") (Some "LOBBY") 2%Z)
  /\ ~ collision_mutates_nothing alice_in_lobby e.
Proof.
  repeat split.
  intros H. assert (Hne : next alice_in_lobby
                            (JoinRoom "b2" (Some "lobby") (Some "alice") 4%Z)
                          <> alice_in_lobby)
    by (vm_compute; discriminate).
  apply Hne, H. do 2 eexists. left. reflexivity.
Qed.

(** C3, on the code: a connection that has joined nothing sends
    leave-room.  [handleUserLeave] skips the room part but still deletes
    the connection's entry from [userSockets]: the connection stays open,
    with its handlers registered, and has no session any more. *)
Theorem idle_leave_drops_session :
  let st' := next newcomer (LeaveRoom "a1" 2%Z) in
  session newcomer "a1" = Some (mkUserData "a1" None None 1%Z)
  /\ session st' "a1" = None
  /\ JMap.has "a1" (sockets st') = true
  /\ ~ idle_leave_is_noop newcomer "a1" 2%Z.
Proof.
  repeat split.
  intros H. specialize (H _ eq_refl eq_refl). vm_compute in H.
  discriminate H.
Qed.

(** C4, on the code: after ALICE has joined OTHER she is still in the
    transport group LOBBY, which the join handler never makes her leave.
    BOB's chat message for LOBBY is delivered to her although her room
    field is OTHER. *)
Theorem chat_reaches_former_member :
  let e := ChatMessage "b2" (Some "hi") (Some "LOBBY") 6%Z "m1" in
  output alice_moved e
  = [Emit (ToOthers "b2" "LOBBY") ["a1"]
       (ChatMessageOut "m1" (Some "BOB") "hi" 6%Z);
     Log "Message relayed"]
  /\ option_map (fun c => roomCode (userData c))
       (JMap.get "a1" (sockets alice_moved))
     = Some (Some "OTHER")
  /\ ~ chat_stays_in_room alice_moved e.
Proof.
  repeat split.
  intros H.
  destruct (H _ ["a1"] _ "a1" _ (or_introl eq_refl) (or_introl eq_refl)
              eq_refl) as [_ Hroom].
  discriminate Hroom.
Qed.

(** ** Who is in a group, and whom [socket.to] leaves out *)

Lemma In_in_group g s c st :
  JMap.get s (sockets st) = Some c -> In g (rooms c) -> In s (in_group g st).
Proof.
  intros Hc Hg. unfold in_group, JMap.keys. apply in_map_iff.
  exists (s, c). split; trivial. apply filter_In. split.
  - now apply JMapFacts.get_In.
  - simpl. apply existsb_exists. exists g. split; trivial.
    apply String.eqb_refl.
Qed.

Lemma in_group_In g s st :
  In s (in_group g st) -> exists c, In (s, c) (sockets st) /\ In g (rooms c).
Proof.
  unfold in_group, JMap.keys. intros H. apply in_map_iff in H.
  destruct H as [[k c] [Hk Hin]]. simpl in Hk. subst k.
  apply filter_In in Hin. destruct Hin as [Hin Hex]. exists c.
  split; trivial. simpl in Hex. apply existsb_exists in Hex.
  destruct Hex as [x [Hx Heq]]. apply String.eqb_eq in Heq. now subst.
Qed.

Lemma In_others x s g st :
  In x (others s g st) <-> In x (in_group g st) /\ ~ In x (in_group s st).
Proof.
  unfold others. rewrite filter_In, negb_true_iff.
  split; intros [Hg Hs]; split; trivial.
  - intros Hin. assert (E : existsb (String.eqb x) (in_group s st) = true).
    { apply existsb_exists. exists x. split; trivial.
      apply String.eqb_refl. }
    congruence.
  - destruct (existsb (String.eqb x) (in_group s st)) eqn:E; trivial.
    exfalso. apply Hs. apply existsb_exists in E.
    destruct E as [y [Hy Heq]]. apply String.eqb_eq in Heq. now subst.
Qed.

(** The sender is left out for as long as it is in the group named by
    its own id. *)
Lemma not_In_others s c g st :
  JMap.get s (sockets st) = Some c -> In s (rooms c) ->
  ~ In s (others s g st).
Proof.
  intros Hc Hs Hin. apply In_others in Hin. destruct Hin as [_ Hn].
  apply Hn. now apply (In_in_group s s c st).
Qed.

(** When nobody but the sender is in the group named by its id,
    [socket.to(g)] reaches everybody in [g] but the sender. *)
Lemma others_alone s g st :
  in_group s st = [s] ->
  others s g st = filter (fun x => negb (String.eqb x s)) (in_group g st).
Proof.
  intros Hs. unfold others. rewrite Hs. apply filter_ext. intros x. simpl.
  now rewrite orb_false_r.
Qed.

(** The part of C4 that holds on the code: [socket.to(...)] does not
    address the sender, which is in the group named by its own id. *)
Lemma chat_message_not_echoed st s c m rc now id a to p :
  JMap.get s (sockets st) = Some c -> In s (rooms c) ->
  In (Emit a to p) (output st (ChatMessage s m rc now id)) -> ~ In s to.
Proof.
  intros Hc Hs. unfold output. simpl. unfold on_socket. rewrite Hc.
  unfold chat_message. break_tests; simpl; try tauto.
  intros [H|[H|[]]]; [|discriminate H].
  injection H as _ <- _. now apply (not_In_others s c).
Qed.

(** The part of C2 that holds on the code: a join refused for its
    nickname leaves the room directory alone. *)
Lemma collision_leaves_directory st s rc nk now a to :
  In (Emit a to (JoinError "Nickname already taken in this room"))
     (snd (join_room s rc nk now st)) ->
  activeRooms (fst (join_room s rc nk now st)) = activeRooms st.
Proof.
  unfold join_room.
  destruct rc as [rc|]; [|reflexivity]. destruct nk as [nk|]; [|reflexivity].
  destruct (invalid_request rc nk); [reflexivity|].
  set (st1 := upd_socket s _ st).
  assert (H1 : activeRooms st1 = activeRooms st)
    by (unfold st1; now autorewrite with frame).
  destruct (JMap.has (clean rc) (activeRooms st1)) eqn:Hhas.
  - destruct (JMap.get (clean rc) (activeRooms st1)) as [room|];
      [|intros _; exact H1].
    destruct (nickname_taken s (clean nk) room); [intros _; exact H1|].
    simpl. intros [H|[H|[H|[H|[]]]]]; discriminate H.
  - cbn [activeRooms set_activeRooms].
    rewrite JMapFacts.get_set_same, nickname_taken_fresh.
    simpl. intros [H|[H|[H|[H|[H|[]]]]]]; discriminate H.
Qed.

(* ------------------------------------------------------------------ *)
(** * Transport groups and the session registry *)

Lemma In_upd_socket s f st k c :
  In (k, c) (sockets (upd_socket s f st)) ->
  In (k, c) (sockets st)
  \/ (k = s /\ exists c0, In (s, c0) (sockets st) /\ c = f c0).
Proof.
  unfold upd_socket.
  destruct (JMap.get s (sockets st)) as [c0|] eqn:E; [|now left].
  simpl. intros H. apply JMapFacts.In_set_inv in H.
  destruct H as [[= -> ->]|H]; [|now left].
  right. split; trivial. exists c0. split; trivial.
  now apply JMapFacts.get_In.
Qed.

Lemma sat_upd_socket P s f st :
  sockets_sat P st -> (forall c0, P s c0 -> P s (f c0)) ->
  sockets_sat P (upd_socket s f st).
Proof.
  intros Hg Hf k c Hin. apply In_upd_socket in Hin.
  destruct Hin as [Hin|[-> [c0 [Hin ->]]]]; [now apply Hg|].
  apply Hf. now apply Hg.
Qed.

Lemma sat_same_sockets P st st' :
  sockets st' = sockets st -> sockets_sat P st -> sockets_sat P st'.
Proof. unfold sockets_sat. intros ->. trivial. Qed.

Lemma socket_ok_set_identity s n x c :
  socket_ok s c -> socket_ok s (set_identity n (Some (clean x)) c).
Proof.
  intros (H1 & H2 & _). repeat split; trivial.
  simpl. intros rc [= <-]. now exists x.
Qed.

Lemma socket_ok_clear_room s c : socket_ok s c -> socket_ok s (clear_room c).
Proof. intros (H1 & H2 & _). repeat split; trivial. discriminate. Qed.

Lemma socket_ok_join s x c :
  socket_ok s c -> socket_ok s (socket_join (clean x) c).
Proof.
  intros (H1 & H2 & H3). unfold socket_join.
  destruct (existsb _ _); [now repeat split|].
  repeat split; simpl; trivial.
  - intros g Hin. apply in_app_iff in Hin.
    destruct Hin as [Hin|[<-|[]]]; [now apply H1|].
    right. now exists x.
  - destruct H2 as [H2|H2]; [left|now right]. apply in_app_iff. now left.
Qed.

Lemma socket_ok_leave s rc c :
  is_clean rc -> socket_ok s c -> socket_ok s (socket_leave rc c).
Proof.
  intros Hrc (H1 & H2 & H3). repeat split; simpl; trivial.
  - intros g Hin. apply filter_In in Hin. now apply H1.
  - destruct H2 as [H2|H2]; [|now right].
    destruct (String.eqb rc s) eqn:E.
    + apply String.eqb_eq in E. subst. now right.
    + left. apply filter_In. split; trivial. now rewrite E.
Qed.

Lemma join_room_groups_ok s rc nk now st :
  groups_ok st -> groups_ok (fst (join_room s rc nk now st)).
Proof.
  intros Hg. unfold join_room.
  destruct rc as [rc|]; [|exact Hg]. destruct nk as [nk|]; [|exact Hg].
  destruct (invalid_request rc nk); [exact Hg|].
  set (st1 := upd_socket s _ st).
  assert (H1 : groups_ok st1).
  { apply sat_upd_socket; trivial. intros c0. apply socket_ok_set_identity. }
  clearbody st1.
  destruct (JMap.has (clean rc) (activeRooms st1)); cbv beta iota zeta;
    (destruct (JMap.get _ _); [|exact H1]);
    (destruct (nickname_taken _ _ _); [exact H1|]); cbn [fst];
    (apply sat_upd_socket; [exact H1|]); intros c0; apply socket_ok_join.
Qed.

(** [handleUserLeave] rewrites the closure of its own socket only, with
    [socket.leave] for the stored room code and by clearing the room
    field. *)
Lemma handleUserLeave_sat P s c now st :
  sockets_sat P st ->
  (forall c0, P s c0 -> P s (clear_room c0)) ->
  (forall rc c0,
      roomCode (userData c) = Some rc -> P s c0 -> P s (socket_leave rc c0)) ->
  sockets_sat P (fst (handleUserLeave s c now st)).
Proof.
  intros Hg Hclear Hleave. unfold handleUserLeave.
  destruct (roomCode (userData c)) as [rc|] eqn:Hrc;
    [|cbn [fst]; apply sat_upd_socket; trivial].
  destruct (String.eqb rc ""); [cbn [fst]; apply sat_upd_socket; trivial|].
  assert (Hl : forall st0,
             sockets st0 = sockets st ->
             sockets_sat P
               (upd_socket s clear_room
                  (set_userSockets
                     (JMap.delete s
                        (userSockets (upd_socket s (socket_leave rc) st0)))
                     (upd_socket s (socket_leave rc) st0)))).
  { intros st0 Heq. apply sat_upd_socket; trivial.
    apply sat_same_sockets with (st := upd_socket s (socket_leave rc) st0);
      [reflexivity|].
    apply sat_upd_socket; [now apply sat_same_sockets with (st := st)|].
    intros c0. now apply Hleave. }
  destruct (JMap.get rc (activeRooms st)) as [room|];
    [|cbn [fst]; now apply Hl].
  cbv zeta. destruct (JMap.size _ =? 0); cbn [fst]; now apply Hl.
Qed.

Lemma step_groups_ok st e :
  groups_ok st -> groups_ok (next st e).
Proof.
  intros Hg. unfold next.
  destruct e as [s ip now|s rc nk now|s t sg ty|s m rc now id|s f t rc
                |s now|s now|now|s h];
    simpl; unfold on_socket;
    try (destruct (JMap.get s (sockets st)) as [c|] eqn:Hc; [|exact Hg]).
  - unfold on_connection. destruct (_ <=? _); [exact Hg|]. cbn [fst].
    intros k c Hin. simpl in Hin. apply JMapFacts.In_set_inv in Hin.
    destruct Hin as [[= -> ->]|Hin]; [|now apply Hg].
    repeat split; simpl.
    + intros g [<-|[]]. now left.
    + left. now left.
    + discriminate.
  - now apply join_room_groups_ok.
  - now rewrite webrtc_signal_frame.
  - apply sat_same_sockets with (st := st); trivial.
    apply chat_message_frame.
  - now rewrite private_chat_invite_frame.
  - apply handleUserLeave_sat; trivial.
    + intros c0. apply socket_ok_clear_room.
    + intros rc c0 Hrc. apply socket_ok_leave.
      apply JMapFacts.get_In in Hc. destruct (Hg s c Hc) as (_ & _ & H3).
      now apply H3.
  - unfold on_disconnect.
    set (st0 := set_sockets _ st).
    pose proof (handleUserLeave_sat (fun k c => k <> s -> socket_ok k c)
                  s (with_rooms [] c) now st0) as H.
    destruct (handleUserLeave s (with_rooms [] c) now st0) as [st1 out].
    cbn [fst] in *.
    assert (H1 : sockets_sat (fun k c => k <> s -> socket_ok k c) st1).
    { apply H.
      - intros k c' Hin Hne. simpl in Hin. apply JMapFacts.In_set_inv in Hin.
        destruct Hin as [[= -> _]|Hin]; [congruence|now apply Hg].
      - intros c0 _ Hne. congruence.
      - intros rc c0 _ _ Hne. congruence. }
    intros k c' Hin. simpl in Hin.
    assert (Hk : In k (JMap.keys (JMap.delete s (sockets st1)))).
    { apply in_map_iff. now exists (k, c'). }
    apply JMapFacts.keys_delete_incl in Hk. destruct Hk as [_ Hne].
    apply JMapFacts.In_delete_inv in Hin. now apply H1.
  - exact Hg.
  - now rewrite on_error_frame.
Qed.

Lemma reachable_groups_ok st : reachable st -> groups_ok st.
Proof.
  induction 1 as [|st e _ IH _].
  - intros s c [].
  - now apply step_groups_ok.
Qed.

Lemma keys_ips st : map fst (ips st) = JMap.keys (sockets st).
Proof. unfold ips, JMap.keys. now rewrite map_map. Qed.

Lemma has_same_ips st st' k :
  ips st' = ips st -> JMap.has k (sockets st') = JMap.has k (sockets st).
Proof.
  intros H. rewrite !JMapFacts.has_keys, <- !keys_ips. now rewrite H.
Qed.

Lemma registry_ok_same st st' :
  userSockets st' = userSockets st -> ips st' = ips st ->
  registry_ok st -> registry_ok st'.
Proof.
  intros Hu Hi Hr k r Hin. rewrite Hu in Hin.
  rewrite (has_same_ips st st' k Hi). now apply Hr.
Qed.

Lemma registry_ok_delete st st' s :
  userSockets st' = JMap.delete s (userSockets st) ->
  (forall k, k <> s -> JMap.has k (sockets st') = JMap.has k (sockets st)) ->
  registry_ok st -> registry_ok st'.
Proof.
  intros Hu Hs Hr k r Hin. rewrite Hu in Hin.
  apply JMapFacts.In_delete in Hin. destruct Hin as [Hne Hin].
  rewrite (Hs k Hne). now apply Hr.
Qed.

Lemma step_registry_ok st e : registry_ok st -> registry_ok (next st e).
Proof.
  intros Hr. unfold next.
  destruct e as [s ip now|s rc nk now|s t sg ty|s m rc now id|s f t rc
                |s now|s now|now|s h];
    simpl; unfold on_socket;
    try (destruct (JMap.get s (sockets st)) as [c|] eqn:Hc; [|exact Hr]).
  - unfold on_connection. destruct (_ <=? _); [exact Hr|]. cbn [fst].
    intros k r Hin. simpl in *. rewrite JMapFacts.has_set.
    apply JMapFacts.In_set_inv in Hin.
    destruct Hin as [[= -> ->]|Hin].
    + now rewrite String.eqb_refl.
    + destruct (Hr k r Hin) as [-> ->]. now rewrite orb_true_r.
  - destruct (join_room_frame s rc nk now st) as (Hi & _ & Hu).
    now apply (registry_ok_same st).
  - now rewrite webrtc_signal_frame.
  - destruct (chat_message_frame s c m rc now id st) as (Hs & _ & Hu).
    apply (registry_ok_same st); trivial. unfold ips. now rewrite Hs.
  - now rewrite private_chat_invite_frame.
  - apply (registry_ok_delete st _ s); trivial.
    + apply handleUserLeave_userSockets.
    + intros k _. apply has_same_ips. apply handleUserLeave_frame.
  - apply (registry_ok_delete st _ s); trivial.
    + apply on_disconnect_userSockets.
    + intros k Hne.
      destruct (on_disconnect_effect s c now st Hc) as [Hi _].
      rewrite !JMapFacts.has_keys, <- !keys_ips, Hi.
      clear Hi. induction (ips st) as [|[k' a] l IH]; simpl; trivial.
      destruct (String.eqb s k') eqn:E; simpl.
      * apply String.eqb_eq in E; subst k'.
        apply String.eqb_neq in Hne. now rewrite Hne.
      * now rewrite IH.
  - exact Hr.
  - now rewrite on_error_frame.
Qed.

Lemma reachable_registry_ok st : reachable st -> registry_ok st.
Proof.
  induction 1 as [|st e _ IH _].
  - intros k r [].
  - now apply step_registry_ok.
Qed.

(** The room code stored for a connection is always a normalised one. *)
Lemma stored_room_code_is_clean st s c rc :
  reachable st -> JMap.get s (sockets st) = Some c ->
  roomCode (userData c) = Some rc -> is_clean rc.
Proof.
  intros Hr Hc Hrc. apply JMapFacts.get_In in Hc.
  destruct (reachable_groups_ok st Hr s c Hc) as (_ & _ & H). now apply H.
Qed.

Lemma filter_none (A : Type) (P : A -> bool) l :
  (forall x, In x l -> P x = false) -> filter P l = [].
Proof.
  induction l as [|a l IH]; simpl; intros H; trivial.
  rewrite (H a (or_introl eq_refl)). apply IH. intros x Hx. apply H.
  now right.
Qed.

Lemma filter_only (P : string * Socket -> bool) t c m :
  NoDup (JMap.keys m) -> In (t, c) m -> P (t, c) = true ->
  (forall k v, In (k, v) m -> P (k, v) = true -> k = t) ->
  JMap.keys (filter P m) = [t].
Proof.
  unfold JMap.keys.
  induction m as [|[k v] m IH]; simpl; intros Hnd Hin Ht Honly;
    [contradiction|].
  inversion Hnd as [|? ? Hni Hnd']; subst.
  assert (Hrest : forall k' v', In (k', v') m -> P (k', v') = true -> k' = t)
    by (intros k' v' H; apply Honly; now right).
  destruct Hin as [[= -> ->]|Hin].
  - rewrite Ht. simpl. f_equal.
    assert (Hnone : filter P m = []).
    { apply filter_none. intros [k' v'] Hin.
      destruct (P (k', v')) eqn:E; trivial.
      exfalso. apply Hni. apply in_map_iff. exists (k', v').
      split; trivial. simpl. now apply (Hrest k' v'). }
    now rewrite Hnone.
  - destruct (P (k, v)) eqn:E.
    + exfalso. assert (k = t) by (apply (Honly k v); [now left|exact E]).
      subst k. apply Hni. apply in_map_iff. now exists (t, c).
    + now apply IH.
Qed.

(** The group named by the id of a live socket holds that socket alone,
    unless the id could also be a normalised room code. *)
Lemma in_group_own st t c :
  reachable st -> JMap.get t (sockets st) = Some c ->
  (forall x, clean x <> t) -> in_group t st = [t].
Proof.
  intros Hr Hc Hid. unfold in_group.
  pose proof (reachable_groups_ok st Hr) as Hg.
  pose proof (reachable_counters_ok st Hr) as [Hnd _].
  rewrite keys_ips in Hnd. apply JMapFacts.get_In in Hc.
  assert (Hnc : ~ is_clean t) by (intros [x Hx]; now apply (Hid x)).
  apply filter_only with (c := c); trivial.
  - simpl. apply existsb_exists. exists t. split; [|apply String.eqb_refl].
    destruct (Hg t c Hc) as (_ & [H|H] & _); [exact H|contradiction].
  - intros k v Hin Hex. simpl in Hex. apply existsb_exists in Hex.
    destruct Hex as [g [Hgin Hgt]]. apply String.eqb_eq in Hgt. subst g.
    destruct (Hg k v Hin) as (H1 & _ & _).
    destruct (H1 t Hgin) as [H|H]; [now symmetry|contradiction].
Qed.

(* ------------------------------------------------------------------ *)
(** * Normalised strings carry no lower-case letter *)

Lemma upper_ascii_not_lower a : is_lower (upper_ascii a) = false.
Proof. destruct a as [[] [] [] [] [] [] [] []]; reflexivity. Qed.

Lemma has_lower_toUpperCase s : has_lower (toUpperCase s) = false.
Proof.
  induction s as [|a s IH]; simpl; trivial.
  now rewrite upper_ascii_not_lower, IH.
Qed.

Lemma has_lower_trimStart s :
  has_lower s = false -> has_lower (trimStart s) = false.
Proof.
  induction s as [|a s IH]; simpl; trivial.
  intros H. destruct (is_space a); trivial.
  apply orb_false_iff in H. now apply IH.
Qed.

Lemma has_lower_trimEnd s :
  has_lower s = false -> has_lower (trimEnd s) = false.
Proof.
  induction s as [|a s IH]; simpl; trivial.
  intros H. apply orb_false_iff in H. destruct H as [Ha Hs].
  specialize (IH Hs). destruct (trimEnd s) as [|b r].
  - destruct (is_space a); simpl; trivial. now rewrite Ha.
  - simpl in *. now rewrite Ha, IH.
Qed.

Lemma clean_no_lower x : has_lower (clean x) = false.
Proof.
  unfold clean, trim.
  apply has_lower_trimEnd, has_lower_trimStart, has_lower_toUpperCase.
Qed.

(** An id in which a lower-case letter occurs is no normalised room
    code. *)
Lemma lower_id_not_clean t : has_lower t = true -> forall x, clean x <> t.
Proof. intros H x <-. now rewrite clean_no_lower in H. Qed.

(* ------------------------------------------------------------------ *)
(** * private-chat-invite *)






(** The comparison with [toUser] is exact: an invite for [alice] does
    not find the session stored as ALICE. *)
Example private_invite_is_case_sensitive :
  step alice_moved
    (PrivateChatInvite "b2" (Some "BOB") (Some "alice") (Some "DEN"))
  = (alice_moved, [Log "Target user not found for private chat"]).
Proof. reflexivity. Qed.

(* ------------------------------------------------------------------ *)
(** * Laws of [JMap]: how [set], [delete] and [get] compose *)

Module JMapLaws.
Section Laws.
Variable V : Type.
Implicit Types (m : JMap.t V) (k : string) (v : V).

Lemma set_set k v v' m : JMap.set k v' (JMap.set k v m) = JMap.set k v' m.
Proof.
  induction m as [|[k' v0] m IH]; simpl.
  - now rewrite String.eqb_refl.
  - destruct (String.eqb k k') eqn:E; simpl.
    + now rewrite String.eqb_refl.
    + now rewrite E, IH.
Qed.

Lemma delete_set k v m : JMap.delete k (JMap.set k v m) = JMap.delete k m.
Proof.
  unfold JMap.delete. induction m as [|[k' v0] m IH]; simpl.
  - now rewrite String.eqb_refl.
  - destruct (String.eqb k k') eqn:E; simpl.
    + now rewrite String.eqb_refl.
    + now rewrite E, IH.
Qed.

Lemma delete_set_absent k v m :
  JMap.get k m = None -> JMap.delete k (JMap.set k v m) = m.
Proof. intros H. rewrite delete_set. now apply JMapFacts.delete_absent. Qed.

Lemma set_nonempty k v m : JMap.set k v m <> [].
Proof.
  destruct m as [|[k' v0] m]; simpl; [discriminate|].
  destruct (String.eqb k k'); discriminate.
Qed.

Lemma NoDup_keys_filter (f : string * V -> bool) m :
  NoDup (JMap.keys m) -> NoDup (JMap.keys (filter f m)).
Proof.
  unfold JMap.keys.
  induction m as [|p m IH]; simpl; intros Hnd; [constructor|].
  inversion Hnd as [|? ? Hni Hnd']; subst.
  destruct (f p); simpl; [|now apply IH].
  constructor; [|now apply IH].
  intros Hin. apply Hni. apply in_map_iff in Hin.
  destruct Hin as [q [Hq Hin]]. apply filter_In in Hin.
  apply in_map_iff. exists q. tauto.
Qed.

Lemma In_get_NoDup k v m :
  NoDup (JMap.keys m) -> In (k, v) m -> JMap.get k m = Some v.
Proof.
  unfold JMap.keys.
  induction m as [|[k' v'] m IH]; simpl; intros Hnd Hin; [contradiction|].
  inversion Hnd as [|? ? Hni Hnd']; subst.
  destruct Hin as [[= -> ->]|Hin].
  - now rewrite String.eqb_refl.
  - destruct (String.eqb k k') eqn:E; [|now apply IH].
    apply String.eqb_eq in E; subst k'. exfalso. apply Hni.
    apply in_map_iff. now exists (k, v).
Qed.

Lemma size_set_absent k v m :
  JMap.get k m = None -> JMap.size (JMap.set k v m) = S (JMap.size m).
Proof.
  intros H. rewrite (JMapFacts.set_absent V k v m H). unfold JMap.size.
  rewrite length_app. simpl. lia.
Qed.

Lemma size_delete_present k v m :
  NoDup (JMap.keys m) -> JMap.get k m = Some v ->
  S (JMap.size (JMap.delete k m)) = JMap.size m.
Proof.
  unfold JMap.keys, JMap.size, JMap.delete.
  induction m as [|[k' v'] m IH]; simpl; intros Hnd Hget; [discriminate|].
  inversion Hnd as [|? ? Hni Hnd']; subst.
  destruct (String.eqb k k') eqn:E; simpl.
  - apply String.eqb_eq in E; subst k'. f_equal. f_equal.
    apply forallb_filter_id. apply forallb_forall. intros [k2 v2] Hin. simpl.
    apply negb_true_iff, String.eqb_neq. intros ->. apply Hni.
    apply in_map_iff. now exists (k2, v2).
  - f_equal. now apply IH.
Qed.
End Laws.
End JMapLaws.

(* ------------------------------------------------------------------ *)
(** * What each handler does to the room directory *)

Lemma room_or_fresh_get c now st room :
  JMap.get c (activeRooms st) = Some room -> room_or_fresh c now st = room.
Proof. unfold room_or_fresh. now intros ->. Qed.

(** A join either leaves the directory alone (it was refused) or stores
    the joined room under the normalised code. *)
Lemma join_room_directory s rc nk now st :
  activeRooms (fst (join_room s rc nk now st)) = activeRooms st
  \/ exists rc' nk',
      rc = Some rc' /\ nk = Some nk'
      /\ invalid_request rc' nk' = false
      /\ nickname_taken s (clean nk') (room_or_fresh (clean rc') now st)
         = false
      /\ activeRooms (fst (join_room s rc nk now st))
         = JMap.set (clean rc')
             (joined_room s (clean nk') now
                (room_or_fresh (clean rc') now st))
             (activeRooms st).
Proof.
  unfold join_room.
  destruct rc as [rc|]; [|now left]. destruct nk as [nk|]; [|now left].
  destruct (invalid_request rc nk) eqn:Hv; [now left|].
  set (st1 := upd_socket s _ st).
  assert (H1 : activeRooms st1 = activeRooms st)
    by (unfold st1; now autorewrite with frame).
  unfold room_or_fresh.
  destruct (JMap.has (clean rc) (activeRooms st1)) eqn:Hhas;
    cbv beta iota zeta.
  - rewrite H1 in *. apply JMapFacts.has_true in Hhas.
    destruct Hhas as [room Hroom]. rewrite Hroom.
    destruct (nickname_taken s (clean nk) room) eqn:Ht; [left; exact H1|].
    right. exists rc, nk. rewrite Hroom. repeat split; trivial.
    cbn [fst]. autorewrite with frame. simpl. try rewrite H1. reflexivity.
  - rewrite H1 in *. apply JMapFacts.has_false in Hhas.
    cbn [activeRooms set_activeRooms].
    rewrite JMapFacts.get_set_same, nickname_taken_fresh.
    right. exists rc, nk. rewrite Hhas. repeat split; trivial.
    cbn [fst]. autorewrite with frame. simpl.
    try rewrite H1. apply JMapLaws.set_set.
Qed.

(** A leave either leaves the directory alone or takes the member out of
    the room stored under the session's room code, dropping the room when
    nobody is left. *)
Lemma handleUserLeave_directory s c now st :
  activeRooms (fst (handleUserLeave s c now st)) = activeRooms st
  \/ exists rc room,
      roomCode (userData c) = Some rc /\ rc <> ""
      /\ JMap.get rc (activeRooms st) = Some room
      /\ activeRooms (fst (handleUserLeave s c now st))
         = if JMap.size (users (left_room s now room)) =? 0
           then JMap.delete rc (activeRooms st)
           else JMap.set rc (left_room s now room) (activeRooms st).
Proof.
  unfold handleUserLeave.
  destruct (roomCode (userData c)) as [rc|] eqn:Hrc;
    [|left; now frame_simpl].
  destruct (String.eqb rc "") eqn:Hne; [left; now frame_simpl|].
  apply String.eqb_neq in Hne.
  destruct (JMap.get rc (activeRooms st)) as [room|] eqn:Hroom;
    [|left; now frame_simpl].
  right. exists rc, room. repeat split; trivial.
  cbv zeta. unfold left_room. simpl.
  destruct (JMap.size (JMap.delete s (users room)) =? 0); frame_simpl;
    trivial.
  apply JMapLaws.delete_set.
Qed.

Lemma chat_message_directory s c m rc now id st :
  activeRooms (fst (chat_message s c m rc now id st)) = activeRooms st
  \/ exists rc' room,
      JMap.get rc' (activeRooms st) = Some room
      /\ activeRooms (fst (chat_message s c m rc now id st))
         = JMap.set rc' (touch now room) (activeRooms st).
Proof.
  unfold chat_message.
  destruct (_ || _); [now left|].
  destruct m as [m|]; [|now left]. destruct rc as [rc|]; [|now left].
  destruct (_ || _); [now left|].
  destruct (JMap.get rc (activeRooms st)) as [room|] eqn:Hroom; [|now left].
  destruct (negb _); [now left|].
  right. now exists rc, room.
Qed.

Lemma on_disconnect_directory s c now st :
  activeRooms (fst (on_disconnect s c now st))
  = activeRooms
      (fst (handleUserLeave s (with_rooms [] c) now
              (set_sockets (JMap.set s (with_rooms [] c) (sockets st)) st))).
Proof.
  unfold on_disconnect.
  now destruct (handleUserLeave s (with_rooms [] c) now _).
Qed.

(* ------------------------------------------------------------------ *)
(** * The room directory stays well formed *)

Lemma dir_wf_set c r m : dir_wf m -> room_wf c r -> dir_wf (JMap.set c r m).
Proof.
  intros [Hnd Hm] Hr. split.
  - now apply JMapFacts.NoDup_keys_set.
  - intros c' r' Hin. apply JMapFacts.In_set_inv in Hin.
    destruct Hin as [[= -> ->]|Hin]; [exact Hr|now apply Hm].
Qed.

Lemma dir_wf_filter f m : dir_wf m -> dir_wf (filter f m).
Proof.
  intros [Hnd Hm]. split.
  - now apply JMapLaws.NoDup_keys_filter.
  - intros c r Hin. apply filter_In in Hin. now apply Hm.
Qed.

Lemma dir_wf_get c r m : dir_wf m -> JMap.get c m = Some r -> room_wf c r.
Proof. intros [_ Hm] H. apply Hm. now apply JMapFacts.get_In. Qed.

Lemma room_wf_joined c s n now st :
  directory_wf st ->
  room_wf c (joined_room s n now (room_or_fresh c now st)).
Proof.
  intros Hd. unfold room_or_fresh.
  destruct (JMap.get c (activeRooms st)) as [room|] eqn:Hroom.
  - destruct (dir_wf_get c room _ Hd Hroom) as (Hc & _ & Hnd & Hid).
    repeat split; simpl; trivial.
    + apply JMapLaws.set_nonempty.
    + now apply JMapFacts.NoDup_keys_set.
    + intros k m Hin. apply JMapFacts.In_set_inv in Hin.
      destruct Hin as [Heq|Hin]; [|now apply Hid].
      injection Heq as Hk Hm. now subst.
  - repeat split; simpl; try discriminate.
    + repeat constructor. intros [].
    + intros k m [Heq|[]]. injection Heq as Hk Hm. now subst.
Qed.

Lemma room_wf_left c s now room :
  room_wf c room -> JMap.size (users (left_room s now room)) <> 0 ->
  room_wf c (left_room s now room).
Proof.
  intros (Hc & _ & Hnd & Hid) Hsize. repeat split; simpl; trivial.
  - intros H. apply Hsize. simpl. now rewrite H.
  - now apply JMapFacts.NoDup_keys_delete.
  - intros k m Hin. apply JMapFacts.In_delete_inv in Hin. now apply Hid.
Qed.

Lemma room_wf_touch c now room : room_wf c room -> room_wf c (touch now room).
Proof. intros (Hc & Hne & Hnd & Hid). now repeat split. Qed.

Lemma handleUserLeave_directory_wf s c now st :
  directory_wf st ->
  dir_wf (activeRooms (fst (handleUserLeave s c now st))).
Proof.
  intros Hd.
  destruct (handleUserLeave_directory s c now st)
    as [->|(rc & room & _ & _ & Hroom & ->)]; [exact Hd|].
  destruct (JMap.size (users (left_room s now room)) =? 0) eqn:E.
  - now apply dir_wf_filter.
  - apply dir_wf_set; trivial. apply room_wf_left.
    + now apply (dir_wf_get rc room (activeRooms st)).
    + now apply Nat.eqb_neq.
Qed.

Lemma step_directory_wf st e : directory_wf st -> directory_wf (next st e).
Proof.
  intros Hd. unfold directory_wf, next.
  destruct e as [s ip now|s rc nk now|s t sg ty|s m rc now id|s f t rc
                |s now|s now|now|s h];
    simpl; unfold on_socket;
    try (destruct (JMap.get s (sockets st)) as [c|]; [|exact Hd]).
  - unfold on_connection. now destruct (_ <=? _).
  - destruct (join_room_directory s rc nk now st)
      as [->|(rc' & nk' & _ & _ & _ & _ & ->)]; [exact Hd|].
    apply dir_wf_set; trivial. now apply room_wf_joined.
  - now rewrite webrtc_signal_frame.
  - destruct (chat_message_directory s c m rc now id st)
      as [->|(rc' & room & Hroom & ->)]; [exact Hd|].
    apply dir_wf_set; trivial. apply room_wf_touch.
    now apply (dir_wf_get rc' room (activeRooms st)).
  - now rewrite private_chat_invite_frame.
  - now apply handleUserLeave_directory_wf.
  - rewrite on_disconnect_directory.
    now apply handleUserLeave_directory_wf.
  - now apply dir_wf_filter.
  - now rewrite on_error_frame.
Qed.

Lemma reachable_directory_wf st : reachable st -> directory_wf st.
Proof.
  induction 1 as [|st e _ IH _].
  - split; [constructor|intros c r []].
  - now apply step_directory_wf.
Qed.

(* ------------------------------------------------------------------ *)
(** * Invariants of the reachable states *)

(** X1.  In every reachable state, two member entries of one room that
    carry the same nickname are the entry of one connection: the scan of
    the join handler keeps nicknames unique within a room. *)
Theorem nicknames_unique st c room s1 m1 s2 m2 :
  reachable st ->
  JMap.get c (activeRooms st) = Some room ->
  JMap.get s1 (users room) = Some m1 ->
  JMap.get s2 (users room) = Some m2 ->
  m_nickname m1 = m_nickname m2 ->
  s1 = s2.
Proof.
  intros Hr Hroom H1 H2 Hn.
  apply (all_unique_get c room _ (reachable_rooms_unique st Hr) Hroom
           s1 m1 s2 m2); trivial; now apply JMapFacts.get_In.
Qed.

(** [nicknames_unique] at a concrete state of the server. *)
Lemma nicknames_unique_witness : "b2" = "b2".
Proof.
  exact (nicknames_unique alice_and_bob "LOBBY" _ "b2" _ "b2" _
           reachable_alice_and_bob eq_refl eq_refl eq_refl eq_refl).
Defined.

(** X2.  In every reachable state a room is stored under its own code,
    has at least one member, and lists every member under that member's
    own socket id, each id once. *)
Theorem directory_well_formed st c room :
  reachable st ->
  JMap.get c (activeRooms st) = Some room ->
  code room = c
  /\ 0 < JMap.size (users room)
  /\ NoDup (JMap.keys (users room))
  /\ (forall k m, JMap.get k (users room) = Some m -> m_socketId m = k).
Proof.
  intros Hr Hroom.
  destruct (dir_wf_get c room _ (reachable_directory_wf st Hr) Hroom)
    as (Hc & Hne & Hnd & Hid).
  repeat split; trivial.
  - unfold JMap.size. destruct (users room); [congruence|simpl; lia].
  - intros k m Hget. apply Hid. now apply JMapFacts.get_In.
Qed.

(** [directory_well_formed] at a concrete state of the server. *)
Lemma directory_well_formed_witness :
  exists room,
    JMap.get "LOBBY" (activeRooms alice_and_bob) = Some room
    /\ code room = "LOBBY" /\ 0 < JMap.size (users room).
Proof.
  eexists. split; [reflexivity|].
  destruct (directory_well_formed alice_and_bob "LOBBY" _
              reachable_alice_and_bob eq_refl) as (H1 & H2 & _).
  split; assumption.
Defined.

(** X3.  [GET /api/rooms] in a reachable state: [totalRooms] is the
    number of entries, no code is listed twice, and every entry reports
    the member count (never zero) and the timestamps of the room stored
    under its code. *)
Theorem api_rooms_report st :
  reachable st ->
  length (fst (api_rooms st)) = snd (api_rooms st)
  /\ NoDup (map i_code (fst (api_rooms st)))
  /\ forall i,
      In i (fst (api_rooms st)) ->
      exists room,
        JMap.get (i_code i) (activeRooms st) = Some room
        /\ i_userCount i = JMap.size (users room)
        /\ 0 < i_userCount i
        /\ i_created i = created room
        /\ i_lastActivity i = lastActivity room.
Proof.
  intros Hr. pose proof (reachable_directory_wf st Hr) as [Hnd Hwf].
  unfold api_rooms. simpl. repeat split.
  - apply length_map.
  - rewrite map_map. simpl. exact Hnd.
  - intros i Hin. apply in_map_iff in Hin.
    destruct Hin as [[c room] [<- Hin]]. simpl.
    exists room. repeat split.
    + now apply JMapLaws.In_get_NoDup.
    + destruct (Hwf c room Hin) as (_ & Hne & _).
      unfold JMap.size. destruct (users room); [congruence|simpl; lia].
Qed.

(** [api_rooms_report] at a concrete state of the server. *)
Lemma api_rooms_report_witness :
  snd (api_rooms alice_moved) = 2
  /\ map i_code (fst (api_rooms alice_moved)) = ["LOBBY"; "OTHER"]
  /\ NoDup (map i_code (fst (api_rooms alice_moved))).
Proof.
  repeat split.
  exact (proj1 (proj2 (api_rooms_report alice_moved reachable_alice_moved))).
Defined.

Lemma step_userSockets_nodup st e :
  NoDup (JMap.keys (userSockets st)) ->
  NoDup (JMap.keys (userSockets (next st e))).
Proof.
  intros Hnd. unfold next.
  destruct e as [s ip now|s rc nk now|s t sg ty|s m rc now id|s f t rc
                |s now|s now|now|s h];
    simpl; unfold on_socket;
    try (destruct (JMap.get s (sockets st)) as [c|]; [|exact Hnd]).
  - unfold on_connection. destruct (_ <=? _); [exact Hnd|]. simpl.
    now apply JMapFacts.NoDup_keys_set.
  - destruct (join_room_frame s rc nk now st) as (_ & _ & ->). exact Hnd.
  - now rewrite webrtc_signal_frame.
  - destruct (chat_message_frame s c m rc now id st) as (_ & _ & ->).
    exact Hnd.
  - now rewrite private_chat_invite_frame.
  - rewrite handleUserLeave_userSockets.
    now apply JMapFacts.NoDup_keys_delete.
  - rewrite on_disconnect_userSockets.
    now apply JMapFacts.NoDup_keys_delete.
  - exact Hnd.
  - now rewrite on_error_frame.
Qed.

Lemma reachable_userSockets_nodup st :
  reachable st -> NoDup (JMap.keys (userSockets st)).
Proof.
  induction 1 as [|st e _ IH _]; [constructor|].
  now apply step_userSockets_nodup.
Qed.

(** X4.  In every reachable state each entry of [userSockets] belongs to
    an open connection and refers to that connection's own [userData],
    and no connection has two entries; so [connectedUsers] of [GET /]
    never exceeds the number of open connections. *)
Theorem registry_sound st :
  reachable st ->
  (forall k ud,
      session st k = Some ud ->
      exists c, JMap.get k (sockets st) = Some c /\ userData c = ud)
  /\ NoDup (JMap.keys (userSockets st))
  /\ h_connectedUsers (health st) <= JMap.size (sockets st).
Proof.
  intros Hr. pose proof (reachable_registry_ok st Hr) as Hreg.
  pose proof (reachable_userSockets_nodup st Hr) as Hnd.
  repeat split; trivial.
  - intros k ud Hs. unfold session in Hs.
    destruct (JMap.get k (userSockets st)) as [r|] eqn:Hget; [|discriminate].
    apply JMapFacts.get_In in Hget. destruct (Hreg k r Hget) as [-> _].
    unfold deref in Hs.
    destruct (JMap.get k (sockets st)) as [c|]; [|discriminate].
    exists c. split; trivial. simpl in Hs. congruence.
  - simpl. unfold JMap.size.
    rewrite <- (length_map fst (userSockets st)),
            <- (length_map fst (sockets st)).
    apply NoDup_incl_length; [exact Hnd|].
    intros k Hk. apply in_map_iff in Hk. destruct Hk as [[k' r] [<- Hin]].
    simpl. destruct (Hreg k' r Hin) as [_ Hlive].
    rewrite JMapFacts.has_keys in Hlive. apply existsb_exists in Hlive.
    destruct Hlive as [x [Hx Heq]]. apply String.eqb_eq in Heq. now subst.
Qed.

(** [registry_sound] at a concrete state of the server. *)
Lemma registry_sound_witness :
  h_connectedUsers (health alice_moved) <= JMap.size (sockets alice_moved).
Proof.
  exact (proj2 (proj2 (registry_sound alice_moved reachable_alice_moved))).
Defined.

(** X5.  No address ever holds more than 10 open connections, and the
    count kept for an address is never above 10. *)
Theorem address_cap st ip :
  reachable st ->
  open_from ip st <= MAX_CONNECTIONS_PER_IP
  /\ counter ip st <= MAX_CONNECTIONS_PER_IP.
Proof.
  intros Hr.
  assert (H : open_from ip st <= MAX_CONNECTIONS_PER_IP).
  { induction Hr as [|st e Hr IH Hadm]; [apply Nat.le_0_l|].
    pose proof (reachable_counters_ok st Hr) as [Hnd Hc].
    assert (Hsame : ips (next st e) = ips st ->
                    open_from ip (next st e) <= MAX_CONNECTIONS_PER_IP)
      by (intros Hi; unfold open_from; rewrite Hi; exact IH).
    pose proof (step_frame st e) as Hf.
    destruct e as [s ip' now|s rc nk now|s t sg ty|s m rc now id|s f t rc
                  |s now|s now|now|s h];
      try (apply Hsame; apply Hf).
    - pose proof (reachable_counters_ok _
                    (@reachable_step st _ Hr Hadm)) as [_ Hc'].
      rewrite <- Hc'. unfold next. simpl.
      destruct (Nat.le_gt_cases MAX_CONNECTIONS_PER_IP (counter ip' st))
        as [H|H].
      + rewrite on_connection_rejected by assumption. simpl.
        rewrite Hc. exact IH.
      + rewrite on_connection_accepted by assumption. cbn [fst].
        destruct (String.eqb ip ip') eqn:E.
        * apply String.eqb_eq in E; subst ip'.
          unfold counter at 1. simpl. rewrite JMapFacts.get_set_same.
          unfold MAX_CONNECTIONS_PER_IP in *. lia.
        * apply String.eqb_neq in E.
          unfold counter at 1. simpl.
          rewrite JMapFacts.get_set_other by assumption.
          fold (counter ip st). rewrite Hc. exact IH.
    - unfold next. simpl. unfold on_socket.
      destruct (JMap.get s (sockets st)) as [c|] eqn:Hget; [|exact IH].
      destruct (on_disconnect_effect s c now st Hget) as [Hips _].
      unfold open_from. rewrite Hips. unfold open_in.
      etransitivity; [|exact IH]. unfold open_from, open_in.
      clear. induction (ips st) as [|[k a] l IHl]; simpl; trivial.
      destruct (negb (String.eqb s k)); simpl;
        destruct (String.eqb a ip); simpl; lia. }
  split; trivial.
  now rewrite (proj2 (reachable_counters_ok st Hr) ip).
Qed.

(** [address_cap] at a concrete state of the server. *)
Lemma address_cap_witness : open_from "10.0.0.1" full_house <= 10.
Proof.
  exact (proj1 (address_cap full_house "10.0.0.1" reachable_full_house)).
Defined.

(* ------------------------------------------------------------------ *)
(** * join-room: validation, success, round trip *)

Lemma invalid_request_false rc nk :
  invalid_request rc nk = false <->
  rc <> "" /\ nk <> "" /\ String.length rc <= 50 /\ String.length nk <= 16.
Proof.
  unfold invalid_request. rewrite !orb_false_iff.
  rewrite !Nat.ltb_ge. split.
  - intros [[[H1 H2] H3] H4]. apply String.eqb_neq in H1, H2. tauto.
  - intros (H1 & H2 & H3 & H4). apply String.eqb_neq in H1, H2. tauto.
Qed.

(** A join whose fields pass validation is never answered with the
    validation error. *)
Lemma join_room_valid_no_invalid s rc nk now st a to :
  invalid_request rc nk = false ->
  ~ In (Emit a to (JoinError "Invalid room code or nickname"))
       (snd (join_room s (Some rc) (Some nk) now st)).
Proof.
  intros Hv. unfold join_room. rewrite Hv.
  set (st1 := upd_socket s _ st). clearbody st1.
  destruct (JMap.has (clean rc) (activeRooms st1)); cbv beta iota zeta;
    (destruct (JMap.get (clean rc) _); [destruct (nickname_taken _ _ _)|]);
    simpl; intros H;
    repeat (destruct H as [H|H]; [discriminate H|]); exact H.
Qed.

(** X6.  A join-room whose payload is an object in which the room code
    or the nickname is missing or the empty string, or in which the room
    code has more than 50 characters or the nickname more than 16
    (counted before normalisation), is answered with exactly one
    [join-error] "Invalid room code or nickname" to the sender; fields
    that are not empty and have at most 50 and 16 characters never get
    this answer.  A join-room that arrives without payload makes the
    handler throw at its first statement: the [catch] block logs
    "Error in join-room" and answers with one [join-error] "Failed to
    join room".  In both cases the state does not change. *)
Theorem join_rejects_invalid st s c :
  JMap.get s (sockets st) = Some c ->
  (forall rc nk now,
      truthy rc = false \/ truthy nk = false
      \/ (exists r, rc = Some r /\ 50 < String.length r)
      \/ (exists n, nk = Some n /\ 16 < String.length n) ->
      step st (JoinRoom s rc nk now)
      = (st, [emit_self s (JoinError "Invalid room code or nickname")]))
  /\ (forall rc nk now a to,
         rc <> "" -> nk <> "" ->
         String.length rc <= 50 -> String.length nk <= 16 ->
         ~ In (Emit a to (JoinError "Invalid room code or nickname"))
              (output st (JoinRoom s (Some rc) (Some nk) now)))
  /\ step st (NoPayload s OnJoinRoom)
     = (st, [Log "Error in join-room";
             emit_self s (JoinError "Failed to join room")]).
Proof.
  intros Hc. split; [|split].
  - intros rc nk now Hbad. simpl. unfold on_socket. rewrite Hc.
    unfold join_room.
    destruct rc as [rc|]; [|reflexivity].
    destruct nk as [nk|]; [|reflexivity].
    assert (Hinv : invalid_request rc nk = true).
    { apply not_false_iff_true. intros Hf. apply invalid_request_false in Hf.
      destruct Hf as (H1 & H2 & H3 & H4).
      destruct Hbad as [H|[H|[[r [[= <-] H]]|[n [[= <-] H]]]]]; simpl in H.
      - apply negb_false_iff, String.eqb_eq in H. contradiction.
      - apply negb_false_iff, String.eqb_eq in H. contradiction.
      - lia.
      - lia. }
    now rewrite Hinv.
  - intros rc nk now a to H1 H2 H3 H4. unfold output. simpl.
    unfold on_socket. rewrite Hc. apply join_room_valid_no_invalid.
    apply invalid_request_false. tauto.
  - simpl. unfold on_socket. now rewrite Hc.
Qed.

(** [join_rejects_invalid] at a concrete state of the server. *)
Lemma join_rejects_invalid_witness :
  step alice_and_bob (JoinRoom "b2" (Some "den") None 5%Z)
  = (alice_and_bob,
     [Emit (ToSelf "b2") ["b2"] (JoinError "Invalid room code or nickname")])
  /\ step alice_and_bob (NoPayload "b2" OnJoinRoom)
     = (alice_and_bob,
        [Log "Error in join-room";
         Emit (ToSelf "b2") ["b2"] (JoinError "Failed to join room")]).
Proof.
  destruct (join_rejects_invalid alice_and_bob "b2" _ eq_refl)
    as (Hbad & _ & Hnone).
  split; [|exact Hnone].
  apply (Hbad (Some "den") None 5%Z). right. left. reflexivity.
Defined.

(** The state and the emissions of a join that goes through. *)
Lemma join_room_accepted s rc nk now st :
  invalid_request rc nk = false ->
  nickname_taken s (clean nk) (room_or_fresh (clean rc) now st) = false ->
  let room' :=
    joined_room s (clean nk) now (room_or_fresh (clean rc) now st) in
  let st' :=
    upd_socket s (socket_join (clean rc))
      (set_activeRooms (JMap.set (clean rc) room' (activeRooms st))
         (upd_socket s (set_identity (Some (clean nk)) (Some (clean rc)))
            st)) in
  fst (join_room s (Some rc) (Some nk) now st) = st'
  /\ emissions (snd (join_room s (Some rc) (Some nk) now st))
     = [emit_self s
          (RoomJoined (clean rc) (clean nk) (JMap.size (users room')));
        emit_all (clean rc) st'
          (UsersUpdated (roster (Some s) room') (JMap.size (users room')));
        emit_others s (clean rc) st' (UserJoined s (clean nk))].
Proof.
  intros Hv Hfree. cbv zeta. unfold join_room. rewrite Hv.
  set (st1 := upd_socket s _ st) in *.
  assert (H1 : activeRooms st1 = activeRooms st)
    by (unfold st1; now autorewrite with frame).
  unfold joined_room, room_or_fresh in *.
  destruct (JMap.has (clean rc) (activeRooms st1)) eqn:Hhas;
    cbv beta iota zeta; rewrite H1 in Hhas.
  - apply JMapFacts.has_true in Hhas. destruct Hhas as [room Hroom].
    rewrite Hroom in *. rewrite H1, Hroom, Hfree. cbn [fst snd app].
    split; reflexivity.
  - apply JMapFacts.has_false in Hhas. rewrite Hhas in *.
    cbn [activeRooms set_activeRooms].
    rewrite JMapFacts.get_set_same, nickname_taken_fresh.
    cbn [fst snd app]. rewrite JMapLaws.set_set, H1.
    split; reflexivity.
Qed.

Lemma In_rooms_socket_join g c : In g (rooms (socket_join g c)).
Proof.
  unfold socket_join. destruct (existsb (String.eqb g) (rooms c)) eqn:E.
  - apply existsb_exists in E. destruct E as [x [Hx Heq]].
    apply String.eqb_eq in Heq. now subst.
  - simpl. apply in_app_iff. right. now left.
Qed.

Lemma In_rooms_socket_join_other g g' nick room c :
  In g' (rooms c) ->
  In g' (rooms (socket_join g (set_identity nick room c))).
Proof.
  intros H. unfold socket_join. simpl.
  destruct (existsb (String.eqb g) (rooms c)); simpl; trivial.
  apply in_app_iff. now left.
Qed.

(** X7.  A join that passes validation, for a nickname that no other
    connection holds in the target room, goes through.  Afterwards the
    room stored under the normalised code lists the connection under the
    normalised nickname and keeps every other member; the directory has
    grown by one room exactly when the code was new; the closure carries
    the normalised nickname and code and the socket is in the room's
    group.  The emissions are the acknowledgment with the member count
    to the joiner, the roster to the whole group (the joiner included),
    and [user-joined] to the sockets of the group that are not in the
    group named by the joiner's id: the joiner is left out provided it
    is in that group, and when it is the only one in it, everybody else
    in the room's group is reached. *)
Theorem join_success st s c rc nk now :
  JMap.get s (sockets st) = Some c ->
  invalid_request rc nk = false ->
  (forall k u, In (k, u) (users (room_or_fresh (clean rc) now st)) ->
               m_nickname u = clean nk -> k = s) ->
  let e := JoinRoom s (Some rc) (Some nk) now in
  let room0 := room_or_fresh (clean rc) now st in
  let room' := joined_room s (clean nk) now room0 in
  let st' := next st e in
  JMap.get (clean rc) (activeRooms st') = Some room'
  /\ JMap.get s (users room') = Some (mkMember s (clean nk) now)
  /\ (forall k, k <> s -> JMap.get k (users room') = JMap.get k (users room0))
  /\ (forall c', c' <> clean rc ->
                 JMap.get c' (activeRooms st') = JMap.get c' (activeRooms st))
  /\ JMap.size (activeRooms st')
     = (if JMap.has (clean rc) (activeRooms st)
        then JMap.size (activeRooms st) else S (JMap.size (activeRooms st)))
  /\ JMap.get s (sockets st')
     = Some (socket_join (clean rc)
               (set_identity (Some (clean nk)) (Some (clean rc)) c))
  /\ emissions (output st e)
     = [Emit (ToSelf s) [s]
          (RoomJoined (clean rc) (clean nk) (JMap.size (users room')));
        Emit (ToAll (clean rc)) (in_group (clean rc) st')
          (UsersUpdated (roster (Some s) room') (JMap.size (users room')));
        Emit (ToOthers s (clean rc)) (others s (clean rc) st')
          (UserJoined s (clean nk))]
  /\ In s (in_group (clean rc) st')
  /\ (forall x, In x (others s (clean rc) st') <->
                In x (in_group (clean rc) st') /\ ~ In x (in_group s st'))
  /\ (In s (rooms c) -> ~ In s (others s (clean rc) st'))
  /\ (in_group s st' = [s] ->
      forall x, In x (others s (clean rc) st') <->
                In x (in_group (clean rc) st') /\ x <> s).
Proof.
  intros Hc Hv Hfree e room0 room' st'.
  apply nickname_taken_false in Hfree.
  destruct (join_room_accepted s rc nk now st Hv Hfree) as [Hst Hout].
  assert (Hst' : st' = fst (join_room s (Some rc) (Some nk) now st)).
  { unfold st', next, e. simpl. unfold on_socket. now rewrite Hc. }
  assert (Hout' : output st e = snd (join_room s (Some rc) (Some nk) now st)).
  { unfold output, e. simpl. unfold on_socket. now rewrite Hc. }
  rewrite Hout', Hout. rewrite <- Hst, <- Hst'. fold room0 room'.
  assert (Hdir : activeRooms st'
                 = JMap.set (clean rc) room' (activeRooms st)).
  { rewrite Hst', Hst. now autorewrite with frame. }
  assert (Hsock : JMap.get s (sockets st')
                  = Some (socket_join (clean rc)
                            (set_identity (Some (clean nk))
                               (Some (clean rc)) c))).
  { rewrite Hst', Hst. rewrite get_upd_socket_same. simpl.
    rewrite get_upd_socket_same, Hc. reflexivity. }
  rewrite Hdir.
  split; [apply JMapFacts.get_set_same|].
  split; [apply JMapFacts.get_set_same|].
  split; [intros k Hk; simpl; now apply JMapFacts.get_set_other|].
  split; [intros c' Hc'; now apply JMapFacts.get_set_other|].
  split.
  { unfold JMap.has.
    destruct (JMap.get (clean rc) (activeRooms st)) as [r|] eqn:E.
    + now apply JMapFacts.size_set_present with (v0 := r).
    + now apply JMapLaws.size_set_absent. }
  split; [exact Hsock|]. split; [reflexivity|].
  split; [apply (In_in_group _ _ _ _ Hsock); apply In_rooms_socket_join|].
  split; [intros x; apply In_others|].
  split.
  - intros Hown. apply (not_In_others s _ (clean rc) st' Hsock).
    now apply In_rooms_socket_join_other.
  - intros Halone x. rewrite In_others, Halone.
    split; intros [H1 H2]; split; trivial.
    + intros ->. apply H2. now left.
    + intros [->|[]]. now apply H2.
Qed.

(** [join_success] at a concrete state of the server: BOB joins LOBBY,
    where ALICE is. *)
Lemma join_success_witness :
  emissions (output alice_in_lobby
               (JoinRoom "b2" (Some " lobby ") (Some "bob") 4%Z))
  = [Emit (ToSelf "b2") ["b2"] (RoomJoined "LOBBY" "BOB" 2);
     Emit (ToAll "LOBBY") ["a1"; "b2"]
       (UsersUpdated [mkRosterEntry "a1" "ALICE" (Some false);
                      mkRosterEntry "b2" "BOB" (Some true)] 2);
     Emit (ToOthers "b2" "LOBBY") ["a1"] (UserJoined "b2" "BOB")]
  /\ ~ In "b2" (others "b2" "LOBBY" alice_and_bob).
Proof.
  assert (Hfree : forall k u,
             In (k, u)
               (users (room_or_fresh (clean " lobby ") 4%Z alice_in_lobby)) ->
             m_nickname u = clean "bob" -> k = "b2").
  { intros k u [H|[]]. injection H as <- <-. discriminate. }
  destruct (join_success alice_in_lobby "b2" _ " lobby " "bob" 4%Z
              eq_refl eq_refl Hfree)
    as (_ & _ & _ & _ & _ & _ & Hem & _ & _ & Hout & _).
  split; [exact Hem|]. apply Hout. now left.
Defined.

(* ------------------------------------------------------------------ *)
(** * leave-room and disconnect: effects *)

Lemma userData_socket_join g c : userData (socket_join g c) = userData c.
Proof. unfold socket_join. now destruct (existsb _ _). Qed.

(** The state and the emissions of [handleUserLeave] when the room of
    the session is in the directory. *)
Lemma handleUserLeave_in_room s c now st rc room :
  roomCode (userData c) = Some rc -> rc <> "" ->
  JMap.get rc (activeRooms st) = Some room ->
  fst (handleUserLeave s c now st)
  = upd_socket s clear_room
      (set_userSockets (JMap.delete s (userSockets st))
         (upd_socket s (socket_leave rc)
            (set_activeRooms
               (directory_without s rc now room (activeRooms st)) st)))
  /\ snd (handleUserLeave s c now st)
     = [emit_others s rc st (UserLeft s (nickname (userData c)));
        emit_all rc st
          (UsersUpdated (roster None (left_room s now room))
             (JMap.size (users (left_room s now room))))]
       ++ (if JMap.size (users (left_room s now room)) =? 0
           then [Log "Empty room removed"; Log "User left room"]
           else [Log "User left room"]).
Proof.
  intros Hrc Hne Hroom. unfold handleUserLeave, directory_without.
  rewrite Hrc. apply String.eqb_neq in Hne. rewrite Hne, Hroom.
  cbv zeta. unfold left_room. simpl.
  destruct (JMap.size (JMap.delete s (users room)) =? 0); cbn [fst snd];
    autorewrite with frame; simpl; [rewrite JMapLaws.delete_set|];
    split; reflexivity.
Qed.

(** ... and when it is not, or the session has no room. *)
Lemma handleUserLeave_no_room s c now st :
  (roomCode (userData c) = None \/ roomCode (userData c) = Some ""
   \/ exists rc, roomCode (userData c) = Some rc
                 /\ JMap.get rc (activeRooms st) = None) ->
  activeRooms (fst (handleUserLeave s c now st)) = activeRooms st
  /\ snd (handleUserLeave s c now st) = []
  /\ JMap.get s (sockets (fst (handleUserLeave s c now st)))
     = option_map
         (fun c0 =>
            clear_room
              (match roomCode (userData c) with
               | Some rc => if String.eqb rc "" then c0
                            else socket_leave rc c0
               | None => c0
               end))
         (JMap.get s (sockets st)).
Proof.
  intros H. unfold handleUserLeave.
  destruct (roomCode (userData c)) as [rc|] eqn:Hrc.
  - destruct (String.eqb rc "") eqn:E.
    + cbn [fst snd]. autorewrite with frame. simpl.
      rewrite get_upd_socket_same. simpl. repeat split.
    + assert (Hnone : JMap.get rc (activeRooms st) = None).
      { destruct H as [H|[H|[rc' [[= <-] H]]]]; trivial; try discriminate.
        injection H as ->. discriminate E. }
      rewrite Hnone. cbn [fst snd]. autorewrite with frame. simpl.
      rewrite get_upd_socket_same. simpl. rewrite get_upd_socket_same.
      repeat split.
      * now autorewrite with frame.
      * now destruct (JMap.get s (sockets st)).
  - cbn [fst snd]. autorewrite with frame. simpl.
    rewrite get_upd_socket_same. simpl. repeat split.
Qed.

Lemma handleUserLeave_other s s' c now st :
  s' <> s ->
  JMap.get s' (sockets (fst (handleUserLeave s c now st)))
  = JMap.get s' (sockets st).
Proof.
  intros Hne. unfold handleUserLeave. break_tests; cbn [fst];
    repeat (progress (simpl; try rewrite get_upd_socket_other by assumption));
    reflexivity.
Qed.

Lemma join_room_other s s' rc nk now st :
  s' <> s ->
  JMap.get s' (sockets (fst (join_room s rc nk now st)))
  = JMap.get s' (sockets st).
Proof.
  intros Hne. unfold join_room. break_tests; cbn [fst];
    repeat (progress (simpl; try rewrite get_upd_socket_other by assumption));
    reflexivity.
Qed.

Lemma left_room_get_same s now room :
  JMap.get s (users (left_room s now room)) = None.
Proof. simpl. apply JMapFacts.get_delete_same. Qed.

Lemma directory_without_get_other s rc now room dir c' :
  c' <> rc ->
  JMap.get c' (directory_without s rc now room dir) = JMap.get c' dir.
Proof.
  intros Hne. unfold directory_without. destruct (_ =? 0).
  - now apply JMapFacts.get_delete_other.
  - now apply JMapFacts.get_set_other.
Qed.

(** X8.  [leave-room] of a connection whose room code is not the
    empty string and whose room is in the directory: the member entry of
    the connection is removed and every other entry kept; the room
    disappears from the directory exactly when nobody is left, and is
    otherwise stored with [lastActivity] set to now; no other room is
    touched.  [user-left] goes to the sockets of the room's group that
    are not in the group named by the leaver's id (so not to the leaver,
    provided it is in that group), then the roster goes to the whole
    group, the leaving socket included if it is in the group at that
    moment.  The closure keeps its nickname and loses its room code, the
    socket leaves the group, and the connection's entry in [userSockets]
    is deleted. *)
Theorem leave_effect st s c rc room now :
  JMap.get s (sockets st) = Some c ->
  roomCode (userData c) = Some rc -> rc <> "" ->
  JMap.get rc (activeRooms st) = Some room ->
  let st' := next st (LeaveRoom s now) in
  let room' := left_room s now room in
  (JMap.size (users room') = 0 -> JMap.get rc (activeRooms st') = None)
  /\ (JMap.size (users room') <> 0 ->
      JMap.get rc (activeRooms st') = Some room')
  /\ JMap.get s (users room') = None
  /\ (forall k, k <> s -> JMap.get k (users room') = JMap.get k (users room))
  /\ lastActivity room' = now
  /\ (forall c', c' <> rc ->
                 JMap.get c' (activeRooms st') = JMap.get c' (activeRooms st))
  /\ emissions (output st (LeaveRoom s now))
     = [Emit (ToOthers s rc) (others s rc st)
          (UserLeft s (nickname (userData c)));
        Emit (ToAll rc) (in_group rc st)
          (UsersUpdated (roster None room') (JMap.size (users room')))]
  /\ (In s (rooms c) -> ~ In s (others s rc st))
  /\ (In rc (rooms c) -> In s (in_group rc st))
  /\ JMap.get s (sockets st') = Some (clear_room (socket_leave rc c))
  /\ ~ In rc (rooms (clear_room (socket_leave rc c)))
  /\ userSockets st' = JMap.delete s (userSockets st).
Proof.
  intros Hc Hrc Hne Hroom st' room'.
  destruct (handleUserLeave_in_room s c now st rc room Hrc Hne Hroom)
    as [Hst Hout].
  assert (Hst' : st' = fst (handleUserLeave s c now st)).
  { unfold st', next. simpl. unfold on_socket. now rewrite Hc. }
  assert (Hout' : output st (LeaveRoom s now)
                  = snd (handleUserLeave s c now st)).
  { unfold output. simpl. unfold on_socket. now rewrite Hc. }
  assert (Hdir : activeRooms st'
                 = directory_without s rc now room (activeRooms st)).
  { rewrite Hst', Hst. frame_simpl. reflexivity. }
  rewrite Hdir, Hout', Hout. fold room'. repeat split.
  - intros H0. unfold directory_without. fold room'.
    apply Nat.eqb_eq in H0. rewrite H0. apply JMapFacts.get_delete_same.
  - intros H0. unfold directory_without. fold room'.
    apply Nat.eqb_neq in H0. rewrite H0. apply JMapFacts.get_set_same.
  - apply left_room_get_same.
  - intros k Hk. simpl. now apply JMapFacts.get_delete_other.
  - intros c' Hc'. now apply directory_without_get_other.
  - now destruct (JMap.size (users room') =? 0).
  - intros Hown. now apply (not_In_others s c).
  - intros Hin. now apply (In_in_group rc s c st).
  - rewrite Hst', Hst. rewrite get_upd_socket_same. simpl.
    rewrite get_upd_socket_same. simpl. now rewrite Hc.
  - simpl. intros Hin. apply filter_In in Hin. destruct Hin as [_ Hb].
    now rewrite String.eqb_refl in Hb.
  - rewrite Hst'. apply handleUserLeave_userSockets.
Qed.

(** [leave_effect] at a concrete state of the server: BOB leaves LOBBY,
    where ALICE stays. *)
Lemma leave_effect_witness :
  emissions (output alice_and_bob (LeaveRoom "b2" 9%Z))
  = [Emit (ToOthers "b2" "LOBBY") ["a1"] (UserLeft "b2" (Some "BOB"));
     Emit (ToAll "LOBBY") ["a1"; "b2"]
       (UsersUpdated [mkRosterEntry "a1" "ALICE" None] 1)]
  /\ JMap.keys (userSockets (next alice_and_bob (LeaveRoom "b2" 9%Z)))
     = ["a1"].
Proof.
  assert (Hne : "LOBBY" <> "") by discriminate.
  destruct (leave_effect alice_and_bob "b2" _ "LOBBY" _ 9%Z
              eq_refl eq_refl Hne eq_refl)
    as (_ & _ & _ & _ & _ & _ & Hem & _ & _ & _ & _ & Hus).
  split; [exact Hem|]. now rewrite Hus.
Defined.

(** The directory and the closure of the joiner after a join that goes
    through. *)
Lemma join_event_state st s c rc nk now :
  JMap.get s (sockets st) = Some c ->
  invalid_request rc nk = false ->
  nickname_taken s (clean nk) (room_or_fresh (clean rc) now st) = false ->
  let st' := next st (JoinRoom s (Some rc) (Some nk) now) in
  activeRooms st'
  = JMap.set (clean rc)
      (joined_room s (clean nk) now (room_or_fresh (clean rc) now st))
      (activeRooms st)
  /\ JMap.get s (sockets st')
     = Some (socket_join (clean rc)
               (set_identity (Some (clean nk)) (Some (clean rc)) c)).
Proof.
  intros Hc Hv Hfree st'.
  destruct (join_room_accepted s rc nk now st Hv Hfree) as [Hst _].
  assert (Hst' : st' = fst (join_room s (Some rc) (Some nk) now st)).
  { unfold st', next. simpl. unfold on_socket. now rewrite Hc. }
  rewrite Hst', Hst. split.
  - now autorewrite with frame.
  - rewrite get_upd_socket_same. simpl.
    now rewrite get_upd_socket_same, Hc.
Qed.

Lemma handleUserLeave_activeRooms s c now st :
  activeRooms (fst (handleUserLeave s c now st))
  = match roomCode (userData c) with
    | Some rc =>
        if String.eqb rc "" then activeRooms st
        else match JMap.get rc (activeRooms st) with
             | Some room => directory_without s rc now room (activeRooms st)
             | None => activeRooms st
             end
    | None => activeRooms st
    end.
Proof.
  destruct (roomCode (userData c)) as [rc|] eqn:Hrc.
  - destruct (String.eqb rc "") eqn:E.
    + apply String.eqb_eq in E. subst rc.
      apply (handleUserLeave_no_room s c now st). auto.
    + apply String.eqb_neq in E.
      destruct (JMap.get rc (activeRooms st)) as [room|] eqn:Hroom.
      * destruct (handleUserLeave_in_room s c now st rc room Hrc E Hroom)
          as [-> _]. frame_simpl. reflexivity.
      * apply (handleUserLeave_no_room s c now st). right. right.
        now exists rc.
  - apply (handleUserLeave_no_room s c now st). auto.
Qed.

(** X9.  A join that passes validation, with a room code that is not
    empty after normalisation, for a room that is not in the directory,
    followed by [leave-room], restores the directory: the room the join
    created is removed when its only member leaves.  The closure of the
    connection keeps the normalised nickname and has no room code, and
    the connection is no longer listed in [userSockets]: it has no
    session in the registry any more. *)
Theorem join_then_leave st s c rc nk now now' :
  JMap.get s (sockets st) = Some c ->
  invalid_request rc nk = false ->
  clean rc <> "" ->
  JMap.get (clean rc) (activeRooms st) = None ->
  let st1 := next st (JoinRoom s (Some rc) (Some nk) now) in
  let st2 := next st1 (LeaveRoom s now') in
  JMap.has (clean rc) (activeRooms st1) = true
  /\ activeRooms st2 = activeRooms st
  /\ (exists c2,
        JMap.get s (sockets st2) = Some c2
        /\ nickname (userData c2) = Some (clean nk)
        /\ roomCode (userData c2) = None)
  /\ JMap.has s (userSockets st2) = false
  /\ session st2 s = None.
Proof.
  intros Hc Hv Hne Habs st1 st2.
  assert (Hfresh : room_or_fresh (clean rc) now st = fresh_room (clean rc) now)
    by (unfold room_or_fresh; now rewrite Habs).
  assert (Hfree : nickname_taken s (clean nk)
                    (room_or_fresh (clean rc) now st) = false)
    by (now rewrite Hfresh).
  destruct (join_room_accepted s rc nk now st Hv Hfree) as [Hst _].
  assert (Hst1 : st1 = fst (join_room s (Some rc) (Some nk) now st)).
  { unfold st1, next. simpl. unfold on_socket. now rewrite Hc. }
  rewrite Hst, Hfresh in Hst1.
  set (room' := joined_room s (clean nk) now (fresh_room (clean rc) now))
    in *.
  set (c1 := socket_join (clean rc)
               (set_identity (Some (clean nk)) (Some (clean rc)) c)).
  assert (Hd1 : activeRooms st1
                = JMap.set (clean rc) room' (activeRooms st))
    by (rewrite Hst1; now autorewrite with frame).
  assert (Hc1 : JMap.get s (sockets st1) = Some c1).
  { rewrite Hst1, get_upd_socket_same. simpl.
    now rewrite get_upd_socket_same, Hc. }
  assert (Hrc1 : roomCode (userData c1) = Some (clean rc))
    by (unfold c1; now rewrite userData_socket_join).
  assert (Hn1 : nickname (userData c1) = Some (clean nk))
    by (unfold c1; now rewrite userData_socket_join).
  assert (Hroom1 : JMap.get (clean rc) (activeRooms st1) = Some room')
    by (rewrite Hd1; apply JMapFacts.get_set_same).
  assert (Hst2 : st2 = fst (handleUserLeave s c1 now' st1)).
  { unfold st2, next. simpl. unfold on_socket. now rewrite Hc1. }
  assert (Hus : JMap.get s (userSockets st2) = None).
  { rewrite Hst2, handleUserLeave_userSockets.
    apply JMapFacts.get_delete_same. }
  split; [|split; [|split; [|split]]].
  - apply JMapFacts.has_true. now exists room'.
  - rewrite Hst2, handleUserLeave_activeRooms, Hrc1.
    apply String.eqb_neq in Hne. rewrite Hne, Hroom1.
    unfold directory_without. simpl. rewrite String.eqb_refl. simpl.
    rewrite Hd1. now apply JMapLaws.delete_set_absent.
  - destruct (handleUserLeave_in_room s c1 now' st1 (clean rc) room'
                Hrc1 Hne Hroom1) as [Hfst _].
    exists (clear_room (socket_leave (clean rc) c1)). split.
    + rewrite Hst2, Hfst, get_upd_socket_same.
      cbn [sockets set_userSockets]. rewrite get_upd_socket_same.
      cbn [sockets set_activeRooms]. now rewrite Hc1.
    + simpl. now rewrite Hn1.
  - now apply JMapFacts.has_false.
  - unfold session. now rewrite Hus.
Qed.

(** [join_then_leave] at a concrete state of the server. *)
Lemma join_then_leave_witness :
  activeRooms
    (next (next alice_and_bob (JoinRoom "b2" (Some "den") (Some "bob") 8%Z))
       (LeaveRoom "b2" 9%Z))
  = activeRooms alice_and_bob
  /\ session
       (next (next alice_and_bob
                (JoinRoom "b2" (Some "den") (Some "bob") 8%Z))
          (LeaveRoom "b2" 9%Z)) "b2"
     = None.
Proof.
  assert (Hne : clean "den" <> "") by discriminate.
  destruct (join_then_leave alice_and_bob "b2" _ "den" "bob" 8%Z 9%Z
              eq_refl eq_refl Hne eq_refl) as (_ & Hdir & _ & _ & Hs).
  split; assumption.
Defined.

(** X10.  A room code that is empty after normalisation (white space
    only) passes validation.  The join then stores the connection in the
    room kept under the empty code, but because the empty string is
    falsy, a later [leave-room] skips the room: it emits nothing and the
    member entry stays in the directory. *)
Theorem blank_room_code_sticks st s c rc nk now now' :
  JMap.get s (sockets st) = Some c ->
  invalid_request rc nk = false ->
  clean rc = "" ->
  (forall k u, In (k, u) (users (room_or_fresh "" now st)) ->
               m_nickname u = clean nk -> k = s) ->
  let st1 := next st (JoinRoom s (Some rc) (Some nk) now) in
  let st2 := next st1 (LeaveRoom s now') in
  output st1 (LeaveRoom s now') = []
  /\ activeRooms st2 = activeRooms st1
  /\ exists room,
      JMap.get "" (activeRooms st2) = Some room
      /\ JMap.get s (users room) = Some (mkMember s (clean nk) now).
Proof.
  intros Hc Hv Hblank Hfree st1 st2.
  rewrite <- Hblank in Hfree. apply nickname_taken_false in Hfree.
  destruct (join_event_state st s c rc nk now Hc Hv Hfree) as [Hd1 Hsock].
  fold st1 in Hd1, Hsock. rewrite Hblank in Hd1, Hsock.
  assert (Hroom : JMap.get "" (activeRooms st1)
                  = Some (joined_room s (clean nk) now
                            (room_or_fresh "" now st)))
    by (rewrite Hd1; apply JMapFacts.get_set_same).
  assert (Hmem : JMap.get s
                   (users (joined_room s (clean nk) now
                             (room_or_fresh "" now st)))
                 = Some (mkMember s (clean nk) now))
    by apply JMapFacts.get_set_same.
  set (c1 := socket_join ""
               (set_identity (Some (clean nk)) (Some "") c)) in *.
  assert (Hrc1 : roomCode (userData c1) = Some "")
    by (unfold c1; now rewrite userData_socket_join).
  assert (Hstep : step st1 (LeaveRoom s now') = handleUserLeave s c1 now' st1).
  { simpl. unfold on_socket. now rewrite Hsock. }
  destruct (handleUserLeave_no_room s c1 now' st1 (or_intror (or_introl Hrc1)))
    as (Hdir & Hout & _).
  unfold output, st2, next. rewrite Hstep. repeat split; trivial.
  rewrite Hdir. eexists. split; [exact Hroom|exact Hmem].
Qed.

(** [blank_room_code_sticks] at a concrete state of the server. *)
Lemma blank_room_code_sticks_witness :
  exists room,
    JMap.get "" (activeRooms
                   (next (next newcomer
                            (JoinRoom "a1" (Some "  ") (Some "al") 2%Z))
                      (LeaveRoom "a1" 3%Z)))
    = Some room
    /\ JMap.get "a1" (users room) = Some (mkMember "a1" "AL" 2%Z).
Proof.
  assert (Hfree : forall k u,
             In (k, u) (users (room_or_fresh "" 2%Z newcomer)) ->
             m_nickname u = clean "al" -> k = "a1")
    by (intros k u []).
  exact (proj2 (proj2
           (blank_room_code_sticks newcomer "a1" _ "  " "al" 2%Z 3%Z
              eq_refl eq_refl eq_refl Hfree))).
Defined.

(* ------------------------------------------------------------------ *)
(** * disconnect *)

Lemma In_set_NoDup (V : Type) k (v v' : V) m :
  NoDup (JMap.keys m) -> In (k, v') (JMap.set k v m) -> v' = v.
Proof.
  intros Hnd Hin.
  apply (JMapLaws.In_get_NoDup V k v' (JMap.set k v m)) in Hin.
  - rewrite JMapFacts.get_set_same in Hin. congruence.
  - now apply JMapFacts.NoDup_keys_set.
Qed.

Lemma not_in_group_without_rooms g s c m st :
  NoDup (JMap.keys m) -> sockets st = JMap.set s c m -> rooms c = [] ->
  ~ In s (in_group g st).
Proof.
  intros Hnd Hm Hrooms Hin. unfold in_group, JMap.keys in Hin.
  apply in_map_iff in Hin. destruct Hin as [[k c'] [Hk Hin]].
  simpl in Hk. subst k. apply filter_In in Hin. destruct Hin as [Hin Hp].
  rewrite Hm in Hin. apply In_set_NoDup in Hin; trivial. subst c'.
  simpl in Hp. now rewrite Hrooms in Hp.
Qed.

Lemma handleUserLeave_recipients s c now st a to p :
  In (Emit a to p) (snd (handleUserLeave s c now st)) ->
  (exists rc, a = ToOthers s rc /\ to = others s rc st)
  \/ (exists rc, a = ToAll rc /\ to = in_group rc st).
Proof.
  destruct (roomCode (userData c)) as [rc|] eqn:Hrc.
  - destruct (String.eqb rc "") eqn:E.
    + apply String.eqb_eq in E. subst rc.
      destruct (handleUserLeave_no_room s c now st) as (_ & -> & _); auto.
      intros [].
    + apply String.eqb_neq in E.
      destruct (JMap.get rc (activeRooms st)) as [room|] eqn:Hroom.
      * destruct (handleUserLeave_in_room s c now st rc room Hrc E Hroom)
          as [_ ->].
        intros Hin. apply in_app_iff in Hin.
        destruct Hin as [[H|[H|[]]]|Hin].
        -- injection H as <- <- _. left. now exists rc.
        -- injection H as <- <- _. right. now exists rc.
        -- destruct (_ =? 0); simpl in Hin;
             repeat (destruct Hin as [Hin|Hin]; [discriminate Hin|]);
             destruct Hin.
      * destruct (handleUserLeave_no_room s c now st) as (_ & -> & _).
        -- right. right. now exists rc.
        -- intros [].
  - destruct (handleUserLeave_no_room s c now st) as (_ & -> & _); auto.
    intros [].
Qed.

(** X11.  When a connection disconnects, its closure and its session are
    gone, no other connection's closure is touched, the room directory
    changes exactly as for a [leave-room] of that connection, none of
    the events emitted on the way is delivered to the disconnected
    socket, and every later event carrying its id is ignored. *)
Theorem disconnect_effect st s c now :
  reachable st ->
  JMap.get s (sockets st) = Some c ->
  let st' := next st (Disconnect s now) in
  JMap.get s (sockets st') = None
  /\ session st' s = None
  /\ (forall s', s' <> s ->
                 JMap.get s' (sockets st') = JMap.get s' (sockets st))
  /\ activeRooms st' = activeRooms (next st (LeaveRoom s now))
  /\ (forall a to p,
         In (Emit a to p) (output st (Disconnect s now)) -> ~ In s to)
  /\ (forall e,
         event_socket e = Some s ->
         (forall ip t, e <> Connection s ip t) ->
         step st' e = (st', [])).
Proof.
  intros Hr Hc st'.
  pose proof (reachable_counters_ok st Hr) as [Hnd _].
  rewrite keys_ips in Hnd.
  set (c0 := with_rooms [] c).
  set (st0 := set_sockets (JMap.set s c0 (sockets st)) st).
  assert (Hstep : step st (Disconnect s now) = on_disconnect s c now st).
  { simpl. unfold on_socket. now rewrite Hc. }
  assert (Hgone : JMap.get s (sockets st') = None).
  { unfold st', next. rewrite Hstep. unfold on_disconnect.
    destruct (handleUserLeave s (with_rooms [] c) now _). simpl.
    apply JMapFacts.get_delete_same. }
  split; [exact Hgone|]. split; [|split; [|split; [|split]]].
  - unfold session, st', next. rewrite Hstep, on_disconnect_userSockets.
    now rewrite JMapFacts.get_delete_same.
  - intros s' Hne. unfold st', next. rewrite Hstep. unfold on_disconnect.
    fold c0 st0.
    pose proof (handleUserLeave_other s s' c0 now st0 Hne) as Hother.
    destruct (handleUserLeave s c0 now st0) as [st1 out]. simpl in *.
    rewrite JMapFacts.get_delete_other by assumption. rewrite Hother.
    now apply JMapFacts.get_set_other.
  - unfold st', next at 1. rewrite Hstep, on_disconnect_directory.
    unfold next. simpl. unfold on_socket. rewrite Hc.
    now rewrite !handleUserLeave_activeRooms.
  - intros a to p. unfold output. rewrite Hstep. unfold on_disconnect.
    fold c0 st0.
    pose proof (handleUserLeave_recipients s c0 now st0 a to p) as Hrec.
    destruct (handleUserLeave s c0 now st0) as [st1 out]. simpl in *.
    intros Hin. apply in_app_iff in Hin.
    destruct Hin as [Hin|[Hin|[]]]; [|discriminate Hin].
    destruct (Hrec Hin) as [[rc [_ ->]]|[rc [_ ->]]].
    + intros Hto. apply In_others in Hto. destruct Hto as [Hto _].
      revert Hto.
      now apply (not_in_group_without_rooms rc s c0 (sockets st) st0).
    + now apply (not_in_group_without_rooms rc s c0 (sockets st) st0).
  - intros e He Hnc.
    destruct e as [s1 ip t|s1 rc nk t|s1 tg sg ty|s1 m rc t id|s1 f tu rc
                  |s1 t|s1 t|t|s1 h]; simpl in He; try discriminate;
      injection He as ->; simpl; unfold on_socket; try now rewrite Hgone.
    exfalso. now apply (Hnc ip t).
Qed.

(** [disconnect_effect] at a concrete state of the server. *)
Lemma disconnect_effect_witness :
  session (next alice_and_bob (Disconnect "b2" 9%Z)) "b2" = None
  /\ activeRooms (next alice_and_bob (Disconnect "b2" 9%Z))
     = activeRooms (next alice_and_bob (LeaveRoom "b2" 9%Z)).
Proof.
  destruct (disconnect_effect alice_and_bob "b2" _ 9%Z
              reachable_alice_and_bob eq_refl) as (_ & H1 & _ & H2 & _).
  split; assumption.
Defined.

(* ------------------------------------------------------------------ *)
(** * Events of one connection leave the others alone *)

(** X12.  An event never changes the closure of a connection it does
    not belong to: the nickname, the room code and the groups of every
    other open connection are as before; the reaper changes no
    connection at all. *)
Theorem others_untouched st e s' :
  (forall s, event_socket e = Some s -> s' <> s) ->
  JMap.get s' (sockets (next st e)) = JMap.get s' (sockets st).
Proof.
  intros Hne. unfold next.
  destruct e as [s ip now|s rc nk now|s t sg ty|s m rc now id|s f t rc
                |s now|s now|now|s h];
    simpl in *; try specialize (Hne s eq_refl); unfold on_socket;
    try (destruct (JMap.get s (sockets st)) as [c|] eqn:Hc; [|reflexivity]).
  - unfold on_connection. destruct (_ <=? _); [reflexivity|]. simpl.
    now apply JMapFacts.get_set_other.
  - now apply join_room_other.
  - now rewrite webrtc_signal_frame.
  - now destruct (chat_message_frame s c m rc now id st) as (-> & _).
  - now rewrite private_chat_invite_frame.
  - now apply handleUserLeave_other.
  - unfold on_disconnect.
    pose proof (handleUserLeave_other s s' (with_rooms [] c) now
                  (set_sockets (JMap.set s (with_rooms [] c) (sockets st)) st)
                  Hne) as Hother.
    destruct (handleUserLeave s (with_rooms [] c) now _) as [st1 out].
    simpl in *. rewrite JMapFacts.get_delete_other by assumption.
    rewrite Hother. now apply JMapFacts.get_set_other.
  - reflexivity.
  - now rewrite on_error_frame.
Qed.

(** [others_untouched] at a concrete state of the server. *)
Lemma others_untouched_witness :
  JMap.get "a1" (sockets (next alice_and_bob (Disconnect "b2" 9%Z)))
  = JMap.get "a1" (sockets alice_and_bob).
Proof.
  apply (others_untouched alice_and_bob (Disconnect "b2" 9%Z) "a1").
  intros s [= <-]. discriminate.
Defined.

(* ------------------------------------------------------------------ *)
(** * The reaper *)

Lemma get_filter_NoDup (V : Type) (f : string * V -> bool) k m :
  NoDup (JMap.keys m) ->
  JMap.get k (filter f m)
  = match JMap.get k m with
    | Some v => if f (k, v) then Some v else None
    | None => None
    end.
Proof.
  unfold JMap.keys.
  induction m as [|[k' v'] m IH]; simpl; intros Hnd; trivial.
  inversion Hnd as [|? ? Hni Hnd']; subst.
  destruct (String.eqb k k') eqn:E.
  - apply String.eqb_eq in E; subst k'.
    destruct (f (k, v')); simpl.
    + now rewrite String.eqb_refl.
    + rewrite IH by assumption.
      destruct (JMap.get k m) as [v|] eqn:G; trivial.
      exfalso. apply Hni. apply in_map_iff. exists (k, v).
      split; trivial. now apply JMapFacts.get_In.
  - destruct (f (k', v')); simpl; [rewrite E|]; now apply IH.
Qed.

(** X13.  One sweep of the reaper in a reachable state: a room whose last
    activity lies more than 30 minutes back is gone afterwards, however
    many members it has; a room idle for 30 minutes or less, and so one
    idle for exactly 30 minutes, is kept as it is.  The sweep emits
    no event, logs one line per room it removes, and leaves sessions,
    connections and counters alone, so the members of a removed room
    keep its code in their session. *)
Theorem reaper_sweep st now :
  reachable st ->
  let st' := next st (CleanupTick now) in
  (forall c,
      JMap.get c (activeRooms st')
      = match JMap.get c (activeRooms st) with
        | Some room =>
            if (ROOM_TTL <? now - lastActivity room)%Z then None
            else Some room
        | None => None
        end)
  /\ sockets st' = sockets st
  /\ userSockets st' = userSockets st
  /\ userConnections st' = userConnections st
  /\ emissions (output st (CleanupTick now)) = []
  /\ length (output st (CleanupTick now)) + JMap.size (activeRooms st')
     = JMap.size (activeRooms st).
Proof.
  intros Hr st'. pose proof (reachable_directory_wf st Hr) as [Hnd _].
  repeat split.
  - intros c. unfold st', next. simpl.
    rewrite get_filter_NoDup by assumption.
    destruct (JMap.get c (activeRooms st)) as [room|]; trivial.
    unfold inactive. simpl. now destruct (_ <? _)%Z.
  - unfold output. simpl.
    induction (filter (inactive now) (activeRooms st)) as [|x l IH];
      simpl; trivial.
  - unfold output, st', next, JMap.size. simpl. rewrite length_map.
    clear. induction (activeRooms st) as [|x l IH]; simpl; trivial.
    destruct (inactive now x); simpl; lia.
Qed.

(** [reaper_sweep] at a concrete state of the server. *)
Lemma reaper_sweep_witness :
  JMap.get "LOBBY" (activeRooms lobby_evicted) = None
  /\ sockets lobby_evicted = sockets alice_and_bob.
Proof.
  destruct (reaper_sweep alice_and_bob 2000000%Z reachable_alice_and_bob)
    as (Hget & Hs & _).
  split; [|exact Hs].
  exact (Hget "LOBBY").
Defined.

(** X14.  A connection whose room code names a room that is not in the
    directory (the reaper removed it): its chat messages are dropped
    without any effect, whatever room code they carry.  Its [leave-room]
    emits nothing and leaves the directory and the connection counters
    alone; it deletes the connection's entry in [userSockets], takes the
    socket out of the transport group named by the code (unless the code
    is the empty string), and sets the room code of the closure to
    [null], keeping the nickname; no other connection is touched. *)
Theorem orphaned_session st s c rc now :
  JMap.get s (sockets st) = Some c ->
  roomCode (userData c) = Some rc ->
  JMap.get rc (activeRooms st) = None ->
  let st' := next st (LeaveRoom s now) in
  (forall m rc' id, step st (ChatMessage s m rc' now id) = (st, []))
  /\ output st (LeaveRoom s now) = []
  /\ activeRooms st' = activeRooms st
  /\ userConnections st' = userConnections st
  /\ userSockets st' = JMap.delete s (userSockets st)
  /\ JMap.get s (sockets st')
     = Some (clear_room (if String.eqb rc "" then c else socket_leave rc c))
  /\ (forall s', s' <> s ->
                 JMap.get s' (sockets st') = JMap.get s' (sockets st)).
Proof.
  intros Hc Hrc Hnone st'.
  assert (Hst' : st' = fst (handleUserLeave s c now st)).
  { unfold st', next. simpl. unfold on_socket. now rewrite Hc. }
  assert (Hcase : roomCode (userData c) = None
                  \/ roomCode (userData c) = Some ""
                  \/ exists rc0, roomCode (userData c) = Some rc0
                                 /\ JMap.get rc0 (activeRooms st) = None)
    by (right; right; now exists rc).
  destruct (handleUserLeave_no_room s c now st Hcase) as (Hdir & Hout & Hs).
  split; [|split; [|split; [|split; [|split; [|split]]]]].
  - intros m rc' id. simpl. unfold on_socket. rewrite Hc.
    unfold chat_message. rewrite Hrc.
    destruct (truthy (Some rc)); [|reflexivity]. simpl.
    destruct rc' as [rc'|]; [|reflexivity]. simpl.
    destruct (String.eqb rc rc') eqn:E; [|reflexivity].
    apply String.eqb_eq in E. subst rc'. simpl.
    destruct m as [m|]; [|reflexivity].
    destruct (_ || _); [reflexivity|]. now rewrite Hnone.
  - unfold output. simpl. unfold on_socket. now rewrite Hc.
  - now rewrite Hst'.
  - rewrite Hst'. apply handleUserLeave_frame.
  - rewrite Hst'. apply handleUserLeave_userSockets.
  - rewrite Hst', Hs, Hc, Hrc. simpl. now destruct (String.eqb rc "").
  - intros s' Hs'. rewrite Hst'. now apply handleUserLeave_other.
Qed.

(** [orphaned_session] at a concrete state of the server: the reaper
    has removed LOBBY, BOB's closure still names it. *)
Lemma orphaned_session_witness :
  step lobby_evicted
    (ChatMessage "b2" (Some "hi") (Some "LOBBY") 2000001%Z "m1")
  = (lobby_evicted, [])
  /\ output lobby_evicted (LeaveRoom "b2" 2000001%Z) = []
  /\ JMap.keys (userSockets (next lobby_evicted (LeaveRoom "b2" 2000001%Z)))
     = ["a1"]
  /\ option_map rooms
       (JMap.get "b2" (sockets (next lobby_evicted
                                  (LeaveRoom "b2" 2000001%Z))))
     = Some ["b2"].
Proof.
  destruct (orphaned_session lobby_evicted "b2" _ "LOBBY" 2000001%Z
              eq_refl eq_refl eq_refl)
    as (Hchat & Hout & _ & _ & Hus & Hsock & _).
  split; [exact (Hchat (Some "hi") (Some "LOBBY") "m1")|].
  split; [exact Hout|]. split.
  - now rewrite Hus.
  - now rewrite Hsock.
Defined.

(* ------------------------------------------------------------------ *)
(** * The relays *)

(** X15.  [webrtc-signal], in a reachable state: without a target or
    without a signal nothing happens.  Otherwise the state is unchanged
    and exactly one [webrtc-signal] is emitted, addressed to the group
    named by the target and delivered to the sockets of that group that
    are not in the group named by the sender's id (so not to the sender,
    provided it is in that group), carrying the sender's id and current
    nickname and the signal and type as received; the sender needs no
    room for this.  When the target is the id of another open
    connection and neither the target's nor the sender's id is a
    normalised room code, the target connection alone receives it. *)
Theorem signal_relay st s c target signal type :
  reachable st ->
  JMap.get s (sockets st) = Some c ->
  let e := WebrtcSignal s target signal type in
  next st e = st
  /\ (truthy target = false \/ truthy signal = false -> output st e = [])
  /\ (forall t sg,
         target = Some t -> signal = Some sg -> t <> "" -> sg <> "" ->
         emissions (output st e)
         = [Emit (ToOthers s t) (others s t st)
              (WebrtcSignalOut s (nickname (userData c)) sg type)]
         /\ (forall x, In x (others s t st) <->
                       In x (in_group t st) /\ ~ In x (in_group s st))
         /\ (In s (rooms c) -> ~ In s (others s t st))
         /\ (forall ct, JMap.get t (sockets st) = Some ct -> t <> s ->
                        (forall x, clean x <> t) ->
                        (forall x, clean x <> s) ->
                        others s t st = [t])).
Proof.
  intros Hr Hc e.
  assert (Hstep : step st e = webrtc_signal s c target signal type st).
  { unfold e. simpl. unfold on_socket. now rewrite Hc. }
  unfold next, output. rewrite Hstep.
  split; [apply webrtc_signal_frame|]. split.
  - unfold webrtc_signal. intros [H|H].
    + destruct target as [t|]; [|reflexivity]. simpl in H.
      apply negb_false_iff in H. rewrite H.
      now destruct signal.
    + destruct target as [t|]; [|reflexivity].
      destruct signal as [sg|]; [|reflexivity]. simpl in H.
      apply negb_false_iff in H. rewrite H. now rewrite orb_true_r.
  - intros t sg -> -> Ht Hsg. unfold webrtc_signal.
    apply String.eqb_neq in Ht, Hsg. rewrite Ht, Hsg. simpl.
    split; [reflexivity|]. split; [intros x; apply In_others|].
    split; [intros Hown; now apply (not_In_others s c)|].
    intros ct Hct Hts Hidt Hids.
    rewrite (others_alone s t st (in_group_own st s c Hr Hc Hids)).
    rewrite (in_group_own st t ct Hr Hct Hidt). simpl.
    apply String.eqb_neq in Hts. now rewrite Hts.
Qed.

(** [signal_relay] at a concrete state of the server: ALICE signals
    BOB. *)
Lemma signal_relay_witness :
  emissions (output alice_and_bob
               (WebrtcSignal "a1" (Some "b2") (Some "sdp") (Some "offer")))
  = [Emit (ToOthers "a1" "b2") (others "a1" "b2" alice_and_bob)
       (WebrtcSignalOut "a1" (Some "ALICE") "sdp" (Some "offer"))]
  /\ others "a1" "b2" alice_and_bob = ["b2"].
Proof.
  assert (Hne : "b2" <> "" /\ "sdp" <> "" /\ "b2" <> "a1")
    by (repeat split; discriminate).
  destruct Hne as (H1 & H2 & H3).
  destruct (signal_relay alice_and_bob "a1" _ (Some "b2") (Some "sdp")
              (Some "offer") reachable_alice_and_bob eq_refl)
    as (_ & _ & H).
  destruct (H "b2" "sdp" eq_refl eq_refl H1 H2) as (Hem & _ & _ & Honly).
  split; [exact Hem|].
  apply (Honly _ eq_refl H3); apply lower_id_not_clean; reflexivity.
Defined.

(** X16.  [chat-message] from a connection whose room code is not the
    empty string, carrying that code, when the room is in the directory
    and lists the connection.  An empty or missing text or one of more
    than 500 characters is dropped without any effect; 500 characters
    pass.  Otherwise exactly one [chat-message] is emitted, addressed to
    the room's group and delivered to the sockets of that group that are
    not in the group named by the sender's id (so not to the sender,
    provided it is in that group), with the sender's nickname and the
    text as received; the room's [lastActivity] becomes now, its
    membership and everything outside the directory stay as they
    were. *)
Theorem chat_relay st s c rc room message now id :
  JMap.get s (sockets st) = Some c ->
  roomCode (userData c) = Some rc -> rc <> "" ->
  JMap.get rc (activeRooms st) = Some room ->
  JMap.has s (users room) = true ->
  let e := ChatMessage s message (Some rc) now id in
  (truthy message = false
   \/ (exists m, message = Some m /\ 500 < String.length m) ->
   step st e = (st, []))
  /\ (forall m,
         message = Some m -> m <> "" -> String.length m <= 500 ->
         emissions (output st e)
         = [Emit (ToOthers s rc) (others s rc st)
              (ChatMessageOut id (nickname (userData c)) m now)]
         /\ (forall x, In x (others s rc st) <->
                       In x (in_group rc st) /\ ~ In x (in_group s st))
         /\ (In s (rooms c) -> ~ In s (others s rc st))
         /\ JMap.get rc (activeRooms (next st e)) = Some (touch now room)
         /\ users (touch now room) = users room
         /\ (forall c', c' <> rc ->
                        JMap.get c' (activeRooms (next st e))
                        = JMap.get c' (activeRooms st))
         /\ sockets (next st e) = sockets st
         /\ userSockets (next st e) = userSockets st).
Proof.
  intros Hc Hrc Hne Hroom Hmem e.
  assert (Hstep : step st e = chat_message s c message (Some rc) now id st).
  { unfold e. simpl. unfold on_socket. now rewrite Hc. }
  assert (Hpass : negb (truthy (roomCode (userData c)))
                  || negb (opt_eqb (roomCode (userData c)) (Some rc))
                  = false).
  { rewrite Hrc. simpl. apply String.eqb_neq in Hne.
    now rewrite Hne, String.eqb_refl. }
  unfold next, output. rewrite Hstep. unfold chat_message. rewrite Hpass.
  split.
  - intros [H|[m [-> H]]].
    + destruct message as [m|]; [|reflexivity]. simpl in H.
      apply negb_false_iff in H. now rewrite H.
    + apply Nat.ltb_lt in H. rewrite H. now rewrite orb_true_r.
  - intros m -> Hm Hlen. apply String.eqb_neq in Hm.
    apply Nat.ltb_ge in Hlen. rewrite Hm, Hlen, Hroom, Hmem. simpl.
    split; [reflexivity|]. split; [intros x; apply In_others|].
    split; [intros Hown; now apply (not_In_others s c)|].
    repeat split.
    + apply JMapFacts.get_set_same.
    + intros c' Hc'. now apply JMapFacts.get_set_other.
Qed.

(** [chat_relay] at a concrete state of the server: BOB writes to LOBBY,
    where ALICE is. *)
Lemma chat_relay_witness :
  emissions (output alice_and_bob
               (ChatMessage "b2" (Some "hi") (Some "LOBBY") 9%Z "m1"))
  = [Emit (ToOthers "b2" "LOBBY") ["a1"]
       (ChatMessageOut "m1" (Some "BOB") "hi" 9%Z)].
Proof.
  assert (Hne : "LOBBY" <> "") by discriminate.
  destruct (chat_relay alice_and_bob "b2" _ "LOBBY" _ (Some "hi") 9%Z "m1"
              eq_refl eq_refl Hne eq_refl eq_refl) as [_ H].
  destruct (H "hi" eq_refl) as [Hout _].
  - discriminate.
  - simpl. lia.
  - exact Hout.
Defined.

(* ------------------------------------------------------------------ *)
(** * A join followed by a chat message *)

Lemma chat_message_relayed s c rc room m now id st :
  roomCode (userData c) = Some rc -> rc <> "" ->
  JMap.get rc (activeRooms st) = Some room ->
  JMap.has s (users room) = true ->
  m <> "" -> String.length m <= 500 ->
  chat_message s c (Some m) (Some rc) now id st
  = (set_activeRooms (JMap.set rc (touch now room) (activeRooms st)) st,
     [emit_others s rc st (ChatMessageOut id (nickname (userData c)) m now);
      Log "Message relayed"]).
Proof.
  intros Hrc Hne Hroom Hmem Hm Hlen. unfold chat_message. rewrite Hrc.
  apply String.eqb_neq in Hne, Hm. apply Nat.ltb_ge in Hlen. simpl.
  now rewrite Hne, String.eqb_refl, Hm, Hlen, Hroom, Hmem.
Qed.

(** X17.  After a join that passes validation, for a nickname that no
    other connection holds in the room and a room code that is not
    empty after normalisation, a chat message that carries the
    normalised code (the [roomCode] of the acknowledgment) and a text of
    1 to 500 characters is relayed under the normalised nickname: it is
    addressed to the room's group and delivered to the sockets of that
    group that are not in the group named by the sender's id (so not to
    the sender, provided it is in that group).  The same message
    carrying the code as it was typed, if that differs from its normal
    form, is dropped. *)
Theorem join_then_chat st s c rc nk m now now' id :
  JMap.get s (sockets st) = Some c ->
  invalid_request rc nk = false ->
  clean rc <> "" ->
  (forall k u, In (k, u) (users (room_or_fresh (clean rc) now st)) ->
               m_nickname u = clean nk -> k = s) ->
  m <> "" -> String.length m <= 500 ->
  let st1 := next st (JoinRoom s (Some rc) (Some nk) now) in
  emissions (output st1 (ChatMessage s (Some m) (Some (clean rc)) now' id))
  = [Emit (ToOthers s (clean rc)) (others s (clean rc) st1)
       (ChatMessageOut id (Some (clean nk)) m now')]
  /\ (forall x, In x (others s (clean rc) st1) <->
                In x (in_group (clean rc) st1) /\ ~ In x (in_group s st1))
  /\ (In s (rooms c) -> ~ In s (others s (clean rc) st1))
  /\ (rc <> clean rc ->
      step st1 (ChatMessage s (Some m) (Some rc) now' id) = (st1, [])).
Proof.
  intros Hc Hv Hne Hfree Hm Hlen st1.
  apply nickname_taken_false in Hfree.
  destruct (join_event_state st s c rc nk now Hc Hv Hfree) as [Hd1 Hsock].
  fold st1 in Hd1, Hsock.
  set (c1 := socket_join (clean rc)
               (set_identity (Some (clean nk)) (Some (clean rc)) c)) in *.
  assert (Hrc1 : roomCode (userData c1) = Some (clean rc))
    by (unfold c1; now rewrite userData_socket_join).
  assert (Hn1 : nickname (userData c1) = Some (clean nk))
    by (unfold c1; now rewrite userData_socket_join).
  split; [|split; [|split]].
  - unfold output. simpl. unfold on_socket. rewrite Hsock.
    rewrite (chat_message_relayed s c1 (clean rc)
               (joined_room s (clean nk) now
                  (room_or_fresh (clean rc) now st)) m now' id st1);
      trivial.
    + simpl. now rewrite Hn1.
    + rewrite Hd1. apply JMapFacts.get_set_same.
    + apply JMapFacts.has_true. eexists. simpl.
      apply JMapFacts.get_set_same.
  - intros x. apply In_others.
  - intros Hown. apply (not_In_others s c1 (clean rc) st1 Hsock).
    unfold c1. now apply In_rooms_socket_join_other.
  - intros Hraw. simpl. unfold on_socket. rewrite Hsock.
    unfold chat_message. rewrite Hrc1. simpl.
    assert (E : String.eqb (clean rc) rc = false)
      by (apply String.eqb_neq; congruence).
    rewrite E. now rewrite orb_true_r.
Qed.

(** [join_then_chat] at a concrete state of the server: BOB joins LOBBY
    as [" lobby "] and writes to it. *)
Lemma join_then_chat_witness :
  emissions (output alice_and_bob
               (ChatMessage "b2" (Some "hi") (Some "LOBBY") 5%Z "m1"))
  = [Emit (ToOthers "b2" "LOBBY") ["a1"]
       (ChatMessageOut "m1" (Some "BOB") "hi" 5%Z)]
  /\ step alice_and_bob
       (ChatMessage "b2" (Some "hi") (Some " lobby ") 5%Z "m1")
     = (alice_and_bob, []).
Proof.
  assert (Hfree : forall k u,
             In (k, u)
                (users (room_or_fresh (clean " lobby ") 4%Z alice_in_lobby)) ->
             m_nickname u = clean "bob" -> k = "b2").
  { intros k u [H|[]] Hn. injection H as <- <-. discriminate Hn. }
  assert (H1 : clean " lobby " <> "") by discriminate.
  assert (H2 : "hi" <> "") by discriminate.
  assert (H3 : String.length "hi" <= 500) by (simpl; lia).
  destruct (join_then_chat alice_in_lobby "b2" _ " lobby " "bob" "hi"
              4%Z 5%Z "m1" eq_refl eq_refl H1 Hfree H2 H3)
    as (Hem & _ & _ & Hdrop).
  split; [exact Hem|]. apply Hdrop. discriminate.
Defined.

(* ------------------------------------------------------------------ *)
(** * Normalisation *)

Lemma is_space_upper a : is_space (upper_ascii a) = is_space a.
Proof. destruct a as [[] [] [] [] [] [] [] []]; reflexivity. Qed.

Lemma upper_ascii_idem a : upper_ascii (upper_ascii a) = upper_ascii a.
Proof. destruct a as [[] [] [] [] [] [] [] []]; reflexivity. Qed.

Lemma toUpperCase_idem s : toUpperCase (toUpperCase s) = toUpperCase s.
Proof.
  induction s as [|a s IH]; simpl; trivial.
  now rewrite upper_ascii_idem, IH.
Qed.

Lemma toUpperCase_trimStart s :
  toUpperCase (trimStart s) = trimStart (toUpperCase s).
Proof.
  induction s as [|a s IH]; simpl; trivial.
  rewrite is_space_upper. now destruct (is_space a).
Qed.

Lemma toUpperCase_trimEnd s :
  toUpperCase (trimEnd s) = trimEnd (toUpperCase s).
Proof.
  induction s as [|a s IH]; simpl; trivial.
  rewrite <- IH, is_space_upper.
  destruct (trimEnd s) as [|b r]; simpl; trivial.
  now destruct (is_space a).
Qed.

Lemma toUpperCase_trim s : toUpperCase (trim s) = trim (toUpperCase s).
Proof. unfold trim. now rewrite toUpperCase_trimEnd, toUpperCase_trimStart. Qed.

Lemma trimEnd_idem s : trimEnd (trimEnd s) = trimEnd s.
Proof.
  induction s as [|a s IH]; simpl; trivial.
  destruct (trimEnd s) as [|b r] eqn:E.
  - destruct (is_space a) eqn:Ea; simpl; trivial. now rewrite Ea.
  - simpl in *. now rewrite IH.
Qed.

(** A string that does not begin with white space. *)
Lemma trimStart_fixed_trimEnd s :
  trimStart s = s -> trimStart (trimEnd s) = trimEnd s.
Proof.
  destruct s as [|a s]; simpl; trivial.
  destruct (is_space a) eqn:Ea.
  - intros H. exfalso.
    assert (Hlen : String.length (trimStart s) <= String.length s).
    { clear. induction s as [|b s IH]; simpl; trivial.
      destruct (is_space b); simpl; lia. }
    rewrite H in Hlen. simpl in Hlen. lia.
  - intros _. destruct (trimEnd s); simpl; now rewrite Ea.
Qed.

Lemma trimStart_idem s : trimStart (trimStart s) = trimStart s.
Proof.
  induction s as [|a s IH]; simpl; trivial.
  destruct (is_space a) eqn:Ea; trivial. simpl. now rewrite Ea.
Qed.

Lemma trim_idem s : trim (trim s) = trim s.
Proof.
  unfold trim.
  rewrite (trimStart_fixed_trimEnd (trimStart s) (trimStart_idem s)).
  apply trimEnd_idem.
Qed.

Lemma length_toUpperCase s : String.length (toUpperCase s) = String.length s.
Proof. induction s as [|a s IH]; simpl; congruence. Qed.

Lemma length_trimStart s : String.length (trimStart s) <= String.length s.
Proof.
  induction s as [|a s IH]; simpl; trivial.
  destruct (is_space a); simpl; lia.
Qed.

Lemma length_trimEnd s : String.length (trimEnd s) <= String.length s.
Proof.
  induction s as [|a s IH]; simpl; trivial.
  destruct (trimEnd s) as [|b r]; simpl in *.
  - destruct (is_space a); simpl; lia.
  - lia.
Qed.

Lemma length_clean x : String.length (clean x) <= String.length x.
Proof.
  unfold clean, trim.
  etransitivity; [apply length_trimEnd|].
  etransitivity; [apply length_trimStart|].
  now rewrite length_toUpperCase.
Qed.

Lemma clean_idem x : clean (clean x) = clean x.
Proof.
  unfold clean. now rewrite toUpperCase_trim, toUpperCase_idem, trim_idem.
Qed.

(** X18.  The normal form [s.toUpperCase().trim()] of a room code or
    nickname: normalising again changes nothing, neither does upper-casing
    or trimming alone; it contains no lower-case letter and is never
    longer than the text it comes from; and two texts that differ only in
    letter case have the same normal form. *)
Theorem normal_form x :
  clean (clean x) = clean x
  /\ toUpperCase (clean x) = clean x
  /\ trim (clean x) = clean x
  /\ has_lower (clean x) = false
  /\ String.length (clean x) <= String.length x
  /\ (forall y, toUpperCase y = toUpperCase x -> clean y = clean x).
Proof.
  repeat split.
  - apply clean_idem.
  - unfold clean. now rewrite toUpperCase_trim, toUpperCase_idem.
  - unfold clean. apply trim_idem.
  - apply clean_no_lower.
  - apply length_clean.
  - intros y Hy. unfold clean. now rewrite Hy.
Qed.

(* ------------------------------------------------------------------ *)
(** * Stored identities are normal forms of validated text *)

(** A property of closures that the four closure updates of the handlers
    preserve holds for every socket of every state that follows. *)
Lemma step_sockets_sat (P : sid -> Socket -> Prop) st e :
  (forall s ip now, P s (mkSocket ip (mkUserData s None None now) [s])) ->
  (forall s rc nk c0,
      invalid_request rc nk = false -> P s c0 ->
      P s (set_identity (Some (clean nk)) (Some (clean rc)) c0)) ->
  (forall s g c0, P s c0 -> P s (socket_join g c0)) ->
  (forall s c0, P s c0 -> P s (clear_room c0)) ->
  (forall s rc c0, P s c0 -> P s (socket_leave rc c0)) ->
  sockets_sat P st -> sockets_sat P (next st e).
Proof.
  intros Hnew Hid Hjoin Hclear Hleave Hg. unfold next.
  destruct e as [s ip now|s rc nk now|s t sg ty|s m rc now id|s f t rc
                |s now|s now|now|s h];
    simpl; unfold on_socket;
    try (destruct (JMap.get s (sockets st)) as [c|] eqn:Hc; [|exact Hg]).
  - unfold on_connection. destruct (_ <=? _); [exact Hg|]. cbn [fst].
    intros k c Hin. simpl in Hin. apply JMapFacts.In_set_inv in Hin.
    destruct Hin as [Heq|Hin]; [|now apply Hg].
    injection Heq as -> ->. apply Hnew.
  - unfold join_room.
    destruct rc as [rc|]; [|exact Hg]. destruct nk as [nk|]; [|exact Hg].
    destruct (invalid_request rc nk) eqn:Hv; [exact Hg|].
    set (st1 := upd_socket s _ st).
    assert (H1 : sockets_sat P st1).
    { apply sat_upd_socket; trivial. intros c0. now apply Hid. }
    clearbody st1.
    destruct (JMap.has (clean rc) (activeRooms st1)); cbv beta iota zeta;
      (destruct (JMap.get (clean rc) _); [|exact H1]);
      (destruct (nickname_taken _ _ _); [exact H1|]); cbn [fst];
      (apply sat_upd_socket; [exact H1|]); intros c0; apply Hjoin.
  - now rewrite webrtc_signal_frame.
  - apply sat_same_sockets with (st := st); trivial.
    apply chat_message_frame.
  - now rewrite private_chat_invite_frame.
  - apply handleUserLeave_sat; trivial.
    + intros c0. apply Hclear.
    + intros rc c0 _. apply Hleave.
  - unfold on_disconnect.
    set (st0 := set_sockets _ st).
    pose proof (handleUserLeave_sat (fun k c => k <> s -> P k c)
                  s (with_rooms [] c) now st0) as H.
    destruct (handleUserLeave s (with_rooms [] c) now st0) as [st1 out].
    cbn [fst] in *.
    assert (H1 : sockets_sat (fun k c => k <> s -> P k c) st1).
    { apply H.
      - intros k c' Hin Hne. simpl in Hin. apply JMapFacts.In_set_inv in Hin.
        destruct Hin as [Heq|Hin]; [|now apply Hg].
        injection Heq as -> _. congruence.
      - intros c0 _ Hne. congruence.
      - intros rc c0 _ _ Hne. congruence. }
    intros k c' Hin. simpl in Hin.
    apply JMapFacts.In_delete in Hin. destruct Hin as [Hne Hin].
    now apply H1.
  - exact Hg.
  - now rewrite on_error_frame.
Qed.

Lemma reachable_identity_ok st : reachable st -> sockets_sat identity_ok st.
Proof.
  induction 1 as [|st e _ IH _]; [intros s c []|].
  apply step_sockets_sat; trivial.
  - intros s ip now. repeat split; simpl; discriminate.
  - intros s rc nk c0 Hv (H1 & _ & _).
    apply invalid_request_false in Hv. destruct Hv as (_ & _ & Hrc & Hnk).
    repeat split; simpl; trivial.
    + intros x [= <-]. now exists rc.
    + intros x [= <-]. now exists nk.
  - intros s g c0 H. unfold identity_ok. now rewrite userData_socket_join.
  - intros s c0 (H1 & _ & H3). repeat split; simpl; trivial. discriminate.
Qed.

(** X19.  In every reachable state the closure of a connection stores
    the connection's own socket id; the room code it stores, if any, is
    the normal form ([toUpperCase().trim()]) of a text of at most 50
    characters, and the nickname it stores, if any, the normal form of a
    text of at most 16 characters: only what the join handler has
    validated and normalised is ever stored. *)
Theorem session_identity st s c :
  reachable st ->
  JMap.get s (sockets st) = Some c ->
  socketId (userData c) = s
  /\ (forall rc, roomCode (userData c) = Some rc ->
                 exists x, rc = clean x /\ String.length x <= 50)
  /\ (forall nk, nickname (userData c) = Some nk ->
                 exists x, nk = clean x /\ String.length x <= 16).
Proof.
  intros Hr Hc. apply JMapFacts.get_In in Hc.
  exact (reachable_identity_ok st Hr s c Hc).
Qed.

(** [session_identity] at a concrete state of the server: the closure
    of BOB, who joined as [bob] the room [" lobby "]. *)
Lemma session_identity_witness :
  exists c,
    JMap.get "b2" (sockets alice_and_bob) = Some c
    /\ socketId (userData c) = "b2"
    /\ roomCode (userData c) = Some "LOBBY"
    /\ nickname (userData c) = Some "BOB"
    /\ (exists x, "LOBBY" = clean x /\ String.length x <= 50)
    /\ (exists x, "BOB" = clean x /\ String.length x <= 16).
Proof.
  eexists. split; [reflexivity|].
  destruct (session_identity alice_and_bob "b2" _
              reachable_alice_and_bob eq_refl) as (H1 & H2 & H3).
  split; [exact H1|]. split; [reflexivity|]. split; [reflexivity|].
  split; [exact (H2 "LOBBY" eq_refl)|exact (H3 "BOB" eq_refl)].
Defined.

Lemma In_set_dir (Q : string -> Room -> Prop) c r m :
  (forall c' r', In (c', r') m -> Q c' r') -> Q c r ->
  forall c' r', In (c', r') (JMap.set c r m) -> Q c' r'.
Proof.
  intros Hm Hr c' r' Hin. apply JMapFacts.In_set_inv in Hin.
  destruct Hin as [Heq|Hin]; [|now apply Hm].
  injection Heq as -> ->. exact Hr.
Qed.

Lemma step_room_normalised st e :
  dir_sat room_normalised st -> dir_sat room_normalised (next st e).
Proof.
  intros Hd. unfold dir_sat, next.
  destruct e as [s ip now|s rc nk now|s t sg ty|s m rc now id|s f t rc
                |s now|s now|now|s h];
    simpl; unfold on_socket;
    try (destruct (JMap.get s (sockets st)) as [c|]; [|exact Hd]).
  - unfold on_connection. now destruct (_ <=? _).
  - destruct (join_room_directory s rc nk now st)
      as [->|(rc' & nk' & _ & _ & Hv & _ & ->)]; [exact Hd|].
    apply invalid_request_false in Hv. destruct Hv as (_ & _ & Hrc & Hnk).
    apply In_set_dir; [exact Hd|]. split; [now exists rc'|].
    intros k m Hin. simpl in Hin. apply JMapFacts.In_set_inv in Hin.
    destruct Hin as [Heq|Hin].
    + injection Heq as _ ->. simpl. now exists nk'.
    + unfold room_or_fresh in Hin.
      destruct (JMap.get (clean rc') (activeRooms st)) as [room|] eqn:Hroom;
        [|destruct Hin].
      apply JMapFacts.get_In in Hroom.
      now apply (proj2 (Hd _ _ Hroom) k m).
  - now rewrite webrtc_signal_frame.
  - destruct (chat_message_directory s c m rc now id st)
      as [->|(rc' & room & Hroom & ->)]; [exact Hd|].
    apply JMapFacts.get_In in Hroom.
    apply In_set_dir; [exact Hd|]. exact (Hd _ _ Hroom).
  - now rewrite private_chat_invite_frame.
  - rewrite handleUserLeave_activeRooms.
    destruct (roomCode (userData c)) as [rc|]; [|exact Hd].
    destruct (String.eqb rc ""); [exact Hd|].
    destruct (JMap.get rc (activeRooms st)) as [room|] eqn:Hroom;
      [|exact Hd].
    apply JMapFacts.get_In in Hroom. unfold directory_without.
    destruct (_ =? 0).
    + intros c' r' Hin. apply JMapFacts.In_delete_inv in Hin.
      now apply Hd.
    + apply In_set_dir; [exact Hd|]. destruct (Hd _ _ Hroom) as [H1 H2].
      split; trivial. intros k m Hin. simpl in Hin.
      apply JMapFacts.In_delete_inv in Hin. now apply (H2 k).
  - rewrite on_disconnect_directory, handleUserLeave_activeRooms. simpl.
    destruct (roomCode (userData c)) as [rc|]; [|exact Hd].
    destruct (String.eqb rc ""); [exact Hd|].
    destruct (JMap.get rc (activeRooms st)) as [room|] eqn:Hroom;
      [|exact Hd].
    apply JMapFacts.get_In in Hroom. unfold directory_without.
    destruct (_ =? 0).
    + intros c' r' Hin. apply JMapFacts.In_delete_inv in Hin.
      now apply Hd.
    + apply In_set_dir; [exact Hd|]. destruct (Hd _ _ Hroom) as [H1 H2].
      split; trivial. intros k m Hin. simpl in Hin.
      apply JMapFacts.In_delete_inv in Hin. now apply (H2 k).
  - intros c r Hin. apply filter_In in Hin. now apply Hd.
  - now rewrite on_error_frame.
Qed.

Lemma reachable_room_normalised st :
  reachable st -> dir_sat room_normalised st.
Proof.
  induction 1 as [|st e _ IH _]; [intros c r []|].
  now apply step_room_normalised.
Qed.

(** X20.  In every reachable state each room of the directory is stored
    under a code that is the normal form ([toUpperCase().trim()]) of a
    text of at most 50 characters, and each of its members carries a
    nickname that is the normal form of a text of at most 16
    characters. *)
Theorem directory_identity st c room :
  reachable st ->
  JMap.get c (activeRooms st) = Some room ->
  (exists x, c = clean x /\ String.length x <= 50)
  /\ forall k m, JMap.get k (users room) = Some m ->
                 exists x, m_nickname m = clean x /\ String.length x <= 16.
Proof.
  intros Hr Hroom. apply JMapFacts.get_In in Hroom.
  destruct (reachable_room_normalised st Hr c room Hroom) as [H1 H2].
  split; [exact H1|].
  intros k m Hm. apply (H2 k). now apply JMapFacts.get_In.
Qed.

(** [directory_identity] at a concrete state of the server: the room
    LOBBY, which BOB joined as [bob]. *)
Lemma directory_identity_witness :
  exists room m,
    JMap.get "LOBBY" (activeRooms alice_and_bob) = Some room
    /\ JMap.get "b2" (users room) = Some m
    /\ m_nickname m = "BOB"
    /\ (exists x, "LOBBY" = clean x /\ String.length x <= 50)
    /\ (exists x, m_nickname m = clean x /\ String.length x <= 16).
Proof.
  do 2 eexists. split; [reflexivity|]. split; [reflexivity|].
  split; [reflexivity|].
  destruct (directory_identity alice_and_bob "LOBBY" _
              reachable_alice_and_bob eq_refl) as (H1 & H2).
  split; [exact H1|]. exact (H2 "b2" _ eq_refl).
Defined.

(* ------------------------------------------------------------------ *)
(** * The roster of a join *)

Lemma roster_ids me room :
  (forall k m, In (k, m) (users room) -> m_socketId m = k) ->
  map e_socketId (roster me room) = JMap.keys (users room).
Proof.
  unfold roster, JMap.values, JMap.keys. rewrite !map_map. simpl.
  induction (users room) as [|[k m] l IH]; simpl; intros Hid; trivial.
  rewrite (Hid k m (or_introl eq_refl)). f_equal. apply IH.
  intros k' m' Hin. apply Hid. now right.
Qed.

(** X21.  The [users-updated] payload of a join that goes through, in a
    reachable state: it lists the members of the room in the order they
    were added, each connection once, [userCount] is the number of
    entries, and [isMe] is set on the entry of the joining connection
    and on no other.  The count is one more than before for a new
    member and unchanged for a member that joins again. *)
Theorem join_roster st s c rc nk now :
  reachable st ->
  JMap.get s (sockets st) = Some c ->
  invalid_request rc nk = false ->
  (forall k u, In (k, u) (users (room_or_fresh (clean rc) now st)) ->
               m_nickname u = clean nk -> k = s) ->
  let e := JoinRoom s (Some rc) (Some nk) now in
  let room0 := room_or_fresh (clean rc) now st in
  let room' := joined_room s (clean nk) now room0 in
  let r := roster (Some s) room' in
  In (emit_all (clean rc) (next st e)
        (UsersUpdated r (JMap.size (users room'))))
     (output st e)
  /\ length r = JMap.size (users room')
  /\ map e_socketId r = JMap.keys (users room')
  /\ NoDup (map e_socketId r)
  /\ In s (map e_socketId r)
  /\ (forall x, In x r -> (e_isMe x = Some true <-> e_socketId x = s))
  /\ JMap.size (users room')
     = (if JMap.has s (users room0) then JMap.size (users room0)
        else S (JMap.size (users room0))).
Proof.
  intros Hr Hc Hv Hfree e room0 room' r.
  apply nickname_taken_false in Hfree.
  destruct (room_wf_joined (clean rc) s (clean nk) now st
              (reachable_directory_wf st Hr)) as (_ & _ & Hnd & Hid).
  fold room0 room' in Hnd, Hid.
  assert (Hids : map e_socketId r = JMap.keys (users room'))
    by (apply roster_ids; exact Hid).
  split; [|split; [|split; [|split; [|split; [|split]]]]].
  - destruct (join_room_accepted s rc nk now st Hv Hfree) as [Hst Hout].
    assert (Hin : In (emit_all (clean rc) (next st e)
                        (UsersUpdated r (JMap.size (users room'))))
                     (emissions (output st e))).
    { assert (Ho : output st e = snd (join_room s (Some rc) (Some nk) now st))
        by (unfold output, e; simpl; unfold on_socket; now rewrite Hc).
      assert (Hn : next st e = fst (join_room s (Some rc) (Some nk) now st))
        by (unfold next, e; simpl; unfold on_socket; now rewrite Hc).
      rewrite Ho, Hn, Hout, Hst. right. left. reflexivity. }
    unfold emissions in Hin. now apply filter_In in Hin.
  - unfold r, roster, JMap.values, JMap.size. now rewrite !length_map.
  - exact Hids.
  - rewrite Hids. exact Hnd.
  - rewrite Hids. unfold JMap.keys. apply in_map_iff.
    exists (s, mkMember s (clean nk) now). split; trivial.
    apply JMapFacts.get_In. simpl. apply JMapFacts.get_set_same.
  - intros x Hx. unfold r, roster in Hx. apply in_map_iff in Hx.
    destruct Hx as [m [<- _]]. simpl. split.
    + intros [= H]. now apply String.eqb_eq in H.
    + intros ->. now rewrite String.eqb_refl.
  - simpl. unfold JMap.has.
    destruct (JMap.get s (users room0)) as [m0|] eqn:E.
    + now apply JMapFacts.size_set_present with (v0 := m0).
    + now apply JMapLaws.size_set_absent.
Qed.

(** [join_roster] at a concrete state of the server. *)
Lemma join_roster_witness :
  map e_socketId
    (roster (Some "b2")
       (joined_room "b2" (clean "bob") 4%Z
          (room_or_fresh (clean " lobby ") 4%Z alice_in_lobby)))
  = ["a1"; "b2"].
Proof.
  assert (Hr : reachable alice_in_lobby)
    by (apply reachable_run; [constructor|reflexivity]).
  assert (Hfree : forall k u,
             In (k, u)
                (users (room_or_fresh (clean " lobby ") 4%Z alice_in_lobby)) ->
             m_nickname u = clean "bob" -> k = "b2").
  { intros k u [H|[]] Hn. injection H as <- <-. discriminate Hn. }
  destruct (join_roster alice_in_lobby "b2" _ " lobby " "bob" 4%Z
              Hr eq_refl eq_refl Hfree) as (_ & _ & H & _).
  exact H.
Defined.

(* ------------------------------------------------------------------ *)
(** * join-room refused for the nickname *)

(** X22.  A join that passes validation, for a room in which another
    connection holds the normalised nickname, is answered with exactly
    one [join-error] "Nickname already taken in this room" to the
    sender.  Nothing else is emitted, and the room directory, the
    session registry, the connection counters and the closures of all
    other connections stay as they were. *)
Theorem join_collision st s c rc nk now room k u :
  JMap.get s (sockets st) = Some c ->
  invalid_request rc nk = false ->
  JMap.get (clean rc) (activeRooms st) = Some room ->
  In (k, u) (users room) -> m_nickname u = clean nk -> k <> s ->
  let e := JoinRoom s (Some rc) (Some nk) now in
  output st e
  = [emit_self s (JoinError "Nickname already taken in this room")]
  /\ activeRooms (next st e) = activeRooms st
  /\ userSockets (next st e) = userSockets st
  /\ userConnections (next st e) = userConnections st
  /\ forall s', s' <> s ->
                JMap.get s' (sockets (next st e)) = JMap.get s' (sockets st).
Proof.
  intros Hc Hv Hroom Hin Hn Hk e.
  assert (Htaken : nickname_taken s (clean nk) room = true).
  { apply not_false_iff_true. intros Hf.
    apply Hk. now apply (proj1 (nickname_taken_false s (clean nk) room) Hf k u). }
  assert (Hstep : step st e = join_room s (Some rc) (Some nk) now st).
  { unfold e. simpl. unfold on_socket. now rewrite Hc. }
  assert (Hres : join_room s (Some rc) (Some nk) now st
                 = (upd_socket s
                      (set_identity (Some (clean nk)) (Some (clean rc))) st,
                    [emit_self s
                       (JoinError "Nickname already taken in this room")])).
  { unfold join_room. rewrite Hv.
    set (st1 := upd_socket s _ st).
    assert (H1 : activeRooms st1 = activeRooms st)
      by (unfold st1; now autorewrite with frame).
    assert (Hhas : JMap.has (clean rc) (activeRooms st1) = true).
    { rewrite H1. apply JMapFacts.has_true. now exists room. }
    rewrite Hhas. cbv beta iota zeta. now rewrite H1, Hroom, Htaken. }
  unfold output, next. rewrite Hstep, Hres. cbn [fst snd].
  autorewrite with frame. repeat split.
  intros s' Hs'. now apply get_upd_socket_other.
Qed.

(** [join_collision] at a concrete state of the server. *)
Lemma join_collision_witness :
  output alice_in_lobby (JoinRoom "b2" (Some "lobby") (Some "alice") 4%Z)
  = [emit_self "b2" (JoinError "Nickname already taken in this room")].
Proof.
  assert (Hne : "a1" <> "b2") by discriminate.
  exact (proj1 (join_collision alice_in_lobby "b2" _ "lobby" "alice" 4%Z
                  _ "a1" _ eq_refl eq_refl eq_refl
                  (or_introl eq_refl) eq_refl Hne)).
Defined.

(* ------------------------------------------------------------------ *)
(** * private-chat-invite with a field missing *)

(** X23.  A private invite whose payload is an object in which
    [fromUser], [toUser] or [roomCode] is missing or the empty string is
    not looked up at all: nothing is emitted, the state is unchanged,
    and the handler logs "Invalid private chat invite data".  A private
    invite that arrives without payload makes the handler throw at its
    first statement: the [catch] block logs "Error in
    private-chat-invite", nothing is emitted and the state is
    unchanged. *)
Theorem invite_rejects_incomplete st s c :
  JMap.get s (sockets st) = Some c ->
  (forall fromUser toUser rc,
      truthy fromUser = false \/ truthy toUser = false
      \/ truthy rc = false ->
      step st (PrivateChatInvite s fromUser toUser rc)
      = (st, [Log "Invalid private chat invite data"]))
  /\ step st (NoPayload s OnPrivateChatInvite)
     = (st, [Log "Error in private-chat-invite"]).
Proof.
  intros Hc. split.
  - intros fromUser toUser rc Hbad. simpl. unfold on_socket. rewrite Hc.
    unfold private_chat_invite.
    destruct fromUser as [f|]; [|reflexivity].
    destruct toUser as [t|]; [|reflexivity].
    destruct rc as [r|]; [|reflexivity].
    simpl in Hbad.
    destruct Hbad as [H|[H|H]]; apply negb_false_iff in H; rewrite H;
      now rewrite ?orb_true_r.
  - simpl. unfold on_socket. now rewrite Hc.
Qed.

(** [invite_rejects_incomplete] at a concrete state of the server. *)
Lemma invite_rejects_incomplete_witness :
  step alice_and_bob (PrivateChatInvite "b2" (Some "BOB") (Some "") None)
  = (alice_and_bob, [Log "Invalid private chat invite data"])
  /\ step alice_and_bob (NoPayload "b2" OnPrivateChatInvite)
     = (alice_and_bob, [Log "Error in private-chat-invite"]).
Proof.
  destruct (invite_rejects_incomplete alice_and_bob "b2" _ eq_refl)
    as [Hbad Hnone].
  split; [|exact Hnone].
  apply (Hbad (Some "BOB") (Some "") None). right. left. reflexivity.
Defined.

(* ------------------------------------------------------------------ *)
(** * leave-room twice; a connection that has not joined *)

Lemma set_same (V : Type) k (v : V) m :
  JMap.get k m = Some v -> JMap.set k v m = m.
Proof.
  induction m as [|[k' v'] m IH]; simpl; [discriminate|].
  destruct (String.eqb k k') eqn:E.
  - apply String.eqb_eq in E. subst k'. now intros [= ->].
  - intros H. now rewrite IH.
Qed.

Lemma handleUserLeave_cleared s c c0 now st :
  JMap.get s (sockets st) = Some c0 ->
  exists cx,
    JMap.get s (sockets (fst (handleUserLeave s c now st)))
    = Some (clear_room cx).
Proof.
  intros Hc. unfold handleUserLeave. break_tests; cbn [fst];
    rewrite get_upd_socket_same; cbn [sockets set_userSockets];
    try rewrite get_upd_socket_same; cbn [sockets set_activeRooms];
    rewrite Hc; eexists; reflexivity.
Qed.

(** X24.  [leave-room] is idempotent: once a connection has left, a
    second [leave-room] changes nothing and emits nothing. *)
Theorem leave_twice st s c now now' :
  JMap.get s (sockets st) = Some c ->
  let st1 := next st (LeaveRoom s now) in
  step st1 (LeaveRoom s now') = (st1, []).
Proof.
  intros Hc st1.
  assert (Hst1 : st1 = fst (handleUserLeave s c now st)).
  { unfold st1, next. simpl. unfold on_socket. now rewrite Hc. }
  destruct (handleUserLeave_cleared s c c now st Hc) as [cx Hcx].
  rewrite <- Hst1 in Hcx.
  assert (Hus : JMap.get s (userSockets st1) = None).
  { rewrite Hst1, handleUserLeave_userSockets.
    apply JMapFacts.get_delete_same. }
  clearbody st1. simpl. unfold on_socket. rewrite Hcx.
  unfold handleUserLeave. simpl.
  rewrite (JMapFacts.delete_absent _ s (userSockets st1) Hus).
  unfold upd_socket. simpl. rewrite Hcx. simpl.
  change (clear_room (clear_room cx)) with (clear_room cx).
  rewrite (set_same _ s (clear_room cx) (sockets st1) Hcx).
  now destruct st1.
Qed.

(** [leave_twice] at a concrete state of the server. *)
Lemma leave_twice_witness :
  step (next alice_and_bob (LeaveRoom "b2" 8%Z)) (LeaveRoom "b2" 9%Z)
  = (next alice_and_bob (LeaveRoom "b2" 8%Z), []).
Proof.
  exact (leave_twice alice_and_bob "b2" _ 8%Z 9%Z eq_refl).
Defined.


